(** * Cozinha de Pet: the storage layer and its request handlers

    A shallow embedding of the schema of [shared/schema.ts] (the six
    tables and their constraints), of the class [DatabaseStorage] that
    implements [IStorage] on it, and of the handlers that
    [registerRoutes] installs.

    The relational store is a record of six row lists plus the six
    [serial] sequences.  A statement is a function on that record; a
    statement that PostgreSQL rejects returns an error and leaves the rows
    as they were.  Clock readings ([new Date()], [defaultNow()]) and the
    bcrypt salt are explicit inputs.  The libraries the code calls
    (drizzle-orm, node-postgres, bcrypt, zod) are not part of the
    repository; what the embedding takes from them is said where it is
    used. *)

From Stdlib Require Import ZArith List String Ascii Bool Lia Permutation Sorted.
From stdpp Require Import gmap strings list pretty.
Import ListNotations.

#[local] Open Scope string_scope.
#[local] Open Scope Z_scope.

(** ** JavaScript values *)

(** The values that occur as fields of the objects the storage layer hands
    out.  A timestamp is a [Date], kept as milliseconds. *)
Inductive JsValue :=
| JsNull
| JsNumber (n : Z)
| JsString (s : string)
| JsDate (t : Z).

#[global] Instance JsValue_eq_dec : EqDecision JsValue.
Proof. solve_decision. Defined.

(** A plain object: a finite map from property names to values. *)
Abbreviation JsObject := (gmap string JsValue).

Definition js_opt_string (o : option string) : JsValue :=
  match o with Some s => JsString s | None => JsNull end.

(** [const { password, ...rest } = o]: the rest object has every own
    property of [o] but [password]. *)
Definition omit_password (o : JsObject) : JsObject := delete "password" o.

(** Operands of the JavaScript binary [+] as they occur in the storage
    layer.  [OpObject] is an object that has neither [Symbol.toPrimitive]
    nor a [valueOf]/[toString] of its own, such as a drizzle column
    descriptor ([recipes.cookCount]). *)
Inductive JsOperand :=
| OpNumber (n : Z)
| OpString (s : string)
| OpObject.

(** ECMAScript ToPrimitive followed by ToString, for the operands above:
    [Object.prototype.toString] yields ["[object Object]"]. *)
Definition js_to_string (v : JsOperand) : string :=
  match v with
  | OpNumber n => pretty n
  | OpString s => s
  | OpObject => "[object Object]"
  end.

(** ECMAScript [a + b]: numeric addition when both primitives are numbers,
    string concatenation otherwise. *)
Definition js_plus (a b : JsOperand) : JsOperand :=
  match a, b with
  | OpNumber x, OpNumber y => OpNumber (x + y)
  | _, _ => OpString (js_to_string a +:+ js_to_string b)
  end.

(** JavaScript truthiness of the optional arguments the code tests with
    [if (x)] and [x || d]. *)
Definition truthy_string (o : option string) : option string :=
  match o with
  | Some s => if decide (s = "") then None else Some s
  | None => None
  end.

Definition truthy_number (o : option Z) : option Z :=
  match o with
  | Some n => if decide (n = 0) then None else Some n
  | None => None
  end.

(** ** PostgreSQL values *)

Inductive DbError :=
| UniqueViolation (constraint : string)
| ForeignKeyViolation (constraint : string)
| InvalidTextRepresentation (type : string)
| NumericValueOutOfRange (type : string)
| SequenceGeneratorLimitExceeded (sequence : string)
| InvalidRowCount (clause : string).

#[global] Instance DbError_eq_dec : EqDecision DbError.
Proof. solve_decision. Defined.

Inductive Res (A : Type) :=
| Ok (a : A)
| Err (e : DbError).
Arguments Ok {A} a.
Arguments Err {A} e.

(** [then] on a promise that may be rejected. *)
#[global] Instance Res_fmap : FMap Res :=
  fun A B f r =>
    match r with
    | Ok a => Ok (f a)
    | Err e => Err e
    end.

Definition is_digit (c : ascii) : bool :=
  let n := nat_of_ascii c in (48 <=? n)%nat && (n <=? 57)%nat.

Fixpoint digits_value (acc : Z) (cs : list ascii) : option Z :=
  match cs with
  | [] => Some acc
  | c :: cs' =>
      if is_digit c
      then digits_value (10 * acc + Z.of_nat (nat_of_ascii c - 48)) cs'
      else None
  end.

(** The input function of the [integer] type on the text of a parameter
    that has no blanks around it: an optional sign and at least one
    decimal digit. *)
Definition pg_integer_in (s : string) : option Z :=
  let unsigned (cs : list ascii) : option Z :=
    match cs with [] => None | _ :: _ => digits_value 0 cs end in
  match list_ascii_of_string s with
  | "-"%char :: cs => Z.opp <$> unsigned cs
  | "+"%char :: cs => unsigned cs
  | cs => unsigned cs
  end.

(** The [integer] type has 32 bits and [bigint] 64, both signed. *)
Definition in_int4 (n : Z) : bool := (-2147483648 <=? n) && (n <=? 2147483647).

Definition in_int8 (n : Z) : bool :=
  (-9223372036854775808 <=? n) && (n <=? 9223372036854775807).

Definition in_int4_opt (o : option Z) : bool :=
  match o with
  | Some n => in_int4 n
  | None => true
  end.

(** A number bound to a parameter of type [integer]: the server refuses
    one that the type cannot hold. *)
Definition out_of_range {A} : Res A := Err (NumericValueOutOfRange "integer").

Definition integer (n : Z) : Res Z :=
  if in_int4 n then Ok n else out_of_range.

(** A value bound to an [integer] column: a number is an [integer], a
    string is read by [pg_integer_in], anything else is refused. *)
Definition integer_param (v : JsOperand) : Res Z :=
  match v with
  | OpNumber n => integer n
  | OpString s =>
      match pg_integer_in s with
      | Some n => integer n
      | None => Err (InvalidTextRepresentation "integer")
      end
  | OpObject => Err (InvalidTextRepresentation "integer")
  end.

(** [s LIKE pat] on character lists: [%] matches any run of characters,
    [_] exactly one, a backslash takes the next character literally. *)
Fixpoint like_chars (pat : list ascii) : list ascii -> bool :=
  match pat with
  | [] => fun s => match s with [] => true | _ :: _ => false end
  | "%"%char :: pat' =>
      fix skip (s : list ascii) : bool :=
        like_chars pat' s || match s with [] => false | _ :: s' => skip s' end
  | "_"%char :: pat' =>
      fun s => match s with [] => false | _ :: s' => like_chars pat' s' end
  | "\"%char :: [] => fun _ => false
  | "\"%char :: c :: pat' =>
      fun s =>
        match s with
        | [] => false
        | d :: s' => bool_decide (c = d) && like_chars pat' s'
        end
  | c :: pat' =>
      fun s =>
        match s with
        | [] => false
        | d :: s' => bool_decide (c = d) && like_chars pat' s'
        end
  end.

Definition sql_like (s pat : string) : bool :=
  like_chars (list_ascii_of_string pat) (list_ascii_of_string s).

(** ** The enumerated column types of the schema *)

Inductive PetType := Dog | Cat.
Inductive Category := Meat | Poultry | Fish | Treats.
Inductive CookingType := Raw | Cooked | Baked | Mixed.

#[global] Instance PetType_eq_dec : EqDecision PetType.
Proof. solve_decision. Defined.
#[global] Instance Category_eq_dec : EqDecision Category.
Proof. solve_decision. Defined.
#[global] Instance CookingType_eq_dec : EqDecision CookingType.
Proof. solve_decision. Defined.

Definition petTypeEnum (s : string) : option PetType :=
  if decide (s = "dog") then Some Dog
  else if decide (s = "cat") then Some Cat
  else None.

Definition categoryEnum (s : string) : option Category :=
  if decide (s = "meat") then Some Meat
  else if decide (s = "poultry") then Some Poultry
  else if decide (s = "fish") then Some Fish
  else if decide (s = "treats") then Some Treats
  else None.

Definition cookingTypeEnum (s : string) : option CookingType :=
  if decide (s = "raw") then Some Raw
  else if decide (s = "cooked") then Some Cooked
  else if decide (s = "baked") then Some Baked
  else if decide (s = "mixed") then Some Mixed
  else None.

(** ** The tables of [shared/schema.ts]

    One module per [pgTable]: [row] is [$inferSelect], [Insert.t] is
    [$inferInsert] (a column with a default or without [notNull] may be
    left out) and [Partial.t] is [Partial<$inferInsert>].  A nullable
    column is an [option]; in a partial the outer [option] says whether
    the key is supplied. *)

Module Users.
Record row := {
  id : Z;
  username : string;
  email : string;
  password : string;
  firstName : option string;
  lastName : option string;
  state : option string;
  city : option string;
  profileImageUrl : option string;
  createdAt : Z;
  updatedAt : Z }.

Module Insert.
Record t := {
  id : option Z;
  username : string;
  email : string;
  password : string;
  firstName : option string;
  lastName : option string;
  state : option string;
  city : option string;
  profileImageUrl : option string;
  createdAt : option Z;
  updatedAt : option Z }.
End Insert.

Module Partial.
Record t := {
  id : option Z;
  username : option string;
  email : option string;
  password : option string;
  firstName : option (option string);
  lastName : option (option string);
  state : option (option string);
  city : option (option string);
  profileImageUrl : option (option string);
  createdAt : option Z;
  updatedAt : option Z }.
End Partial.

(** The row as the driver returns it: an object with one property per
    column. *)
Definition obj (u : row) : JsObject :=
  list_to_map
    [ ("id", JsNumber (id u));
      ("username", JsString (username u));
      ("email", JsString (email u));
      ("password", JsString (password u));
      ("firstName", js_opt_string (firstName u));
      ("lastName", js_opt_string (lastName u));
      ("state", js_opt_string (state u));
      ("city", js_opt_string (city u));
      ("profileImageUrl", js_opt_string (profileImageUrl u));
      ("createdAt", JsDate (createdAt u));
      ("updatedAt", JsDate (updatedAt u)) ].
End Users.

Module Pets.
Record row := {
  id : Z;
  userId : Z;
  name : string;
  type : PetType;
  breed : option string;
  age : option Z;
  weight : option Z;
  profileImageUrl : option string;
  createdAt : Z;
  updatedAt : Z }.

Module Insert.
Record t := {
  id : option Z;
  userId : Z;
  name : string;
  type : PetType;
  breed : option string;
  age : option Z;
  weight : option Z;
  profileImageUrl : option string;
  createdAt : option Z;
  updatedAt : option Z }.
End Insert.

Module Partial.
Record t := {
  id : option Z;
  userId : option Z;
  name : option string;
  type : option PetType;
  breed : option (option string);
  age : option (option Z);
  weight : option (option Z);
  profileImageUrl : option (option string);
  createdAt : option Z;
  updatedAt : option Z }.
End Partial.
End Pets.

Module Recipes.
Record row := {
  id : Z;
  userId : Z;
  title : string;
  ingredients : string;
  instructions : string;
  petType : PetType;
  category : Category;
  cookingType : CookingType;
  prepTime : Z;
  imageUrl : option string;
  youtubeUrl : option string;
  cookCount : Z;
  createdAt : Z;
  updatedAt : Z }.

Module Insert.
Record t := {
  id : option Z;
  userId : Z;
  title : string;
  ingredients : string;
  instructions : string;
  petType : PetType;
  category : Category;
  cookingType : CookingType;
  prepTime : Z;
  imageUrl : option string;
  youtubeUrl : option string;
  cookCount : option Z;
  createdAt : option Z;
  updatedAt : option Z }.
End Insert.

Module Partial.
Record t := {
  id : option Z;
  userId : option Z;
  title : option string;
  ingredients : option string;
  instructions : option string;
  petType : option PetType;
  category : option Category;
  cookingType : option CookingType;
  prepTime : option Z;
  imageUrl : option (option string);
  youtubeUrl : option (option string);
  cookCount : option Z;
  createdAt : option Z;
  updatedAt : option Z }.
End Partial.
End Recipes.

Module Comments.
Record row := {
  id : Z;
  userId : Z;
  recipeId : Z;
  parentId : option Z;
  content : string;
  createdAt : Z;
  updatedAt : Z }.

Module Insert.
Record t := {
  id : option Z;
  userId : Z;
  recipeId : Z;
  parentId : option Z;
  content : string;
  createdAt : option Z;
  updatedAt : option Z }.
End Insert.
End Comments.

Module Favorites.
Record row := {
  id : Z;
  userId : Z;
  recipeId : Z;
  createdAt : Z }.

Module Insert.
Record t := {
  id : option Z;
  userId : Z;
  recipeId : Z;
  createdAt : option Z }.
End Insert.
End Favorites.

Module Followers.
Record row := {
  id : Z;
  followerId : Z;
  followingId : Z;
  createdAt : Z }.

Module Insert.
Record t := {
  id : option Z;
  followerId : Z;
  followingId : Z;
  createdAt : option Z }.
End Insert.
End Followers.

(** ** The database *)

(** The six tables in insertion order and the next value of each [serial]
    sequence. *)
Record DB := {
  users : list Users.row;
  pets : list Pets.row;
  recipes : list Recipes.row;
  comments : list Comments.row;
  favorites : list Favorites.row;
  followers : list Followers.row;
  users_id_seq : Z;
  pets_id_seq : Z;
  recipes_id_seq : Z;
  comments_id_seq : Z;
  favorites_id_seq : Z;
  followers_id_seq : Z }.

Definition empty_db : DB :=
  {| users := []; pets := []; recipes := []; comments := [];
     favorites := []; followers := [];
     users_id_seq := 1; pets_id_seq := 1; recipes_id_seq := 1;
     comments_id_seq := 1; favorites_id_seq := 1; followers_id_seq := 1 |}.

Definition set_users (t : list Users.row) (db : DB) : DB :=
  {| users := t; pets := pets db; recipes := recipes db;
     comments := comments db; favorites := favorites db;
     followers := followers db;
     users_id_seq := users_id_seq db; pets_id_seq := pets_id_seq db;
     recipes_id_seq := recipes_id_seq db;
     comments_id_seq := comments_id_seq db;
     favorites_id_seq := favorites_id_seq db;
     followers_id_seq := followers_id_seq db |}.

Definition set_pets (t : list Pets.row) (db : DB) : DB :=
  {| users := users db; pets := t; recipes := recipes db;
     comments := comments db; favorites := favorites db;
     followers := followers db;
     users_id_seq := users_id_seq db; pets_id_seq := pets_id_seq db;
     recipes_id_seq := recipes_id_seq db;
     comments_id_seq := comments_id_seq db;
     favorites_id_seq := favorites_id_seq db;
     followers_id_seq := followers_id_seq db |}.

Definition set_recipes (t : list Recipes.row) (db : DB) : DB :=
  {| users := users db; pets := pets db; recipes := t;
     comments := comments db; favorites := favorites db;
     followers := followers db;
     users_id_seq := users_id_seq db; pets_id_seq := pets_id_seq db;
     recipes_id_seq := recipes_id_seq db;
     comments_id_seq := comments_id_seq db;
     favorites_id_seq := favorites_id_seq db;
     followers_id_seq := followers_id_seq db |}.

Definition set_comments (t : list Comments.row) (db : DB) : DB :=
  {| users := users db; pets := pets db; recipes := recipes db;
     comments := t; favorites := favorites db;
     followers := followers db;
     users_id_seq := users_id_seq db; pets_id_seq := pets_id_seq db;
     recipes_id_seq := recipes_id_seq db;
     comments_id_seq := comments_id_seq db;
     favorites_id_seq := favorites_id_seq db;
     followers_id_seq := followers_id_seq db |}.

Definition set_favorites (t : list Favorites.row) (db : DB) : DB :=
  {| users := users db; pets := pets db; recipes := recipes db;
     comments := comments db; favorites := t;
     followers := followers db;
     users_id_seq := users_id_seq db; pets_id_seq := pets_id_seq db;
     recipes_id_seq := recipes_id_seq db;
     comments_id_seq := comments_id_seq db;
     favorites_id_seq := favorites_id_seq db;
     followers_id_seq := followers_id_seq db |}.

Definition set_followers (t : list Followers.row) (db : DB) : DB :=
  {| users := users db; pets := pets db; recipes := recipes db;
     comments := comments db; favorites := favorites db;
     followers := t;
     users_id_seq := users_id_seq db; pets_id_seq := pets_id_seq db;
     recipes_id_seq := recipes_id_seq db;
     comments_id_seq := comments_id_seq db;
     favorites_id_seq := favorites_id_seq db;
     followers_id_seq := followers_id_seq db |}.

(** The tables a handler can tell apart: everything but the sequences. *)
Definition same_rows (a b : DB) : Prop :=
  users a = users b /\ pets a = pets b /\ recipes a = recipes b /\
  comments a = comments b /\ favorites a = favorites b /\
  followers a = followers b.

(** [serial]: an insert that leaves [id] out draws it from the table's
    sequence.  The draw is not undone when a constraint refuses the
    row. *)
Inductive Table := TUsers | TPets | TRecipes | TComments | TFavorites | TFollowers.

Definition seq_of (t : Table) (db : DB) : Z :=
  match t with
  | TUsers => users_id_seq db
  | TPets => pets_id_seq db
  | TRecipes => recipes_id_seq db
  | TComments => comments_id_seq db
  | TFavorites => favorites_id_seq db
  | TFollowers => followers_id_seq db
  end.

Definition bump (t : Table) (db : DB) : DB :=
  {| users := users db; pets := pets db; recipes := recipes db;
     comments := comments db; favorites := favorites db;
     followers := followers db;
     users_id_seq := users_id_seq db + (if t is TUsers then 1 else 0);
     pets_id_seq := pets_id_seq db + (if t is TPets then 1 else 0);
     recipes_id_seq := recipes_id_seq db + (if t is TRecipes then 1 else 0);
     comments_id_seq := comments_id_seq db + (if t is TComments then 1 else 0);
     favorites_id_seq := favorites_id_seq db + (if t is TFavorites then 1 else 0);
     followers_id_seq := followers_id_seq db + (if t is TFollowers then 1 else 0) |}.

Definition serial (t : Table) (supplied : option Z) (db : DB) : Z * DB :=
  match supplied with
  | Some i => (i, db)
  | None => (seq_of t db, bump t db)
  end.

(** The sequence of a [serial] column is of type [integer]: it has a next
    value as long as that value fits. *)
Definition has_next (t : Table) (supplied : option Z) (db : DB) : bool :=
  match supplied with
  | Some _ => true
  | None => in_int4 (seq_of t db)
  end.

Definition sequence_name (t : Table) : string :=
  match t with
  | TUsers => "users_id_seq"
  | TPets => "pets_id_seq"
  | TRecipes => "recipes_id_seq"
  | TComments => "comments_id_seq"
  | TFavorites => "favorites_id_seq"
  | TFollowers => "followers_id_seq"
  end.

Definition sequence_exhausted {A} (t : Table) : Res A :=
  Err (SequenceGeneratorLimitExceeded (sequence_name t)).

(** ** SQL on row lists *)

Section Sql.
Context {Row : Type}.

Definition sql_where (c : Row -> bool) (t : list Row) : list Row :=
  List.filter c t.

Definition sql_delete (c : Row -> bool) (t : list Row) : list Row :=
  List.filter (fun r => negb (c r)) t.

Definition sql_update (c : Row -> bool) (set : Row -> Row) (t : list Row)
  : list Row :=
  map (fun r => if c r then set r else r) t.

(** [ORDER BY key DESC], as a stable insertion sort. *)
Fixpoint insert_desc (key : Row -> Z) (x : Row) (l : list Row) : list Row :=
  match l with
  | [] => [x]
  | y :: l' =>
      if key x <? key y then y :: insert_desc key x l' else x :: y :: l'
  end.

Definition order_by_desc (key : Row -> Z) (t : list Row) : list Row :=
  fold_right (insert_desc key) [] t.

(** The operators of drizzle-orm the storage layer imports. *)
Definition sql_eq {A} `{EqDecision A} (col : Row -> A) (v : A) : Row -> bool :=
  fun r => bool_decide (col r = v).

(** [eq] on a nullable column: [NULL] equals nothing. *)
Definition sql_eq_nullable {A} `{EqDecision A} (col : Row -> option A) (v : A)
  : Row -> bool :=
  fun r => bool_decide (col r = Some v).

(** [eq(column, value)] for a column of type [integer]: the value is bound
    as a parameter of that type, and building the condition fails when the
    type cannot hold it. *)
Definition eq_integer (col : Row -> Z) (v : Z) : Res (Row -> bool) :=
  if in_int4 v then Ok (sql_eq col v) else out_of_range.

Definition eq_integer_nullable (col : Row -> option Z) (v : Z)
  : Res (Row -> bool) :=
  if in_int4 v then Ok (sql_eq_nullable col v) else out_of_range.

Definition sql_isNull {A} (col : Row -> option A) : Row -> bool :=
  fun r => if col r is None then true else false.

Definition sql_and (c1 c2 : Row -> bool) : Row -> bool :=
  fun r => c1 r && c2 r.

Definition sql_or (c1 c2 : Row -> bool) : Row -> bool :=
  fun r => c1 r || c2 r.

Definition sql_like_col (col : Row -> string) (pat : string) : Row -> bool :=
  fun r => sql_like (col r) pat.

(** [and(c1, c2)] of two conditions with parameters: the first parameter
    that is refused is the error. *)
Definition and_ (c1 c2 : Res (Row -> bool)) : Res (Row -> bool) :=
  match c1, c2 with
  | Ok a, Ok b => Ok (sql_and a b)
  | Err e, _ => Err e
  | Ok _, Err e => Err e
  end.

(** A key keeps being unique through an update: a row whose key changed
    must be the only one with its new key. *)
Definition unique_after {K} `{EqDecision K} (key : Row -> K)
    (c : Row -> bool) (set : Row -> Row) (t : list Row) : bool :=
  forallb
    (fun r =>
       bool_decide (key (set r) = key r)
       || (length (sql_where (sql_eq key (key (set r))) (sql_update c set t))
           <=? 1)%nat)
    (sql_where c t).

(** [ON UPDATE NO ACTION]: a key that rows of [refs] point to must still
    be there after the update. *)
Definition referenced_after (key : Row -> Z) (refs : list Z)
    (c : Row -> bool) (set : Row -> Row) (t : list Row) : bool :=
  forallb
    (fun r =>
       bool_decide (key r ∉ refs)
       || bool_decide (key r ∈ map key (sql_update c set t)))
    (sql_where c t).
End Sql.

(** ** The query builder of [db.select()]

    drizzle builds a select in a configuration object; each method stores
    its argument in the configuration and returns the builder.  [where]
    assigns [config.where]: a second call replaces the condition of the
    first.  A condition is built from parameters, and building it fails
    when the text of a parameter is not a label of the column's enum. *)
Module Query.
Record t (Row : Type) := {
  config_from : list Row;
  config_where : option (Res (Row -> bool));
  config_orderBy : option (Row -> Z);
  config_limit : option Z;
  config_offset : option Z }.
Arguments config_from {Row} _.
Arguments config_where {Row} _.
Arguments config_orderBy {Row} _.
Arguments config_limit {Row} _.
Arguments config_offset {Row} _.

Section Builder.
Context {Row : Type}.

Definition from (tbl : list Row) : t Row :=
  {| config_from := tbl; config_where := None; config_orderBy := None;
     config_limit := None; config_offset := None |}.

(** [this.config.where = where; return this] *)
Definition where_ (c : Res (Row -> bool)) (q : t Row) : t Row :=
  {| config_from := config_from q; config_where := Some c;
     config_orderBy := config_orderBy q;
     config_limit := config_limit q; config_offset := config_offset q |}.

(** [orderBy(desc(column))] *)
Definition orderBy_desc (key : Row -> Z) (q : t Row) : t Row :=
  {| config_from := config_from q; config_where := config_where q;
     config_orderBy := Some key;
     config_limit := config_limit q; config_offset := config_offset q |}.

Definition limit (n : Z) (q : t Row) : t Row :=
  {| config_from := config_from q; config_where := config_where q;
     config_orderBy := config_orderBy q;
     config_limit := Some n; config_offset := config_offset q |}.

Definition offset (n : Z) (q : t Row) : t Row :=
  {| config_from := config_from q; config_where := config_where q;
     config_orderBy := config_orderBy q;
     config_limit := config_limit q; config_offset := Some n |}.

(** The [limit] clause is written for a count that is not negative, the
    [offset] clause for a count that is not 0; a count that is left out
    has no clause. *)
Definition limit_clause (q : t Row) : option Z :=
  match config_limit q with
  | Some l => if 0 <=? l then Some l else None
  | None => None
  end.

Definition offset_clause (q : t Row) : option Z :=
  match config_offset q with
  | Some o => if decide (o = 0) then None else Some o
  | None => None
  end.

(** [LIMIT] and [OFFSET]: both counts are parameters of type [bigint];
    a negative offset is an error of the statement. *)
Definition page (q : t Row) (rows : list Row) : Res (list Row) :=
  let bound (clause : option Z) :=
    match clause with
    | Some n => in_int8 n
    | None => true
    end in
  if negb (bound (limit_clause q) && bound (offset_clause q))
  then Err (NumericValueOutOfRange "bigint")
  else
    let skipped :=
      match offset_clause q with
      | Some o =>
          if o <? 0 then Err (InvalidRowCount "OFFSET")
          else Ok (skipn (Z.to_nat o) rows)
      | None => Ok rows
      end in
    match skipped, limit_clause q with
    | Ok rows', Some l => Ok (firstn (Z.to_nat l) rows')
    | Ok rows', None => Ok rows'
    | Err e, _ => Err e
    end.

Definition ordered (q : t Row) (rows : list Row) : list Row :=
  match config_orderBy q with
  | Some key => order_by_desc key rows
  | None => rows
  end.

(** Awaiting the builder runs the statement the configuration
    describes. *)
Definition run (q : t Row) : Res (list Row) :=
  match config_where q with
  | Some (Err e) => Err e
  | Some (Ok c) => page q (ordered q (sql_where c (config_from q)))
  | None => page q (ordered q (config_from q))
  end.
End Builder.
End Query.

(** ** Statements and the constraints of the schema *)

(** What a statement must meet, in the order PostgreSQL checks it: the
    values bound to its parameters must fit their types, then the rows
    must meet the constraints.  The first check that fails is the error of
    the statement. *)
Fixpoint check_all (checks : list (bool * DbError)) : option DbError :=
  match checks with
  | [] => None
  | (true, _) :: rest => check_all rest
  | (false, e) :: _ => Some e
  end.

Definition user_ids (db : DB) : list Z := map Users.id (users db).
Definition recipe_ids (db : DB) : list Z := map Recipes.id (recipes db).

(** *** INSERT

    The values are bound before the statement runs: one that its column
    cannot hold is refused before an id is drawn.  Then the id is drawn,
    if the sequence has one left, and the constraints are checked. *)

Definition insert_users (v : Users.Insert.t) (now : Z) (db : DB)
  : DB * Res Users.row :=
  if negb (in_int4_opt (Users.Insert.id v))
  then (db, out_of_range)
  else if negb (has_next TUsers (Users.Insert.id v) db)
  then (db, sequence_exhausted TUsers)
  else
    let '(i, db1) := serial TUsers (Users.Insert.id v) db in
    let r :=
      {| Users.id := i;
         Users.username := Users.Insert.username v;
         Users.email := Users.Insert.email v;
         Users.password := Users.Insert.password v;
         Users.firstName := Users.Insert.firstName v;
         Users.lastName := Users.Insert.lastName v;
         Users.state := Users.Insert.state v;
         Users.city := Users.Insert.city v;
         Users.profileImageUrl := Users.Insert.profileImageUrl v;
         Users.createdAt := default now (Users.Insert.createdAt v);
         Users.updatedAt := default now (Users.Insert.updatedAt v) |} in
    match check_all
      [ (bool_decide (i ∉ user_ids db), UniqueViolation "users_pkey");
        (bool_decide (Users.username r ∉ map Users.username (users db)),
         UniqueViolation "users_username_unique");
        (bool_decide (Users.email r ∉ map Users.email (users db)),
         UniqueViolation "users_email_unique") ]
    with
    | Some e => (db1, Err e)
    | None => (set_users (users db1 ++ [r]) db1, Ok r)
    end.

Definition insert_pets (v : Pets.Insert.t) (now : Z) (db : DB)
  : DB * Res Pets.row :=
  if negb (in_int4_opt (Pets.Insert.id v)
            && in_int4 (Pets.Insert.userId v)
            && in_int4_opt (Pets.Insert.age v)
            && in_int4_opt (Pets.Insert.weight v))
  then (db, out_of_range)
  else if negb (has_next TPets (Pets.Insert.id v) db)
  then (db, sequence_exhausted TPets)
  else
    let '(i, db1) := serial TPets (Pets.Insert.id v) db in
    let r :=
      {| Pets.id := i;
         Pets.userId := Pets.Insert.userId v;
         Pets.name := Pets.Insert.name v;
         Pets.type := Pets.Insert.type v;
         Pets.breed := Pets.Insert.breed v;
         Pets.age := Pets.Insert.age v;
         Pets.weight := Pets.Insert.weight v;
         Pets.profileImageUrl := Pets.Insert.profileImageUrl v;
         Pets.createdAt := default now (Pets.Insert.createdAt v);
         Pets.updatedAt := default now (Pets.Insert.updatedAt v) |} in
    match check_all
      [ (bool_decide (i ∉ map Pets.id (pets db)), UniqueViolation "pets_pkey");
        (bool_decide (Pets.userId r ∈ user_ids db),
         ForeignKeyViolation "pets_user_id_users_id_fk") ]
    with
    | Some e => (db1, Err e)
    | None => (set_pets (pets db1 ++ [r]) db1, Ok r)
    end.

Definition insert_recipes (v : Recipes.Insert.t) (now : Z) (db : DB)
  : DB * Res Recipes.row :=
  if negb (in_int4_opt (Recipes.Insert.id v)
            && in_int4 (Recipes.Insert.userId v)
            && in_int4 (Recipes.Insert.prepTime v)
            && in_int4_opt (Recipes.Insert.cookCount v))
  then (db, out_of_range)
  else if negb (has_next TRecipes (Recipes.Insert.id v) db)
  then (db, sequence_exhausted TRecipes)
  else
    let '(i, db1) := serial TRecipes (Recipes.Insert.id v) db in
    let r :=
      {| Recipes.id := i;
         Recipes.userId := Recipes.Insert.userId v;
         Recipes.title := Recipes.Insert.title v;
         Recipes.ingredients := Recipes.Insert.ingredients v;
         Recipes.instructions := Recipes.Insert.instructions v;
         Recipes.petType := Recipes.Insert.petType v;
         Recipes.category := Recipes.Insert.category v;
         Recipes.cookingType := Recipes.Insert.cookingType v;
         Recipes.prepTime := Recipes.Insert.prepTime v;
         Recipes.imageUrl := Recipes.Insert.imageUrl v;
         Recipes.youtubeUrl := Recipes.Insert.youtubeUrl v;
         Recipes.cookCount := default 0 (Recipes.Insert.cookCount v);
         Recipes.createdAt := default now (Recipes.Insert.createdAt v);
         Recipes.updatedAt := default now (Recipes.Insert.updatedAt v) |} in
    match check_all
      [ (bool_decide (i ∉ recipe_ids db), UniqueViolation "recipes_pkey");
        (bool_decide (Recipes.userId r ∈ user_ids db),
         ForeignKeyViolation "recipes_user_id_users_id_fk") ]
    with
    | Some e => (db1, Err e)
    | None => (set_recipes (recipes db1 ++ [r]) db1, Ok r)
    end.

Definition insert_comments (v : Comments.Insert.t) (now : Z) (db : DB)
  : DB * Res Comments.row :=
  if negb (in_int4_opt (Comments.Insert.id v)
            && in_int4 (Comments.Insert.userId v)
            && in_int4 (Comments.Insert.recipeId v)
            && in_int4_opt (Comments.Insert.parentId v))
  then (db, out_of_range)
  else if negb (has_next TComments (Comments.Insert.id v) db)
  then (db, sequence_exhausted TComments)
  else
    let '(i, db1) := serial TComments (Comments.Insert.id v) db in
    let r :=
      {| Comments.id := i;
         Comments.userId := Comments.Insert.userId v;
         Comments.recipeId := Comments.Insert.recipeId v;
         Comments.parentId := Comments.Insert.parentId v;
         Comments.content := Comments.Insert.content v;
         Comments.createdAt := default now (Comments.Insert.createdAt v);
         Comments.updatedAt := default now (Comments.Insert.updatedAt v) |} in
    match check_all
      [ (bool_decide (i ∉ map Comments.id (comments db)),
         UniqueViolation "comments_pkey");
        (bool_decide (Comments.userId r ∈ user_ids db),
         ForeignKeyViolation "comments_user_id_users_id_fk");
        (bool_decide (Comments.recipeId r ∈ recipe_ids db),
         ForeignKeyViolation "comments_recipe_id_recipes_id_fk");
        (match Comments.parentId r with
         | Some p => bool_decide (p ∈ i :: map Comments.id (comments db))
         | None => true
         end,
         ForeignKeyViolation "comments_parent_id_comments_id_fk") ]
    with
    | Some e => (db1, Err e)
    | None => (set_comments (comments db1 ++ [r]) db1, Ok r)
    end.

Definition insert_favorites (v : Favorites.Insert.t) (now : Z) (db : DB)
  : DB * Res Favorites.row :=
  if negb (in_int4_opt (Favorites.Insert.id v)
            && in_int4 (Favorites.Insert.userId v)
            && in_int4 (Favorites.Insert.recipeId v))
  then (db, out_of_range)
  else if negb (has_next TFavorites (Favorites.Insert.id v) db)
  then (db, sequence_exhausted TFavorites)
  else
    let '(i, db1) := serial TFavorites (Favorites.Insert.id v) db in
    let r :=
      {| Favorites.id := i;
         Favorites.userId := Favorites.Insert.userId v;
         Favorites.recipeId := Favorites.Insert.recipeId v;
         Favorites.createdAt := default now (Favorites.Insert.createdAt v) |} in
    match check_all
      [ (bool_decide (i ∉ map Favorites.id (favorites db)),
         UniqueViolation "favorites_pkey");
        (bool_decide (Favorites.userId r ∈ user_ids db),
         ForeignKeyViolation "favorites_user_id_users_id_fk");
        (bool_decide (Favorites.recipeId r ∈ recipe_ids db),
         ForeignKeyViolation "favorites_recipe_id_recipes_id_fk") ]
    with
    | Some e => (db1, Err e)
    | None => (set_favorites (favorites db1 ++ [r]) db1, Ok r)
    end.

Definition insert_followers (v : Followers.Insert.t) (now : Z) (db : DB)
  : DB * Res Followers.row :=
  if negb (in_int4_opt (Followers.Insert.id v)
            && in_int4 (Followers.Insert.followerId v)
            && in_int4 (Followers.Insert.followingId v))
  then (db, out_of_range)
  else if negb (has_next TFollowers (Followers.Insert.id v) db)
  then (db, sequence_exhausted TFollowers)
  else
    let '(i, db1) := serial TFollowers (Followers.Insert.id v) db in
    let r :=
      {| Followers.id := i;
         Followers.followerId := Followers.Insert.followerId v;
         Followers.followingId := Followers.Insert.followingId v;
         Followers.createdAt := default now (Followers.Insert.createdAt v) |} in
    match check_all
      [ (bool_decide (i ∉ map Followers.id (followers db)),
         UniqueViolation "followers_pkey");
        (bool_decide (Followers.followerId r ∈ user_ids db),
         ForeignKeyViolation "followers_follower_id_users_id_fk");
        (bool_decide (Followers.followingId r ∈ user_ids db),
         ForeignKeyViolation "followers_following_id_users_id_fk") ]
    with
    | Some e => (db1, Err e)
    | None => (set_followers (followers db1 ++ [r]) db1, Ok r)
    end.

(** *** UPDATE ... SET

    [.set(p)] assigns the columns whose key [p] supplies and leaves the
    others. *)

Definition users_set (p : Users.Partial.t) (u : Users.row) : Users.row :=
  {| Users.id := default (Users.id u) (Users.Partial.id p);
     Users.username := default (Users.username u) (Users.Partial.username p);
     Users.email := default (Users.email u) (Users.Partial.email p);
     Users.password := default (Users.password u) (Users.Partial.password p);
     Users.firstName := default (Users.firstName u) (Users.Partial.firstName p);
     Users.lastName := default (Users.lastName u) (Users.Partial.lastName p);
     Users.state := default (Users.state u) (Users.Partial.state p);
     Users.city := default (Users.city u) (Users.Partial.city p);
     Users.profileImageUrl :=
       default (Users.profileImageUrl u) (Users.Partial.profileImageUrl p);
     Users.createdAt := default (Users.createdAt u) (Users.Partial.createdAt p);
     Users.updatedAt := default (Users.updatedAt u) (Users.Partial.updatedAt p) |}.

Definition pets_set (p : Pets.Partial.t) (r : Pets.row) : Pets.row :=
  {| Pets.id := default (Pets.id r) (Pets.Partial.id p);
     Pets.userId := default (Pets.userId r) (Pets.Partial.userId p);
     Pets.name := default (Pets.name r) (Pets.Partial.name p);
     Pets.type := default (Pets.type r) (Pets.Partial.type p);
     Pets.breed := default (Pets.breed r) (Pets.Partial.breed p);
     Pets.age := default (Pets.age r) (Pets.Partial.age p);
     Pets.weight := default (Pets.weight r) (Pets.Partial.weight p);
     Pets.profileImageUrl :=
       default (Pets.profileImageUrl r) (Pets.Partial.profileImageUrl p);
     Pets.createdAt := default (Pets.createdAt r) (Pets.Partial.createdAt p);
     Pets.updatedAt := default (Pets.updatedAt r) (Pets.Partial.updatedAt p) |}.

Definition recipes_set (p : Recipes.Partial.t) (r : Recipes.row) : Recipes.row :=
  {| Recipes.id := default (Recipes.id r) (Recipes.Partial.id p);
     Recipes.userId := default (Recipes.userId r) (Recipes.Partial.userId p);
     Recipes.title := default (Recipes.title r) (Recipes.Partial.title p);
     Recipes.ingredients :=
       default (Recipes.ingredients r) (Recipes.Partial.ingredients p);
     Recipes.instructions :=
       default (Recipes.instructions r) (Recipes.Partial.instructions p);
     Recipes.petType := default (Recipes.petType r) (Recipes.Partial.petType p);
     Recipes.category := default (Recipes.category r) (Recipes.Partial.category p);
     Recipes.cookingType :=
       default (Recipes.cookingType r) (Recipes.Partial.cookingType p);
     Recipes.prepTime := default (Recipes.prepTime r) (Recipes.Partial.prepTime p);
     Recipes.imageUrl := default (Recipes.imageUrl r) (Recipes.Partial.imageUrl p);
     Recipes.youtubeUrl :=
       default (Recipes.youtubeUrl r) (Recipes.Partial.youtubeUrl p);
     Recipes.cookCount :=
       default (Recipes.cookCount r) (Recipes.Partial.cookCount p);
     Recipes.createdAt :=
       default (Recipes.createdAt r) (Recipes.Partial.createdAt p);
     Recipes.updatedAt :=
       default (Recipes.updatedAt r) (Recipes.Partial.updatedAt p) |}.

(** A changed foreign key of an updated row must point to a row. *)
Definition fk_after {Row} (fk : Row -> Z) (targets : list Z)
    (c : Row -> bool) (set : Row -> Row) (t : list Row) : bool :=
  forallb
    (fun r => bool_decide (fk (set r) = fk r) || bool_decide (fk (set r) ∈ targets))
    (sql_where c t).

(** [UPDATE users SET ... WHERE c RETURNING *] *)
Definition update_users (c : Users.row -> bool) (p : Users.Partial.t) (db : DB)
  : DB * Res (list Users.row) :=
  let set := users_set p in
  let t := users db in
  let kept refs := referenced_after Users.id refs c set t in
  match check_all
    [ (in_int4_opt (Users.Partial.id p), NumericValueOutOfRange "integer");
      (unique_after Users.id c set t, UniqueViolation "users_pkey");
      (unique_after Users.username c set t,
       UniqueViolation "users_username_unique");
      (unique_after Users.email c set t, UniqueViolation "users_email_unique");
      (kept (map Pets.userId (pets db)),
       ForeignKeyViolation "pets_user_id_users_id_fk");
      (kept (map Recipes.userId (recipes db)),
       ForeignKeyViolation "recipes_user_id_users_id_fk");
      (kept (map Comments.userId (comments db)),
       ForeignKeyViolation "comments_user_id_users_id_fk");
      (kept (map Favorites.userId (favorites db)),
       ForeignKeyViolation "favorites_user_id_users_id_fk");
      (kept (map Followers.followerId (followers db)),
       ForeignKeyViolation "followers_follower_id_users_id_fk");
      (kept (map Followers.followingId (followers db)),
       ForeignKeyViolation "followers_following_id_users_id_fk") ]
  with
  | Some e => (db, Err e)
  | None => (set_users (sql_update c set t) db, Ok (map set (sql_where c t)))
  end.

(** [UPDATE pets SET ... WHERE c RETURNING *] *)
Definition update_pets (c : Pets.row -> bool) (p : Pets.Partial.t) (db : DB)
  : DB * Res (list Pets.row) :=
  let set := pets_set p in
  let t := pets db in
  match check_all
    [ (in_int4_opt (Pets.Partial.id p) && in_int4_opt (Pets.Partial.userId p)
       && in_int4_opt (mjoin (Pets.Partial.age p))
       && in_int4_opt (mjoin (Pets.Partial.weight p)),
       NumericValueOutOfRange "integer");
      (unique_after Pets.id c set t, UniqueViolation "pets_pkey");
      (fk_after Pets.userId (user_ids db) c set t,
       ForeignKeyViolation "pets_user_id_users_id_fk") ]
  with
  | Some e => (db, Err e)
  | None => (set_pets (sql_update c set t) db, Ok (map set (sql_where c t)))
  end.

(** [UPDATE recipes SET ... WHERE c RETURNING *] *)
Definition update_recipes (c : Recipes.row -> bool) (p : Recipes.Partial.t)
    (db : DB) : DB * Res (list Recipes.row) :=
  let set := recipes_set p in
  let t := recipes db in
  let kept refs := referenced_after Recipes.id refs c set t in
  match check_all
    [ (in_int4_opt (Recipes.Partial.id p) && in_int4_opt (Recipes.Partial.userId p)
       && in_int4_opt (Recipes.Partial.prepTime p)
       && in_int4_opt (Recipes.Partial.cookCount p),
       NumericValueOutOfRange "integer");
      (unique_after Recipes.id c set t, UniqueViolation "recipes_pkey");
      (fk_after Recipes.userId (user_ids db) c set t,
       ForeignKeyViolation "recipes_user_id_users_id_fk");
      (kept (map Comments.recipeId (comments db)),
       ForeignKeyViolation "comments_recipe_id_recipes_id_fk");
      (kept (map Favorites.recipeId (favorites db)),
       ForeignKeyViolation "favorites_recipe_id_recipes_id_fk") ]
  with
  | Some e => (db, Err e)
  | None =>
      (set_recipes (sql_update c set t) db, Ok (map set (sql_where c t)))
  end.

(** *** DELETE and [ON DELETE CASCADE] *)

Definition reply_to (dead : list Z) (c : Comments.row) : bool :=
  match Comments.parentId c with
  | Some p => bool_decide (p ∈ dead)
  | None => false
  end.

(** [comments.parentId] cascades: the replies to a deleted comment go, then
    the replies to those, until none is left.  Every round but the last
    removes a row, so [length cs] rounds are enough. *)
Fixpoint cascade_replies (fuel : nat) (dead : list Z) (cs : list Comments.row)
  : list Comments.row :=
  match fuel with
  | O => cs
  | S n =>
      match sql_where (reply_to dead) cs with
      | [] => cs
      | gone =>
          cascade_replies n (map Comments.id gone ++ dead)
            (sql_delete (reply_to dead) cs)
      end
  end.

Definition delete_comments (c : Comments.row -> bool) (db : DB) : DB :=
  let t := comments db in
  set_comments
    (cascade_replies (length t) (map Comments.id (sql_where c t)) (sql_delete c t))
    db.

Definition delete_pets (c : Pets.row -> bool) (db : DB) : DB :=
  set_pets (sql_delete c (pets db)) db.

(** Deleting recipes takes their comments and favorites along. *)
Definition delete_recipes (c : Recipes.row -> bool) (db : DB) : DB :=
  let gone := map Recipes.id (sql_where c (recipes db)) in
  let db1 := set_recipes (sql_delete c (recipes db)) db in
  let db2 := delete_comments (fun x => bool_decide (Comments.recipeId x ∈ gone)) db1 in
  set_favorites
    (sql_delete (fun f => bool_decide (Favorites.recipeId f ∈ gone)) (favorites db2))
    db2.

Definition delete_favorites (c : Favorites.row -> bool) (db : DB) : DB :=
  set_favorites (sql_delete c (favorites db)) db.

Definition delete_followers (c : Followers.row -> bool) (db : DB) : DB :=
  set_followers (sql_delete c (followers db)) db.

(** Deleting users takes along their pets, their recipes (with what hangs
    on those), their comments, their favorites and the follower rows on
    either side.  No operation of the storage class issues this statement;
    it is what the [references(() => users.id, { onDelete: "cascade" })]
    clauses of the schema make of a [DELETE FROM users]. *)
Definition delete_users (c : Users.row -> bool) (db : DB) : DB :=
  let gone := map Users.id (sql_where c (users db)) in
  let db1 := set_users (sql_delete c (users db)) db in
  let db2 := delete_pets (fun p => bool_decide (Pets.userId p ∈ gone)) db1 in
  let db3 := delete_recipes (fun r => bool_decide (Recipes.userId r ∈ gone)) db2 in
  let db4 := delete_comments (fun x => bool_decide (Comments.userId x ∈ gone)) db3 in
  let db5 := delete_favorites (fun f => bool_decide (Favorites.userId f ∈ gone)) db4 in
  delete_followers
    (fun f => bool_decide (Followers.followerId f ∈ gone)
              || bool_decide (Followers.followingId f ∈ gone))
    db5.

(** [FROM a INNER JOIN b ON on] *)
Definition inner_join {A B} (on : A -> B -> bool) (ta : list A) (tb : list B)
  : list (A * B) :=
  flat_map (fun a => map (pair a) (sql_where (on a) tb)) ta.

(** ** The storage class [DatabaseStorage]

    Every operation binds its numbers to [integer] columns, so each can be
    rejected; a rejected operation leaves the rows as they were. *)

(** The argument of [getRecipes]. *)
Module Options.
Record t := {
  petType : option string;
  category : option string;
  search : option string;
  page : option Z;
  limit : option Z }.
End Options.

Section Storage.
(** [bcrypt.hash(data, rounds)], as a function of the salt it draws. *)
Variable bcrypt_hash : string -> Z -> string -> string.

(** *** User operations *)

Definition getUser (db : DB) (id : Z) : Res (option JsObject) :=
  match
    Query.run (Query.where_ (eq_integer Users.id id) (Query.from (users db)))
  with
  | Ok rows =>
      match head rows with
      | Some user => Ok (Some (omit_password (Users.obj user)))
      | None => Ok None
      end
  | Err e => Err e
  end.

Definition getUserByUsername (db : DB) (username : string)
  : Res (option Users.row) :=
  head <$>
    Query.run
      (Query.where_ (Ok (sql_eq Users.username username))
         (Query.from (users db))).

Definition getUserByEmail (db : DB) (email : string) : Res (option Users.row) :=
  head <$>
    Query.run
      (Query.where_ (Ok (sql_eq Users.email email)) (Query.from (users db))).

(** [{ ...userData, password: hashedPassword }] *)
Definition with_password (userData : Users.Insert.t) (hashedPassword : string)
  : Users.Insert.t :=
  {| Users.Insert.id := Users.Insert.id userData;
     Users.Insert.username := Users.Insert.username userData;
     Users.Insert.email := Users.Insert.email userData;
     Users.Insert.password := hashedPassword;
     Users.Insert.firstName := Users.Insert.firstName userData;
     Users.Insert.lastName := Users.Insert.lastName userData;
     Users.Insert.state := Users.Insert.state userData;
     Users.Insert.city := Users.Insert.city userData;
     Users.Insert.profileImageUrl := Users.Insert.profileImageUrl userData;
     Users.Insert.createdAt := Users.Insert.createdAt userData;
     Users.Insert.updatedAt := Users.Insert.updatedAt userData |}.

Definition createUser (db : DB) (userData : Users.Insert.t) (salt : string)
    (now : Z) : DB * Res JsObject :=
  let hashedPassword := bcrypt_hash (Users.Insert.password userData) 10 salt in
  match insert_users (with_password userData hashedPassword) now db with
  | (db', Ok user) => (db', Ok (omit_password (Users.obj user)))
  | (db', Err e) => (db', Err e)
  end.

(** [userData.password = await bcrypt.hash(userData.password, 10)] when
    the password is supplied and not empty, then
    [{ ...userData, updatedAt: new Date() }]. *)
Definition updateUser_set (userData : Users.Partial.t) (salt : string) (now : Z)
  : Users.Partial.t :=
  {| Users.Partial.id := Users.Partial.id userData;
     Users.Partial.username := Users.Partial.username userData;
     Users.Partial.email := Users.Partial.email userData;
     Users.Partial.password :=
       match truthy_string (Users.Partial.password userData) with
       | Some plain => Some (bcrypt_hash plain 10 salt)
       | None => Users.Partial.password userData
       end;
     Users.Partial.firstName := Users.Partial.firstName userData;
     Users.Partial.lastName := Users.Partial.lastName userData;
     Users.Partial.state := Users.Partial.state userData;
     Users.Partial.city := Users.Partial.city userData;
     Users.Partial.profileImageUrl := Users.Partial.profileImageUrl userData;
     Users.Partial.createdAt := Users.Partial.createdAt userData;
     Users.Partial.updatedAt := Some now |}.

Definition updateUser (db : DB) (id : Z) (userData : Users.Partial.t)
    (salt : string) (now : Z) : DB * Res (option JsObject) :=
  match eq_integer Users.id id with
  | Err e => (db, Err e)
  | Ok c =>
      match update_users c (updateUser_set userData salt now) db with
      | (db', Ok returning) =>
          match head returning with
          | Some user => (db', Ok (Some (omit_password (Users.obj user))))
          | None => (db', Ok None)
          end
      | (db', Err e) => (db', Err e)
      end
  end.

(** *** Pet operations *)

Definition getPet (db : DB) (id : Z) : Res (option Pets.row) :=
  head <$>
    Query.run (Query.where_ (eq_integer Pets.id id) (Query.from (pets db))).

Definition getPetsByUser (db : DB) (userId : Z) : Res (list Pets.row) :=
  Query.run (Query.where_ (eq_integer Pets.userId userId) (Query.from (pets db))).

Definition createPet (db : DB) (petData : Pets.Insert.t) (now : Z)
  : DB * Res Pets.row :=
  insert_pets petData now db.

(** [{ ...petData, updatedAt: new Date() }] *)
Definition updatePet_set (petData : Pets.Partial.t) (now : Z) : Pets.Partial.t :=
  {| Pets.Partial.id := Pets.Partial.id petData;
     Pets.Partial.userId := Pets.Partial.userId petData;
     Pets.Partial.name := Pets.Partial.name petData;
     Pets.Partial.type := Pets.Partial.type petData;
     Pets.Partial.breed := Pets.Partial.breed petData;
     Pets.Partial.age := Pets.Partial.age petData;
     Pets.Partial.weight := Pets.Partial.weight petData;
     Pets.Partial.profileImageUrl := Pets.Partial.profileImageUrl petData;
     Pets.Partial.createdAt := Pets.Partial.createdAt petData;
     Pets.Partial.updatedAt := Some now |}.

Definition updatePet (db : DB) (id : Z) (petData : Pets.Partial.t) (now : Z)
  : DB * Res (option Pets.row) :=
  match eq_integer Pets.id id with
  | Err e => (db, Err e)
  | Ok c =>
      match update_pets c (updatePet_set petData now) db with
      | (db', Ok returning) => (db', Ok (head returning))
      | (db', Err e) => (db', Err e)
      end
  end.

Definition deletePet (db : DB) (id : Z) : DB * Res bool :=
  match eq_integer Pets.id id with
  | Err e => (db, Err e)
  | Ok c => (delete_pets c db, Ok true)
  end.

(** *** Recipe operations *)

Definition getRecipe (db : DB) (id : Z) : Res (option Recipes.row) :=
  head <$>
    Query.run
      (Query.where_ (eq_integer Recipes.id id) (Query.from (recipes db))).

(** [eq(recipes.petType, s)] and [eq(recipes.category, s)]: the
    parameter is text that the server reads as a label of the enum. *)
Definition eq_petType (s : string) : Res (Recipes.row -> bool) :=
  match petTypeEnum s with
  | Some t => Ok (sql_eq Recipes.petType t)
  | None => Err (InvalidTextRepresentation "pet_type")
  end.

Definition eq_category (s : string) : Res (Recipes.row -> bool) :=
  match categoryEnum s with
  | Some c => Ok (sql_eq Recipes.category c)
  | None => Err (InvalidTextRepresentation "category")
  end.

(** [or(like(recipes.title, `%${search}%`),
        like(recipes.ingredients, `%${search}%`))] *)
Definition like_search (search : string) : Res (Recipes.row -> bool) :=
  Ok (sql_or (sql_like_col Recipes.title ("%" +:+ search +:+ "%"))
             (sql_like_col Recipes.ingredients ("%" +:+ search +:+ "%"))).

Definition getRecipes (db : DB) (options : option Options.t)
  : Res (list Recipes.row) :=
  let limit := default 10 (truthy_number (options ≫= Options.limit)) in
  let offset :=
    match truthy_number (options ≫= Options.page) with
    | Some page => (page - 1) * limit
    | None => 0
    end in
  let query :=
    Query.offset offset
      (Query.limit limit
         (Query.orderBy_desc Recipes.createdAt (Query.from (recipes db)))) in
  let query :=
    match truthy_string (options ≫= Options.petType) with
    | Some petType => Query.where_ (eq_petType petType) query
    | None => query
    end in
  let query :=
    match truthy_string (options ≫= Options.category) with
    | Some category => Query.where_ (eq_category category) query
    | None => query
    end in
  let query :=
    match truthy_string (options ≫= Options.search) with
    | Some search => Query.where_ (like_search search) query
    | None => query
    end in
  Query.run query.

Definition getRecipesByUser (db : DB) (userId : Z) : Res (list Recipes.row) :=
  Query.run
    (Query.orderBy_desc Recipes.createdAt
       (Query.where_ (eq_integer Recipes.userId userId)
          (Query.from (recipes db)))).

Definition createRecipe (db : DB) (recipeData : Recipes.Insert.t) (now : Z)
  : DB * Res Recipes.row :=
  insert_recipes recipeData now db.

(** [{ ...recipeData, updatedAt: new Date() }] *)
Definition updateRecipe_set (recipeData : Recipes.Partial.t) (now : Z)
  : Recipes.Partial.t :=
  {| Recipes.Partial.id := Recipes.Partial.id recipeData;
     Recipes.Partial.userId := Recipes.Partial.userId recipeData;
     Recipes.Partial.title := Recipes.Partial.title recipeData;
     Recipes.Partial.ingredients := Recipes.Partial.ingredients recipeData;
     Recipes.Partial.instructions := Recipes.Partial.instructions recipeData;
     Recipes.Partial.petType := Recipes.Partial.petType recipeData;
     Recipes.Partial.category := Recipes.Partial.category recipeData;
     Recipes.Partial.cookingType := Recipes.Partial.cookingType recipeData;
     Recipes.Partial.prepTime := Recipes.Partial.prepTime recipeData;
     Recipes.Partial.imageUrl := Recipes.Partial.imageUrl recipeData;
     Recipes.Partial.youtubeUrl := Recipes.Partial.youtubeUrl recipeData;
     Recipes.Partial.cookCount := Recipes.Partial.cookCount recipeData;
     Recipes.Partial.createdAt := Recipes.Partial.createdAt recipeData;
     Recipes.Partial.updatedAt := Some now |}.

Definition updateRecipe (db : DB) (id : Z) (recipeData : Recipes.Partial.t)
    (now : Z) : DB * Res (option Recipes.row) :=
  match eq_integer Recipes.id id with
  | Err e => (db, Err e)
  | Ok c =>
      match update_recipes c (updateRecipe_set recipeData now) db with
      | (db', Ok returning) => (db', Ok (head returning))
      | (db', Err e) => (db', Err e)
      end
  end.

Definition deleteRecipe (db : DB) (id : Z) : DB * Res bool :=
  match eq_integer Recipes.id id with
  | Err e => (db, Err e)
  | Ok c => (delete_recipes c db, Ok true)
  end.

(** [{ cookCount: v, updatedAt: new Date() }] *)
Definition cookCount_set (v : Z) (now : Z) : Recipes.Partial.t :=
  {| Recipes.Partial.id := None;
     Recipes.Partial.userId := None;
     Recipes.Partial.title := None;
     Recipes.Partial.ingredients := None;
     Recipes.Partial.instructions := None;
     Recipes.Partial.petType := None;
     Recipes.Partial.category := None;
     Recipes.Partial.cookingType := None;
     Recipes.Partial.prepTime := None;
     Recipes.Partial.imageUrl := None;
     Recipes.Partial.youtubeUrl := None;
     Recipes.Partial.cookCount := Some v;
     Recipes.Partial.createdAt := None;
     Recipes.Partial.updatedAt := Some now |}.

(** [recipes] is the table descriptor of the schema and
    [recipes.cookCount] its column descriptor, an object; the argument of
    [set] is built in JavaScript before the statement exists, so
    [recipes.cookCount + 1] is the [+] of an object and a number.  Its
    value is bound as the parameter of the [cook_count] column, the first
    parameter of the statement. *)
Definition incrementCookCount (db : DB) (id : Z) (now : Z)
  : DB * Res (option Recipes.row) :=
  match integer_param (js_plus OpObject (OpNumber 1)) with
  | Err e => (db, Err e)
  | Ok v =>
      match eq_integer Recipes.id id with
      | Err e => (db, Err e)
      | Ok c =>
          match update_recipes c (cookCount_set v now) db with
          | (db', Ok returning) => (db', Ok (head returning))
          | (db', Err e) => (db', Err e)
          end
      end
  end.

(** *** Comment operations *)

Definition getComments (db : DB) (recipeId : Z) : Res (list Comments.row) :=
  Query.run
    (Query.orderBy_desc Comments.createdAt
       (Query.where_
          (and_ (eq_integer Comments.recipeId recipeId)
                (Ok (sql_isNull Comments.parentId)))
          (Query.from (comments db)))).

Definition getReplies (db : DB) (commentId : Z) : Res (list Comments.row) :=
  Query.run
    (Query.orderBy_desc Comments.createdAt
       (Query.where_ (eq_integer_nullable Comments.parentId commentId)
          (Query.from (comments db)))).

Definition createComment (db : DB) (commentData : Comments.Insert.t) (now : Z)
  : DB * Res Comments.row :=
  insert_comments commentData now db.

Definition deleteComment (db : DB) (id : Z) : DB * Res bool :=
  match eq_integer Comments.id id with
  | Err e => (db, Err e)
  | Ok c => (delete_comments c db, Ok true)
  end.

(** *** Favorite operations *)

Definition getFavorites (db : DB) (userId : Z) : Res (list Recipes.row) :=
  let favoriteRecipes :=
    Query.run
      (Query.orderBy_desc (fun item => Favorites.createdAt (fst item))
         (Query.where_
            (eq_integer (fun item => Favorites.userId (fst item)) userId)
            (Query.from
               (inner_join
                  (fun f r => bool_decide (Favorites.recipeId f = Recipes.id r))
                  (favorites db) (recipes db))))) in
  map snd <$> favoriteRecipes.

Definition isFavorite (db : DB) (userId recipeId : Z) : Res bool :=
  (fun rows => if head rows is Some _ then true else false) <$>
    Query.run
      (Query.where_
         (and_ (eq_integer Favorites.userId userId)
               (eq_integer Favorites.recipeId recipeId))
         (Query.from (favorites db))).

Definition addFavorite (db : DB) (favoriteData : Favorites.Insert.t) (now : Z)
  : DB * Res Favorites.row :=
  insert_favorites favoriteData now db.

Definition removeFavorite (db : DB) (userId recipeId : Z) : DB * Res bool :=
  match
    and_ (eq_integer Favorites.userId userId)
         (eq_integer Favorites.recipeId recipeId)
  with
  | Err e => (db, Err e)
  | Ok c => (delete_favorites c db, Ok true)
  end.

(** *** Follow operations *)

Definition getFollowers (db : DB) (userId : Z) : Res (list JsObject) :=
  let followerUsers :=
    Query.run
      (Query.where_
         (eq_integer (fun item => Followers.followingId (fst item)) userId)
         (Query.from
            (inner_join
               (fun f u => bool_decide (Followers.followerId f = Users.id u))
               (followers db) (users db)))) in
  map (fun item => omit_password (Users.obj (snd item))) <$> followerUsers.

Definition getFollowing (db : DB) (userId : Z) : Res (list JsObject) :=
  let followingUsers :=
    Query.run
      (Query.where_
         (eq_integer (fun item => Followers.followerId (fst item)) userId)
         (Query.from
            (inner_join
               (fun f u => bool_decide (Followers.followingId f = Users.id u))
               (followers db) (users db)))) in
  map (fun item => omit_password (Users.obj (snd item))) <$> followingUsers.

Definition isFollowing (db : DB) (followerId followingId : Z) : Res bool :=
  (fun rows => if head rows is Some _ then true else false) <$>
    Query.run
      (Query.where_
         (and_ (eq_integer Followers.followerId followerId)
               (eq_integer Followers.followingId followingId))
         (Query.from (followers db))).

Definition follow (db : DB) (followerData : Followers.Insert.t) (now : Z)
  : DB * Res Followers.row :=
  insert_followers followerData now db.

Definition unfollow (db : DB) (followerId followingId : Z) : DB * Res bool :=
  match
    and_ (eq_integer Followers.followerId followerId)
         (eq_integer Followers.followingId followingId)
  with
  | Err e => (db, Err e)
  | Ok c => (delete_followers c db, Ok true)
  end.
End Storage.

Arguments getUser : simpl never.
Arguments getUserByUsername : simpl never.
Arguments getUserByEmail : simpl never.
Arguments updateUser : simpl never.
Arguments getPet : simpl never.
Arguments getPetsByUser : simpl never.
Arguments updatePet : simpl never.
Arguments deletePet : simpl never.
Arguments getRecipe : simpl never.
Arguments getRecipesByUser : simpl never.
Arguments updateRecipe : simpl never.
Arguments deleteRecipe : simpl never.
Arguments getComments : simpl never.
Arguments getReplies : simpl never.
Arguments deleteComment : simpl never.
Arguments getFavorites : simpl never.
Arguments isFavorite : simpl never.
Arguments removeFavorite : simpl never.
Arguments getFollowers : simpl never.
Arguments getFollowing : simpl never.
Arguments isFollowing : simpl never.
Arguments unfollow : simpl never.
(** ** The request handlers of [registerRoutes]

    A handler is an [async] function: a sequence of awaited calls, each of
    which runs one statement, with a [try]/[catch] around it.  [Prog] keeps
    that structure, so that the same handler can be run to completion or
    suspended at an [await] while another request proceeds. *)

(** What a handler awaits: the operations of [storage], the one
    [db.select()] a handler issues itself, and [bcrypt.compare]. *)
Inductive Call : Type -> Type :=
| GetUser (id : Z) : Call (option JsObject)
| GetUserByUsername (username : string) : Call (option Users.row)
| GetUserByEmail (email : string) : Call (option Users.row)
| CreateUser (userData : Users.Insert.t) : Call JsObject
| UpdateUser (id : Z) (userData : Users.Partial.t) : Call (option JsObject)
| GetPet (id : Z) : Call (option Pets.row)
| GetPetsByUser (userId : Z) : Call (list Pets.row)
| CreatePet (petData : Pets.Insert.t) : Call Pets.row
| UpdatePet (id : Z) (petData : Pets.Partial.t) : Call (option Pets.row)
| DeletePet (id : Z) : Call bool
| GetRecipe (id : Z) : Call (option Recipes.row)
| GetRecipes (options : option Options.t) : Call (list Recipes.row)
| GetRecipesByUser (userId : Z) : Call (list Recipes.row)
| CreateRecipe (recipeData : Recipes.Insert.t) : Call Recipes.row
| UpdateRecipe (id : Z) (recipeData : Recipes.Partial.t) : Call (option Recipes.row)
| DeleteRecipe (id : Z) : Call bool
| IncrementCookCount (id : Z) : Call (option Recipes.row)
| GetComments (recipeId : Z) : Call (list Comments.row)
| GetReplies (commentId : Z) : Call (list Comments.row)
| CreateComment (commentData : Comments.Insert.t) : Call Comments.row
| DeleteComment (id : Z) : Call bool
| SelectComment (id : Z) : Call (option Comments.row)
| GetFavorites (userId : Z) : Call (list Recipes.row)
| IsFavorite (userId recipeId : Z) : Call bool
| AddFavorite (favoriteData : Favorites.Insert.t) : Call Favorites.row
| RemoveFavorite (userId recipeId : Z) : Call bool
| GetFollowers (userId : Z) : Call (list JsObject)
| GetFollowing (userId : Z) : Call (list JsObject)
| IsFollowing (followerId followingId : Z) : Call bool
| Follow (followerData : Followers.Insert.t) : Call Followers.row
| Unfollow (followerId followingId : Z) : Call bool
| BcryptCompare (data encrypted : string) : Call bool.

(** What a call reads from outside the database: the clock and the salt. *)
Record Env := { now : Z; salt : string }.

Inductive Prog (R : Type) : Type :=
| Return (r : R)
| Throw
| Await {A : Type} (c : Call A) (k : A -> Prog R).
Arguments Return {R} r.
Arguments Throw {R}.
Arguments Await {R A} c k.

(** The body of a response. *)
Inductive Json :=
| JMessage (message : string)
| JFlag (key : string) (value : bool)
| JUser (user : option JsObject)
| JUsers (list_ : list JsObject)
| JPet (pet : option Pets.row)
| JPets (list_ : list Pets.row)
| JRecipe (recipe : option Recipes.row)
| JRecipes (list_ : list Recipes.row)
| JComment (comment : Comments.row)
| JComments (list_ : list Comments.row)
| JFavorite (favorite : Favorites.row)
| JFollower (follower : Followers.row).

Record Response := { status : Z; payload : Json }.

Definition message (code : Z) (text : string) : Response :=
  {| status := code; payload := JMessage text |}.

Section Routes.
(** [bcrypt.hash] as above, and [bcrypt.compare(data, encrypted)]. *)
Variable bcrypt_hash : string -> Z -> string -> string.
Variable bcrypt_compare : string -> string -> bool.

Definition lift {A} (db : DB) (a : A) : DB * Res A := (db, Ok a).

(** One awaited call on the database. *)
Definition perform (env : Env) {A} (c : Call A) (db : DB) : DB * Res A :=
  match c in Call A return DB * Res A with
  | GetUser id => (db, getUser db id)
  | GetUserByUsername username => (db, getUserByUsername db username)
  | GetUserByEmail email => (db, getUserByEmail db email)
  | CreateUser userData => createUser bcrypt_hash db userData (salt env) (now env)
  | UpdateUser id userData =>
      updateUser bcrypt_hash db id userData (salt env) (now env)
  | GetPet id => (db, getPet db id)
  | GetPetsByUser userId => (db, getPetsByUser db userId)
  | CreatePet petData => createPet db petData (now env)
  | UpdatePet id petData => updatePet db id petData (now env)
  | DeletePet id => deletePet db id
  | GetRecipe id => (db, getRecipe db id)
  | GetRecipes options => (db, getRecipes db options)
  | GetRecipesByUser userId => (db, getRecipesByUser db userId)
  | CreateRecipe recipeData => createRecipe db recipeData (now env)
  | UpdateRecipe id recipeData => updateRecipe db id recipeData (now env)
  | DeleteRecipe id => deleteRecipe db id
  | IncrementCookCount id => incrementCookCount db id (now env)
  | GetComments recipeId => (db, getComments db recipeId)
  | GetReplies commentId => (db, getReplies db commentId)
  | CreateComment commentData => createComment db commentData (now env)
  | DeleteComment id => deleteComment db id
  | SelectComment id =>
      (db,
       head <$>
         Query.run
           (Query.where_ (eq_integer Comments.id id) (Query.from (comments db))))
  | GetFavorites userId => (db, getFavorites db userId)
  | IsFavorite userId recipeId => (db, isFavorite db userId recipeId)
  | AddFavorite favoriteData => addFavorite db favoriteData (now env)
  | RemoveFavorite userId recipeId => removeFavorite db userId recipeId
  | GetFollowers userId => (db, getFollowers db userId)
  | GetFollowing userId => (db, getFollowing db userId)
  | IsFollowing followerId followingId =>
      (db, isFollowing db followerId followingId)
  | Follow followerData => follow db followerData (now env)
  | Unfollow followerId followingId =>
      unfollow db followerId followingId
  | BcryptCompare data encrypted => lift db (bcrypt_compare data encrypted)
  end.

(** A handler run from its first statement to its response: a call that
    throws, or a [throw] of the handler's own, ends in the [catch]. *)
Fixpoint run {R} (env : Env) (p : Prog R) (catch : R) (db : DB) : DB * R :=
  match p with
  | Return r => (db, r)
  | Throw => (db, catch)
  | Await c k =>
      match perform env c db with
      | (db', Ok a) => run env (k a) catch db'
      | (db', Err _) => (db', catch)
      end
  end.
End Routes.

Notation "'await' x <- c ; k" := (Await c (fun x => k))
  (at level 10, x name, c at level 100, k at level 200,
   format "'[v' 'await'  x  <-  c ; '/' k ']'").

(** *** The insert schemas of [shared/schema.ts]

    [createInsertSchema(table).omit({...})]: parsing drops the omitted
    keys.  A body the schema refuses is [None] in a request below. *)

Definition insertUserSchema (v : Users.Insert.t) : Users.Insert.t :=
  {| Users.Insert.id := None;
     Users.Insert.username := Users.Insert.username v;
     Users.Insert.email := Users.Insert.email v;
     Users.Insert.password := Users.Insert.password v;
     Users.Insert.firstName := Users.Insert.firstName v;
     Users.Insert.lastName := Users.Insert.lastName v;
     Users.Insert.state := Users.Insert.state v;
     Users.Insert.city := Users.Insert.city v;
     Users.Insert.profileImageUrl := Users.Insert.profileImageUrl v;
     Users.Insert.createdAt := None;
     Users.Insert.updatedAt := None |}.

(** [insertPetSchema.parse({ ...req.body, userId, profileImageUrl })] *)
Definition insertPetSchema (v : Pets.Insert.t) (userId : Z)
    (profileImageUrl : option string) : Pets.Insert.t :=
  {| Pets.Insert.id := None;
     Pets.Insert.userId := userId;
     Pets.Insert.name := Pets.Insert.name v;
     Pets.Insert.type := Pets.Insert.type v;
     Pets.Insert.breed := Pets.Insert.breed v;
     Pets.Insert.age := Pets.Insert.age v;
     Pets.Insert.weight := Pets.Insert.weight v;
     Pets.Insert.profileImageUrl := profileImageUrl;
     Pets.Insert.createdAt := None;
     Pets.Insert.updatedAt := None |}.

(** [insertRecipeSchema.parse({ ...req.body, prepTime, userId, imageUrl })] *)
Definition insertRecipeSchema (v : Recipes.Insert.t) (prepTime userId : Z)
    (imageUrl : option string) : Recipes.Insert.t :=
  {| Recipes.Insert.id := None;
     Recipes.Insert.userId := userId;
     Recipes.Insert.title := Recipes.Insert.title v;
     Recipes.Insert.ingredients := Recipes.Insert.ingredients v;
     Recipes.Insert.instructions := Recipes.Insert.instructions v;
     Recipes.Insert.petType := Recipes.Insert.petType v;
     Recipes.Insert.category := Recipes.Insert.category v;
     Recipes.Insert.cookingType := Recipes.Insert.cookingType v;
     Recipes.Insert.prepTime := prepTime;
     Recipes.Insert.imageUrl := imageUrl;
     Recipes.Insert.youtubeUrl := Recipes.Insert.youtubeUrl v;
     Recipes.Insert.cookCount := None;
     Recipes.Insert.createdAt := None;
     Recipes.Insert.updatedAt := None |}.

(** [insertCommentSchema.parse({ ...req.body, userId, recipeId })] *)
Definition insertCommentSchema (v : Comments.Insert.t) (userId recipeId : Z)
  : Comments.Insert.t :=
  {| Comments.Insert.id := None;
     Comments.Insert.userId := userId;
     Comments.Insert.recipeId := recipeId;
     Comments.Insert.parentId := Comments.Insert.parentId v;
     Comments.Insert.content := Comments.Insert.content v;
     Comments.Insert.createdAt := None;
     Comments.Insert.updatedAt := None |}.

(** [insertFavoriteSchema.parse({ userId, recipeId })] *)
Definition insertFavoriteSchema (userId recipeId : Z) : Favorites.Insert.t :=
  {| Favorites.Insert.id := None;
     Favorites.Insert.userId := userId;
     Favorites.Insert.recipeId := recipeId;
     Favorites.Insert.createdAt := None |}.

(** [insertFollowerSchema.parse({ followerId, followingId })] *)
Definition insertFollowerSchema (followerId followingId : Z) : Followers.Insert.t :=
  {| Followers.Insert.id := None;
     Followers.Insert.followerId := followerId;
     Followers.Insert.followingId := followingId;
     Followers.Insert.createdAt := None |}.

(** [`/uploads/${req.file.filename}`] *)
Definition upload_url (filename : string) : string := "/uploads/" +:+ filename.

(** [if (req.file) updateData.profileImageUrl = ...] *)
Definition pet_updateData (body : Pets.Partial.t) (file : option string)
  : Pets.Partial.t :=
  match file with
  | None => body
  | Some filename =>
      {| Pets.Partial.id := Pets.Partial.id body;
         Pets.Partial.userId := Pets.Partial.userId body;
         Pets.Partial.name := Pets.Partial.name body;
         Pets.Partial.type := Pets.Partial.type body;
         Pets.Partial.breed := Pets.Partial.breed body;
         Pets.Partial.age := Pets.Partial.age body;
         Pets.Partial.weight := Pets.Partial.weight body;
         Pets.Partial.profileImageUrl := Some (Some (upload_url filename));
         Pets.Partial.createdAt := Pets.Partial.createdAt body;
         Pets.Partial.updatedAt := Pets.Partial.updatedAt body |}
  end.

Definition recipe_updateData (body : Recipes.Partial.t) (file : option string)
  : Recipes.Partial.t :=
  match file with
  | None => body
  | Some filename =>
      {| Recipes.Partial.id := Recipes.Partial.id body;
         Recipes.Partial.userId := Recipes.Partial.userId body;
         Recipes.Partial.title := Recipes.Partial.title body;
         Recipes.Partial.ingredients := Recipes.Partial.ingredients body;
         Recipes.Partial.instructions := Recipes.Partial.instructions body;
         Recipes.Partial.petType := Recipes.Partial.petType body;
         Recipes.Partial.category := Recipes.Partial.category body;
         Recipes.Partial.cookingType := Recipes.Partial.cookingType body;
         Recipes.Partial.prepTime := Recipes.Partial.prepTime body;
         Recipes.Partial.imageUrl := Some (Some (upload_url filename));
         Recipes.Partial.youtubeUrl := Recipes.Partial.youtubeUrl body;
         Recipes.Partial.cookCount := Recipes.Partial.cookCount body;
         Recipes.Partial.createdAt := Recipes.Partial.createdAt body;
         Recipes.Partial.updatedAt := Recipes.Partial.updatedAt body |}
  end.

Definition user_updateData (body : Users.Partial.t) (file : option string)
  : Users.Partial.t :=
  match file with
  | None => body
  | Some filename =>
      {| Users.Partial.id := Users.Partial.id body;
         Users.Partial.username := Users.Partial.username body;
         Users.Partial.email := Users.Partial.email body;
         Users.Partial.password := Users.Partial.password body;
         Users.Partial.firstName := Users.Partial.firstName body;
         Users.Partial.lastName := Users.Partial.lastName body;
         Users.Partial.state := Users.Partial.state body;
         Users.Partial.city := Users.Partial.city body;
         Users.Partial.profileImageUrl := Some (Some (upload_url filename));
         Users.Partial.createdAt := Users.Partial.createdAt body;
         Users.Partial.updatedAt := Users.Partial.updatedAt body |}
  end.

(** [req.body.prepTime] of a recipe to create, which the handler reads
    with [parseInt]: the number of a JSON body, or the text of a form
    field, given by what [parseInt] reads in it ([None] is [NaN], which is
    also what it reads in an empty text). *)
Inductive Field :=
| FieldNumber (n : Z)
| FieldText (parsed : option Z).

(** [req.body.prepTime ? parseInt(req.body.prepTime) : undefined]: the
    number 0 is falsy, a text is falsy when it is empty.  [parseInt] turns
    a number into its decimal text and reads it back.  The result is
    [None] when it is [undefined] or [NaN], which the schema refuses. *)
Definition formData_prepTime (prepTime : Field) : option Z :=
  match prepTime with
  | FieldNumber n => truthy_number (Some n)
  | FieldText parsed => parsed
  end.

(** *** Requests

    A request names its route and carries what the handler reads from it:
    the user id of the session (a handler sets it to the id of a row of
    [users]), the path parameter after [parseInt] ([None] is [NaN]), the
    body ([None] is a body that the schema, or for an update the database,
    refuses) and the name of the uploaded file. *)
Inductive Route :=
| PostAuthRegister (body : option Users.Insert.t)
| PostAuthLogin (username password : option string)
| PostAuthLogout
| GetAuthMe
| GetPets
| GetPetById (id : option Z)
| PostPets (body : option Pets.Insert.t) (file : option string)
| PutPet (id : option Z) (body : option Pets.Partial.t) (file : option string)
| DeletePetById (id : option Z)
| GetRecipesList (petType category search : option string) (page limit : option Z)
| GetRecipeById (id : option Z)
| GetUserRecipes (userId : option Z)
| PostRecipes (body : option Recipes.Insert.t) (prepTime : Field)
    (file : option string)
| PutRecipe (id : option Z) (body : option Recipes.Partial.t) (file : option string)
| DeleteRecipeById (id : option Z)
| PostRecipeCook (id : option Z)
| GetRecipeComments (recipeId : option Z)
| GetCommentReplies (commentId : option Z)
| PostRecipeComments (recipeId : option Z) (body : option Comments.Insert.t)
| DeleteCommentById (id : option Z)
| GetUserFavorites (userId : option Z)
| GetRecipeFavorite (recipeId : option Z)
| PostRecipeFavorite (recipeId : option Z)
| DeleteRecipeFavorite (recipeId : option Z)
| GetUserFollowers (userId : option Z)
| GetUserFollowing (userId : option Z)
| GetUserFollow (userId : option Z)
| PostUserFollow (userId : option Z)
| DeleteUserFollow (userId : option Z)
| PutUsersProfile (body : option Users.Partial.t) (file : option string).

Record Request := { session : option Z; route : Route }.

(** A [NaN] bound to an [integer] column makes the statement throw; every
    handler passes its path parameter to the first call it awaits. *)
Definition parseInt {R} (param : option Z) (k : Z -> Prog R) : Prog R :=
  match param with
  | Some n => k n
  | None => Throw
  end.

(** A body that fails to parse throws. *)
Definition parse {A R} (body : option A) (k : A -> Prog R) : Prog R :=
  match body with
  | Some v => k v
  | None => Throw
  end.

(** The [authenticate] middleware.  [req.user] is the result of
    [storage.getUser(userId)], so [req.user.id] is [userId]. *)
Definition authenticate (session : option Z) (next : Z -> JsObject -> Prog Response)
  : Prog Response :=
  match truthy_number session with
  | None => Return (message 401 "Unauthorized")
  | Some userId =>
      await user <- GetUser userId;
      match user with
      | None => Return (message 401 "User not found")
      | Some user => next userId user
      end
  end.

(** *** The handlers, one per route *)

Definition json (code : Z) (body : Json) : Response :=
  {| status := code; payload := body |}.

Definition post_auth_register (body : option Users.Insert.t) : Prog Response :=
  parse body (fun raw =>
  let userData := insertUserSchema raw in
  await existingUser <- GetUserByEmail (Users.Insert.email userData);
  match existingUser with
  | Some _ => Return (message 400 "Email already registered")
  | None =>
      await existingUsername <- GetUserByUsername (Users.Insert.username userData);
      match existingUsername with
      | Some _ => Return (message 400 "Username already taken")
      | None =>
          await user <- CreateUser userData;
          Return (json 201 (JUser (Some user)))
      end
  end).

Definition post_auth_login (username password : option string) : Prog Response :=
  match truthy_string username, truthy_string password with
  | Some username, Some password =>
      await user <- GetUserByUsername username;
      match user with
      | None => Return (message 401 "Invalid credentials")
      | Some user =>
          await passwordMatch <- BcryptCompare password (Users.password user);
          if passwordMatch : bool
          then Return (json 200 (JUser (Some (omit_password (Users.obj user)))))
          else Return (message 401 "Invalid credentials")
      end
  | _, _ => Return (message 400 "Username and password required")
  end.

Definition post_auth_logout : Prog Response :=
  Return (message 200 "Logged out successfully").

Definition get_auth_me (session : option Z) : Prog Response :=
  authenticate session (fun _ user => Return (json 200 (JUser (Some user)))).

Definition get_pets (session : option Z) : Prog Response :=
  authenticate session (fun userId _ =>
  await pets <- GetPetsByUser userId;
  Return (json 200 (JPets pets))).

Definition get_pet (id : option Z) : Prog Response :=
  parseInt id (fun id =>
  await pet <- GetPet id;
  match pet with
  | None => Return (message 404 "Pet not found")
  | Some pet => Return (json 200 (JPet (Some pet)))
  end).

Definition post_pets (session : option Z) (body : option Pets.Insert.t)
    (file : option string) : Prog Response :=
  authenticate session (fun userId _ =>
  parse body (fun raw =>
  let petData := insertPetSchema raw userId (upload_url <$> file) in
  await pet <- CreatePet petData;
  Return (json 201 (JPet (Some pet))))).

Definition put_pet (session : option Z) (id : option Z)
    (body : option Pets.Partial.t) (file : option string) : Prog Response :=
  authenticate session (fun userId _ =>
  parseInt id (fun petId =>
  await pet <- GetPet petId;
  match pet with
  | None => Return (message 404 "Pet not found")
  | Some pet =>
      if decide (Pets.userId pet = userId) then
        parse body (fun raw =>
        await updatedPet <- UpdatePet petId (pet_updateData raw file);
        Return (json 200 (JPet updatedPet)))
      else Return (message 403 "Not authorized")
  end)).

Definition delete_pet (session : option Z) (id : option Z) : Prog Response :=
  authenticate session (fun userId _ =>
  parseInt id (fun petId =>
  await pet <- GetPet petId;
  match pet with
  | None => Return (message 404 "Pet not found")
  | Some pet =>
      if decide (Pets.userId pet = userId) then
        await _ <- DeletePet petId;
        Return (message 200 "Pet deleted successfully")
      else Return (message 403 "Not authorized")
  end)).

Definition get_recipes (petType category search : option string)
    (page limit : option Z) : Prog Response :=
  await recipes <-
    GetRecipes (Some {| Options.petType := petType;
                        Options.category := category;
                        Options.search := search;
                        Options.page := page;
                        Options.limit := limit |});
  Return (json 200 (JRecipes recipes)).

Definition get_recipe (id : option Z) : Prog Response :=
  parseInt id (fun id =>
  await recipe <- GetRecipe id;
  match recipe with
  | None => Return (message 404 "Recipe not found")
  | Some recipe => Return (json 200 (JRecipe (Some recipe)))
  end).

Definition get_user_recipes (userId : option Z) : Prog Response :=
  parseInt userId (fun userId =>
  await recipes <- GetRecipesByUser userId;
  Return (json 200 (JRecipes recipes))).

Definition post_recipes (session : option Z) (body : option Recipes.Insert.t)
    (prepTime : Field) (file : option string) : Prog Response :=
  authenticate session (fun userId _ =>
  parse body (fun raw =>
  parse (formData_prepTime prepTime) (fun prepTime =>
  let recipeData := insertRecipeSchema raw prepTime userId (upload_url <$> file) in
  await recipe <- CreateRecipe recipeData;
  Return (json 201 (JRecipe (Some recipe)))))).

Definition put_recipe (session : option Z) (id : option Z)
    (body : option Recipes.Partial.t) (file : option string) : Prog Response :=
  authenticate session (fun userId _ =>
  parseInt id (fun recipeId =>
  await recipe <- GetRecipe recipeId;
  match recipe with
  | None => Return (message 404 "Recipe not found")
  | Some recipe =>
      if decide (Recipes.userId recipe = userId) then
        parse body (fun raw =>
        await updatedRecipe <- UpdateRecipe recipeId (recipe_updateData raw file);
        Return (json 200 (JRecipe updatedRecipe)))
      else Return (message 403 "Not authorized")
  end)).

Definition delete_recipe (session : option Z) (id : option Z) : Prog Response :=
  authenticate session (fun userId _ =>
  parseInt id (fun recipeId =>
  await recipe <- GetRecipe recipeId;
  match recipe with
  | None => Return (message 404 "Recipe not found")
  | Some recipe =>
      if decide (Recipes.userId recipe = userId) then
        await _ <- DeleteRecipe recipeId;
        Return (message 200 "Recipe deleted successfully")
      else Return (message 403 "Not authorized")
  end)).

Definition post_recipe_cook (session : option Z) (id : option Z) : Prog Response :=
  authenticate session (fun _ _ =>
  parseInt id (fun recipeId =>
  await recipe <- GetRecipe recipeId;
  match recipe with
  | None => Return (message 404 "Recipe not found")
  | Some _ =>
      await updatedRecipe <- IncrementCookCount recipeId;
      Return (json 200 (JRecipe updatedRecipe))
  end)).

Definition get_recipe_comments (recipeId : option Z) : Prog Response :=
  parseInt recipeId (fun recipeId =>
  await comments <- GetComments recipeId;
  Return (json 200 (JComments comments))).

Definition get_comment_replies (commentId : option Z) : Prog Response :=
  parseInt commentId (fun commentId =>
  await replies <- GetReplies commentId;
  Return (json 200 (JComments replies))).

Definition post_recipe_comments (session : option Z) (recipeId : option Z)
    (body : option Comments.Insert.t) : Prog Response :=
  authenticate session (fun userId _ =>
  parseInt recipeId (fun recipeId =>
  await recipe <- GetRecipe recipeId;
  match recipe with
  | None => Return (message 404 "Recipe not found")
  | Some _ =>
      parse body (fun raw =>
      let commentData := insertCommentSchema raw userId recipeId in
      await comment <- CreateComment commentData;
      Return (json 201 (JComment comment)))
  end)).

Definition delete_comment (session : option Z) (id : option Z) : Prog Response :=
  authenticate session (fun userId _ =>
  parseInt id (fun commentId =>
  await comment <- SelectComment commentId;
  match comment with
  | None => Return (message 404 "Comment not found")
  | Some comment =>
      if decide (Comments.userId comment = userId) then
        await _ <- DeleteComment commentId;
        Return (message 200 "Comment deleted successfully")
      else Return (message 403 "Not authorized")
  end)).

Definition get_user_favorites (userId : option Z) : Prog Response :=
  parseInt userId (fun userId =>
  await favorites <- GetFavorites userId;
  Return (json 200 (JRecipes favorites))).

Definition get_recipe_favorite (session : option Z) (recipeId : option Z)
  : Prog Response :=
  authenticate session (fun userId _ =>
  parseInt recipeId (fun recipeId =>
  await isFavorite <- IsFavorite userId recipeId;
  Return (json 200 (JFlag "isFavorite" isFavorite)))).

Definition post_recipe_favorite (session : option Z) (recipeId : option Z)
  : Prog Response :=
  authenticate session (fun userId _ =>
  parseInt recipeId (fun recipeId =>
  await recipe <- GetRecipe recipeId;
  match recipe with
  | None => Return (message 404 "Recipe not found")
  | Some _ =>
      await isFavorite <- IsFavorite userId recipeId;
      if isFavorite : bool then Return (message 400 "Recipe already favorited")
      else
        let favoriteData := insertFavoriteSchema userId recipeId in
        await favorite <- AddFavorite favoriteData;
        Return (json 201 (JFavorite favorite))
  end)).

Definition delete_recipe_favorite (session : option Z) (recipeId : option Z)
  : Prog Response :=
  authenticate session (fun userId _ =>
  parseInt recipeId (fun recipeId =>
  await isFavorite <- IsFavorite userId recipeId;
  if isFavorite : bool then
    await _ <- RemoveFavorite userId recipeId;
    Return (message 200 "Favorite removed successfully")
  else Return (message 404 "Favorite not found"))).

Definition get_user_followers (userId : option Z) : Prog Response :=
  parseInt userId (fun userId =>
  await followers <- GetFollowers userId;
  Return (json 200 (JUsers followers))).

Definition get_user_following (userId : option Z) : Prog Response :=
  parseInt userId (fun userId =>
  await following <- GetFollowing userId;
  Return (json 200 (JUsers following))).

Definition get_user_follow (session : option Z) (userId : option Z)
  : Prog Response :=
  authenticate session (fun me _ =>
  parseInt userId (fun userId =>
  await isFollowing <- IsFollowing me userId;
  Return (json 200 (JFlag "isFollowing" isFollowing)))).

Definition post_user_follow (session : option Z) (userId : option Z)
  : Prog Response :=
  authenticate session (fun me _ =>
  parseInt userId (fun followingId =>
  await user <- GetUser followingId;
  match user with
  | None => Return (message 404 "User not found")
  | Some _ =>
      if decide (followingId = me)
      then Return (message 400 "Cannot follow yourself")
      else
        await isFollowing <- IsFollowing me followingId;
        if isFollowing : bool
        then Return (message 400 "Already following this user")
        else
          let followerData := insertFollowerSchema me followingId in
          await follow <- Follow followerData;
          Return (json 201 (JFollower follow))
  end)).

Definition delete_user_follow (session : option Z) (userId : option Z)
  : Prog Response :=
  authenticate session (fun me _ =>
  parseInt userId (fun followingId =>
  await isFollowing <- IsFollowing me followingId;
  if isFollowing : bool then
    await _ <- Unfollow me followingId;
    Return (message 200 "Unfollowed successfully")
  else Return (message 404 "Not following this user"))).

Definition put_users_profile (session : option Z) (body : option Users.Partial.t)
    (file : option string) : Prog Response :=
  authenticate session (fun userId _ =>
  parse body (fun raw =>
  await updatedUser <- UpdateUser userId (user_updateData raw file);
  Return (json 200 (JUser updatedUser)))).

(** The handler of a request and the response of its [catch] block. *)
Definition handler (req : Request) : Prog Response :=
  let s := session req in
  match route req with
  | PostAuthRegister body => post_auth_register body
  | PostAuthLogin username password => post_auth_login username password
  | PostAuthLogout => post_auth_logout
  | GetAuthMe => get_auth_me s
  | GetPets => get_pets s
  | GetPetById id => get_pet id
  | PostPets body file => post_pets s body file
  | PutPet id body file => put_pet s id body file
  | DeletePetById id => delete_pet s id
  | GetRecipesList petType category search page limit =>
      get_recipes petType category search page limit
  | GetRecipeById id => get_recipe id
  | GetUserRecipes userId => get_user_recipes userId
  | PostRecipes body prepTime file => post_recipes s body prepTime file
  | PutRecipe id body file => put_recipe s id body file
  | DeleteRecipeById id => delete_recipe s id
  | PostRecipeCook id => post_recipe_cook s id
  | GetRecipeComments recipeId => get_recipe_comments recipeId
  | GetCommentReplies commentId => get_comment_replies commentId
  | PostRecipeComments recipeId body => post_recipe_comments s recipeId body
  | DeleteCommentById id => delete_comment s id
  | GetUserFavorites userId => get_user_favorites userId
  | GetRecipeFavorite recipeId => get_recipe_favorite s recipeId
  | PostRecipeFavorite recipeId => post_recipe_favorite s recipeId
  | DeleteRecipeFavorite recipeId => delete_recipe_favorite s recipeId
  | GetUserFollowers userId => get_user_followers userId
  | GetUserFollowing userId => get_user_following userId
  | GetUserFollow userId => get_user_follow s userId
  | PostUserFollow userId => post_user_follow s userId
  | DeleteUserFollow userId => delete_user_follow s userId
  | PutUsersProfile body file => put_users_profile s body file
  end.

Definition invalid_data : Response := message 400 "Invalid data provided".
Definition server_error : Response := message 500 "Server error".

Definition catch (req : Request) : Response :=
  match route req with
  | PostAuthRegister _ | PostPets _ _ | PutPet _ _ _ | PostRecipes _ _ _
  | PutRecipe _ _ _ | PostRecipeComments _ _ | PostRecipeFavorite _
  | PostUserFollow _ | PutUsersProfile _ _ => invalid_data
  | _ => server_error
  end.

(** *** Serving requests *)

(** A request in flight: what is left of its handler, and its [catch]. *)
Record Task := { task_prog : Prog Response; task_catch : Response }.

(** What the event loop does next: take up a new request, or resume the
    [i]-th request in flight at the [await] it is suspended on. *)
Inductive Event :=
| Arrive (req : Request)
| Resume (i : nat) (env : Env).

Section Server.
Variable bcrypt_hash : string -> Z -> string -> string.
Variable bcrypt_compare : string -> string -> bool.

(** A request handled from start to end with no other request in
    between. *)
Definition serve (env : Env) (req : Request) (db : DB) : DB * Response :=
  run bcrypt_hash bcrypt_compare env (handler req) (catch req) db.

(** The states the handlers reach when requests are served one at a
    time, from the empty database. *)
Inductive served : DB -> Prop :=
| served_init : served empty_db
| served_next db env req : served db -> served (fst (serve env req db)).

(** One awaited call of a request in flight. *)
Definition resume (env : Env) (t : Task) (db : DB) : DB * Task :=
  match task_prog t with
  | Return _ => (db, t)
  | Throw => (db, {| task_prog := Return (task_catch t); task_catch := task_catch t |})
  | Await c k =>
      match perform bcrypt_hash bcrypt_compare env c db with
      | (db', Ok a) => (db', {| task_prog := k a; task_catch := task_catch t |})
      | (db', Err _) =>
          (db', {| task_prog := Return (task_catch t); task_catch := task_catch t |})
      end
  end.

(** A request that has its response. *)
Definition finished (catch r : Response) : Task :=
  {| task_prog := Return r; task_catch := catch |}.

(** The same request resumed [n] times in a row. *)
Fixpoint resume_n (n : nat) (env : Env) (t : Task) (db : DB) : DB * Task :=
  match n with
  | O => (db, t)
  | S n' => let '(db', t') := resume env t db in resume_n n' env t' db'
  end.

Definition event_step (st : DB * list Task) (e : Event) : DB * list Task :=
  match e with
  | Arrive req =>
      (fst st,
       (snd st ++ [{| task_prog := handler req; task_catch := catch req |}])%list)
  | Resume i env =>
      match snd st !! i with
      | Some t =>
          let '(db', t') := resume env t (fst st) in
          (db', <[i := t']> (snd st))
      | None => st
      end
  end.

(** The states the handlers reach when the event loop interleaves the
    requests at their [await]s. *)
Definition schedule (events : list Event) : DB * list Task :=
  fold_left event_step events (empty_db, []).

Definition interleaved (db : DB) : Prop :=
  exists events, fst (schedule events) = db.
End Server.

(** [DELETE FROM users WHERE id = userId] *)
Definition delete_user (userId : Z) (db : DB) : Res DB :=
  match eq_integer Users.id userId with
  | Err e => Err e
  | Ok c => Ok (delete_users c db)
  end.

(** ** Sample data

    Concrete rows, a stand-in for bcrypt and a small database, used where
    a statement is checked on an instance. *)
Module Sample.
(** A stand-in for [bcrypt.hash]: the prefix, the cost, the salt and the
    data.  It only has the shape of a hash. *)
Definition toy_hash (data : string) (rounds : Z) (salt : string) : string :=
  "$2b$" +:+ pretty rounds +:+ "$" +:+ salt +:+ "$" +:+ data.

Definition toy_compare (data encrypted : string) : bool :=
  bool_decide (encrypted = toy_hash data 10 "salt").

Definition env (t : Z) : Env := {| now := t; salt := "salt" |}.

Definition new_user (username email password : string) : Users.Insert.t :=
  {| Users.Insert.id := None;
     Users.Insert.username := username;
     Users.Insert.email := email;
     Users.Insert.password := password;
     Users.Insert.firstName := None;
     Users.Insert.lastName := None;
     Users.Insert.state := None;
     Users.Insert.city := None;
     Users.Insert.profileImageUrl := None;
     Users.Insert.createdAt := None;
     Users.Insert.updatedAt := None |}.

Definition carla : Users.Insert.t := new_user "carla" "carla@x.com" "segredo".



Definition ana : Users.row :=
  {| Users.id := 1;
     Users.username := "ana";
     Users.email := "ana@x.com";
     Users.password := toy_hash "segredo" 10 "salt";
     Users.firstName := Some "Ana";
     Users.lastName := None;
     Users.state := None;
     Users.city := None;
     Users.profileImageUrl := None;
     Users.createdAt := 100;
     Users.updatedAt := 100 |}.

Definition bob : Users.row :=
  {| Users.id := 2;
     Users.username := "bob";
     Users.email := "bob@x.com";
     Users.password := toy_hash "senha" 10 "salt";
     Users.firstName := None;
     Users.lastName := None;
     Users.state := None;
     Users.city := None;
     Users.profileImageUrl := None;
     Users.createdAt := 110;
     Users.updatedAt := 110 |}.

Definition rex : Pets.row :=
  {| Pets.id := 1;
     Pets.userId := 1;
     Pets.name := "Rex";
     Pets.type := Dog;
     Pets.breed := None;
     Pets.age := Some 3;
     Pets.weight := None;
     Pets.profileImageUrl := None;
     Pets.createdAt := 120;
     Pets.updatedAt := 120 |}.

Definition new_recipe (title ingredients : string) (petType : PetType)
    (category : Category) : Recipes.Insert.t :=
  {| Recipes.Insert.id := None;
     Recipes.Insert.userId := 0;
     Recipes.Insert.title := title;
     Recipes.Insert.ingredients := ingredients;
     Recipes.Insert.instructions := "misturar e assar";
     Recipes.Insert.petType := petType;
     Recipes.Insert.category := category;
     Recipes.Insert.cookingType := Baked;
     Recipes.Insert.prepTime := 40;
     Recipes.Insert.imageUrl := None;
     Recipes.Insert.youtubeUrl := None;
     Recipes.Insert.cookCount := None;
     Recipes.Insert.createdAt := None;
     Recipes.Insert.updatedAt := None |}.

(** A treat for cats. *)
Definition biscoito : Recipes.row :=
  {| Recipes.id := 1;
     Recipes.userId := 1;
     Recipes.title := "Biscoito de atum";
     Recipes.ingredients := "atum, aveia";
     Recipes.instructions := "misturar e assar";
     Recipes.petType := Cat;
     Recipes.category := Treats;
     Recipes.cookingType := Baked;
     Recipes.prepTime := 25;
     Recipes.imageUrl := None;
     Recipes.youtubeUrl := None;
     Recipes.cookCount := 0;
     Recipes.createdAt := 130;
     Recipes.updatedAt := 130 |}.

(** A poultry dish for dogs. *)
Definition frango : Recipes.row :=
  {| Recipes.id := 2;
     Recipes.userId := 1;
     Recipes.title := "Frango Assado";
     Recipes.ingredients := "frango, cenoura";
     Recipes.instructions := "assar";
     Recipes.petType := Dog;
     Recipes.category := Poultry;
     Recipes.cookingType := Baked;
     Recipes.prepTime := 40;
     Recipes.imageUrl := None;
     Recipes.youtubeUrl := None;
     Recipes.cookCount := 0;
     Recipes.createdAt := 140;
     Recipes.updatedAt := 140 |}.

Definition comment (id recipeId : Z) (parentId : option Z) (createdAt : Z)
  : Comments.row :=
  {| Comments.id := id;
     Comments.userId := 2;
     Comments.recipeId := recipeId;
     Comments.parentId := parentId;
     Comments.content := "otimo";
     Comments.createdAt := createdAt;
     Comments.updatedAt := createdAt |}.

Definition favorite : Favorites.row :=
  {| Favorites.id := 1;
     Favorites.userId := 2;
     Favorites.recipeId := 2;
     Favorites.createdAt := 170 |}.

Definition follows : Followers.row :=
  {| Followers.id := 1;
     Followers.followerId := 2;
     Followers.followingId := 1;
     Followers.createdAt := 180 |}.

(** Two users, a pet, two recipes, a comment with a reply, a favorite and
    a follower row. *)
Definition db : DB :=
  {| users := [ana; bob];
     pets := [rex];
     recipes := [biscoito; frango];
     comments := [comment 1 2 None 150; comment 2 2 (Some 1) 160];
     favorites := [favorite];
     followers := [follows];
     users_id_seq := 3; pets_id_seq := 2; recipes_id_seq := 3;
     comments_id_seq := 3; favorites_id_seq := 2; followers_id_seq := 2 |}.

(** [{ city: "Recife" }] *)
Definition ana_moves : Users.Partial.t :=
  {| Users.Partial.id := None;
     Users.Partial.username := None;
     Users.Partial.email := None;
     Users.Partial.password := None;
     Users.Partial.firstName := None;
     Users.Partial.lastName := None;
     Users.Partial.state := None;
     Users.Partial.city := Some (Some "Recife");
     Users.Partial.profileImageUrl := None;
     Users.Partial.createdAt := None;
     Users.Partial.updatedAt := None |}.

(** [{ name: "Rex II" }] *)
Definition rex_renamed : Pets.Partial.t :=
  {| Pets.Partial.id := None;
     Pets.Partial.userId := None;
     Pets.Partial.name := Some "Rex II";
     Pets.Partial.type := None;
     Pets.Partial.breed := None;
     Pets.Partial.age := None;
     Pets.Partial.weight := None;
     Pets.Partial.profileImageUrl := None;
     Pets.Partial.createdAt := None;
     Pets.Partial.updatedAt := None |}.


(** [{ petType: "dog", category: "treats" }] *)
Definition dog_treats : Options.t :=
  {| Options.petType := Some "dog";
     Options.category := Some "treats";
     Options.search := None;
     Options.page := None;
     Options.limit := None |}.

(** Carla registers and publishes a recipe; then two requests to favorite
    it, sent with her session one right after the other, are both in
    flight when the first of them reaches its insert. *)
Definition register_carla : Request :=
  {| session := None; route := PostAuthRegister (Some carla) |}.

Definition publish : Request :=
  {| session := Some 1;
     route :=
       PostRecipes (Some (new_recipe "Frango Assado" "frango" Dog Poultry))
         (FieldText (Some 40)) None |}.

Definition favorite_it : Request :=
  {| session := Some 1; route := PostRecipeFavorite (Some 1) |}.

Definition double_click : list Event :=
  [ Arrive register_carla;
    Resume 0 (env 1); Resume 0 (env 1); Resume 0 (env 1);
    Arrive publish;
    Resume 1 (env 2); Resume 1 (env 2);
    Arrive favorite_it; Arrive favorite_it;
    Resume 2 (env 3); Resume 3 (env 3);
    Resume 2 (env 3); Resume 3 (env 3);
    Resume 2 (env 3); Resume 3 (env 3);
    Resume 2 (env 4); Resume 3 (env 5) ].

Definition after_double_click : DB :=
  fst (schedule toy_hash toy_compare double_click).

(** The same requests served one at a time. *)
Definition after_register : DB :=
  fst (serve toy_hash toy_compare (env 1) register_carla empty_db).

Definition after_publish : DB :=
  fst (serve toy_hash toy_compare (env 2) publish after_register).

Definition after_favorite : DB :=
  fst (serve toy_hash toy_compare (env 3) favorite_it after_publish).
End Sample.

(** ** Vocabulary of the properties *)





(** The rows of a table before and after an update of the rows with the
    id [id]: those rows are related by [updated] and every other row is as
    it was.  The order in which a table holds its rows is no part of it:
    [after] is the table in some order. *)
Definition table_updated {Row} (key : Row -> Z) (id : Z)
    (updated : Row -> Row -> Prop) (before after : list Row) : Prop :=
  exists rows,
    after ≡ₚ rows
    /\ Forall2
         (fun old new => if decide (key old = id) then updated old new else new = old)
         before rows.

(** At most one favorite for each pair of a user and a recipe. *)
Definition favorite_pairs (db : DB) : list (Z * Z) :=
  map (fun f => (Favorites.userId f, Favorites.recipeId f)) (favorites db).

Definition favorites_unique (db : DB) : Prop := NoDup (favorite_pairs db).

(** Handlers that never insert into [favorites]. *)
Definition is_AddFavorite {A} (c : Call A) : bool :=
  match c with
  | AddFavorite _ => true
  | _ => false
  end.

Fixpoint no_AddFavorite {R} (p : Prog R) : Prop :=
  match p with
  | Return _ => True
  | Throw => True
  | Await c k => is_AddFavorite c = false /\ forall a, no_AddFavorite (k a)
  end.

(** The favorites after a statement are the favorites before it without
    the rows some condition selects. *)
Definition favorites_kept (db db' : DB) : Prop :=
  exists c, favorites db' = sql_delete c (favorites db).

(** Newest first: every row is at least as recent as the rows after it. *)
Definition newest_first {Row} (key : Row -> Z) : list Row -> Prop :=
  StronglySorted (fun a b => key b <= key a).

(** Every favorite points to a user, with an id a session can hold, and to
    a recipe, by numbers that [integer] holds. *)
Definition favorites_refer (db : DB) : Prop :=
  forall f, In f (favorites db) ->
    Favorites.userId f <> 0
    /\ In (Favorites.userId f) (user_ids db)
    /\ In (Favorites.recipeId f) (recipe_ids db)
    /\ in_int4 (Favorites.userId f) = true
    /\ in_int4 (Favorites.recipeId f) = true.

(** [search] occurs in [text]. *)
Definition contains (search text : string) : Prop :=
  exists before rest, text = before +:+ search +:+ rest.

(** A character that [LIKE] takes literally. *)
Definition plain_char (c : ascii) : Prop :=
  c <> "%"%char /\ c <> "_"%char /\ c <> "\"%char.

(** ** Tactics *)

(** The first steps of an insert: the statement is refused when a value
    does not fit its column, and fails when the sequence has no id left.
    The goals are the insert that goes on, then these two. *)
Ltac insert_fits :=
  match goal with
  | |- context [if negb ?fits then _ else _] => destruct fits eqn:?
  end;
  cbn [negb];
  [ match goal with
    | |- context [if negb ?next then _ else _] => destruct next eqn:?
    end;
    cbn [negb]
  | ].

(** For [favorites (fst (insert_t v now db)) = favorites db], [t] another
    table. *)
Ltac insert_keeps_favorites :=
  intros;
  match goal with
  | |- context [fst (?insert ?v ?now ?db)] => unfold insert
  end;
  (insert_fits; [| reflexivity | reflexivity]);
  unfold serial;
  match goal with
  | |- context [match ?supplied with Some _ => _ | None => _ end] =>
      destruct supplied
  end;
  cbv beta match zeta; destruct (check_all _); reflexivity.

(** For [no_AddFavorite p], [p] the handler of a route. *)
Ltac no_AddFavorite_tac :=
  repeat (simpl;
    match goal with
    | |- True => exact I
    | |- _ /\ _ => split
    | |- forall _, _ => intro
    | |- _ = _ => reflexivity
    | |- no_AddFavorite (match ?x with _ => _ end) => destruct x
    end).
(** ** Vocabulary of the further properties *)

(** The method a route is registered with: [app.get], [app.post],
    [app.put] or [app.delete]. *)
Inductive Method := GET | POST | PUT | DELETE.

Definition method (r : Route) : Method :=
  match r with
  | PostAuthRegister _ | PostAuthLogin _ _ | PostAuthLogout | PostPets _ _
  | PostRecipes _ _ _ | PostRecipeCook _ | PostRecipeComments _ _
  | PostRecipeFavorite _ | PostUserFollow _ => POST
  | GetAuthMe | GetPets | GetPetById _ | GetRecipesList _ _ _ _ _
  | GetRecipeById _ | GetUserRecipes _ | GetRecipeComments _
  | GetCommentReplies _ | GetUserFavorites _ | GetRecipeFavorite _
  | GetUserFollowers _ | GetUserFollowing _ | GetUserFollow _ => GET
  | PutPet _ _ _ | PutRecipe _ _ _ | PutUsersProfile _ _ => PUT
  | DeletePetById _ | DeleteRecipeById _ | DeleteCommentById _
  | DeleteRecipeFavorite _ | DeleteUserFollow _ => DELETE
  end.

(** The routes that are registered with the [authenticate] middleware. *)
Definition behind_authenticate (r : Route) : bool :=
  match r with
  | PostAuthRegister _ | PostAuthLogin _ _ | PostAuthLogout | GetPetById _
  | GetRecipesList _ _ _ _ _ | GetRecipeById _ | GetUserRecipes _
  | GetRecipeComments _ | GetCommentReplies _ | GetUserFavorites _
  | GetUserFollowers _ | GetUserFollowing _ => false
  | _ => true
  end.

(** Every call that a program can reach satisfies [P]. *)
Fixpoint awaits {R} (P : forall A, Call A -> bool) (p : Prog R) : Prop :=
  match p with
  | Return _ => True
  | Throw => True
  | Await c k => P _ c = true /\ forall a, awaits P (k a)
  end.

(** The calls that issue no [INSERT], [UPDATE] or [DELETE]. *)
Definition is_select (A : Type) (c : Call A) : bool :=
  match c with
  | GetUser _ | GetUserByUsername _ | GetUserByEmail _ | GetPet _
  | GetPetsByUser _ | GetRecipe _ | GetRecipes _ | GetRecipesByUser _
  | GetComments _ | GetReplies _ | SelectComment _ | GetFavorites _
  | IsFavorite _ _ | GetFollowers _ | GetFollowing _ | IsFollowing _ _
  | BcryptCompare _ _ => true
  | _ => false
  end.

(** The calls other than [storage.follow]. *)
Definition not_Follow (A : Type) (c : Call A) : bool :=
  match c with
  | Follow _ => false
  | _ => true
  end.

(** The keys the schema declares unique: the primary key of each table,
    and the username and the email of a user. *)
Definition keys_unique (db : DB) : Prop :=
  NoDup (map Users.id (users db))
  /\ NoDup (map Users.username (users db))
  /\ NoDup (map Users.email (users db))
  /\ NoDup (map Pets.id (pets db))
  /\ NoDup (map Recipes.id (recipes db))
  /\ NoDup (map Comments.id (comments db))
  /\ NoDup (map Favorites.id (favorites db))
  /\ NoDup (map Followers.id (followers db)).

(** At most one follower row for each pair of users, and none from a user
    to themselves. *)
Definition follow_pairs (db : DB) : list (Z * Z) :=
  map (fun f => (Followers.followerId f, Followers.followingId f)) (followers db).

Definition follows_unique (db : DB) : Prop := NoDup (follow_pairs db).

Definition no_self_follow (db : DB) : Prop :=
  forall f, In f (followers db) -> Followers.followerId f <> Followers.followingId f.

(** A response body that shows no password. *)
Definition without_password (body : Json) : Prop :=
  match body with
  | JUser (Some user) => user !! "password" = None
  | JUsers list_ => Forall (fun user : JsObject => user !! "password" = None) list_
  | _ => True
  end.

(** What the result of a call is known to be as far as passwords go. *)
Definition stripped {A} (c : Call A) : A -> Prop :=
  match c in Call A return A -> Prop with
  | GetUser _ => fun r => forall user, r = Some user -> user !! "password" = None
  | CreateUser _ => fun user => user !! "password" = None
  | UpdateUser _ _ => fun r => forall user, r = Some user -> user !! "password" = None
  | GetFollowers _ => Forall (fun user : JsObject => user !! "password" = None)
  | GetFollowing _ => Forall (fun user : JsObject => user !! "password" = None)
  | _ => fun _ => True
  end.

(** Every response of a program is without password when the results of
    its calls are [stripped]. *)
Fixpoint responds_without_password (p : Prog Response) : Prop :=
  match p with
  | Return r => without_password (payload r)
  | Throw => True
  | Await c k => forall a, stripped c a -> responds_without_password (k a)
  end.

(** [options] with another [page] and [limit]. *)
Definition paged (options : Options.t) (page limit : option Z) : Options.t :=
  {| Options.petType := Options.petType options;
     Options.category := Options.category options;
     Options.search := Options.search options;
     Options.page := page;
     Options.limit := limit |}.

(** The condition the statement of [getRecipes] is left with: that of the
    last filter that is supplied, and the condition that holds of every row
    when none is. *)
Definition last_filter (options : Options.t) : Res (Recipes.row -> bool) :=
  match truthy_string (Options.search options),
        truthy_string (Options.category options),
        truthy_string (Options.petType options) with
  | Some search, _, _ => like_search search
  | None, Some category, _ => eq_category category
  | None, None, Some petType => eq_petType petType
  | None, None, None => Ok (fun _ => true)
  end.

(** The thread below the comment [id] in the comments [cs]: the replies to
    it, the replies to those, and so on. *)
Inductive below (cs : list Comments.row) (id : Z) : Comments.row -> Prop :=
| below_reply comment :
    In comment cs -> Comments.parentId comment = Some id -> below cs id comment
| below_deeper comment parent :
    In comment cs -> below cs id parent ->
    Comments.parentId comment = Some (Comments.id parent) ->
    below cs id comment.

(** What a listing without [ORDER BY] tells: its rows, in whatever order.
    [listed r l] says that the call has returned the rows of [l]. *)
Definition listed {A} (r : Res (list A)) (l : list A) : Prop :=
  match r with
  | Ok rows => rows ≡ₚ l
  | Err _ => False
  end.

(** Two calls with the same outcome: the same rows, in whatever order, or
    the same error. *)
Definition same_listing {A} (r1 r2 : Res (list A)) : Prop :=
  match r1, r2 with
  | Ok rows1, Ok rows2 => rows1 ≡ₚ rows2
  | Err e1, Err e2 => e1 = e2
  | _, _ => False
  end.

(** ** More tactics *)

(** For [awaits P p], [p] the handler of a route. *)
Ltac awaits_tac :=
  repeat (simpl;
    match goal with
    | |- True => exact I
    | |- _ /\ _ => split
    | |- forall _, _ => intro
    | |- _ = _ => reflexivity
    | |- awaits _ (match ?x with _ => _ end) => destruct x
    end).

Ltac unfold_handlers :=
  unfold post_auth_register, post_auth_login, post_auth_logout, get_auth_me,
    get_pets, get_pet, post_pets, put_pet, delete_pet, get_recipes, get_recipe,
    get_user_recipes, post_recipes, put_recipe, delete_recipe, post_recipe_cook,
    get_recipe_comments, get_comment_replies, post_recipe_comments,
    delete_comment, get_user_favorites, get_recipe_favorite,
    post_recipe_favorite, delete_recipe_favorite, get_user_followers,
    get_user_following, get_user_follow, post_user_follow, delete_user_follow,
    put_users_profile, authenticate, parseInt, parse.

(** For [followers (fst (insert_t v now db)) = followers db], [t] another
    table. *)
Ltac insert_keeps_followers supplied :=
  (insert_fits; [| reflexivity | reflexivity]);
  unfold serial; destruct supplied; cbv beta match zeta;
  destruct (check_all _); reflexivity.

(** ** More sample data *)
Module Fixture.
(** The body of a request that registers a cat. *)
Definition mia : Pets.Insert.t :=
  {| Pets.Insert.id := None;
     Pets.Insert.userId := 0;
     Pets.Insert.name := "Mia";
     Pets.Insert.type := Cat;
     Pets.Insert.breed := None;
     Pets.Insert.age := None;
     Pets.Insert.weight := None;
     Pets.Insert.profileImageUrl := None;
     Pets.Insert.createdAt := None;
     Pets.Insert.updatedAt := None |}.

(** The body of a comment, and of a reply to the comment [parentId]. *)
Definition reply (parentId : option Z) : Comments.Insert.t :=
  {| Comments.Insert.id := None;
     Comments.Insert.userId := 0;
     Comments.Insert.recipeId := 0;
     Comments.Insert.parentId := parentId;
     Comments.Insert.content := "vou fazer";
     Comments.Insert.createdAt := None;
     Comments.Insert.updatedAt := None |}.
End Fixture.

(** * Properties *)

(** ** Facts about the SQL primitives *)

Section SqlFacts.
Context {Row : Type}.
Implicit Types (t : list Row) (c : Row -> bool) (key : Row -> Z).

Lemma sql_where_In c t r : In r (sql_where c t) <-> In r t /\ c r = true.
Proof. apply filter_In. Qed.

Lemma sql_delete_In c t r : In r (sql_delete c t) <-> In r t /\ c r = false.
Proof.
  unfold sql_delete. rewrite filter_In, negb_true_iff. reflexivity.
Qed.

Lemma sql_where_none c t :
  (forall r, In r t -> c r = false) -> sql_where c t = [].
Proof.
  induction t as [|x t IH]; intros H; simpl; [reflexivity|].
  rewrite (H x (or_introl eq_refl)). apply IH.
  intros r Hr. apply H. right. exact Hr.
Qed.

Lemma sql_delete_none c t :
  (forall r, In r t -> c r = false) -> sql_delete c t = t.
Proof.
  induction t as [|x t IH]; intros H; simpl; [reflexivity|].
  rewrite (H x (or_introl eq_refl)). simpl. f_equal. apply IH.
  intros r Hr. apply H. right. exact Hr.
Qed.

Lemma insert_desc_perm key x l : Permutation (insert_desc key x l) (x :: l).
Proof.
  induction l as [|y l IH]; simpl; [reflexivity|].
  destruct (key x <? key y); [|reflexivity].
  rewrite IH. apply perm_swap.
Qed.

Lemma order_by_desc_perm key t : Permutation (order_by_desc key t) t.
Proof.
  induction t as [|x t IH]; simpl; [reflexivity|].
  rewrite insert_desc_perm. constructor. exact IH.
Qed.

Lemma order_by_desc_In key t r : In r (order_by_desc key t) <-> In r t.
Proof.
  split; apply Permutation_in; [|symmetry]; apply order_by_desc_perm.
Qed.

Lemma insert_desc_sorted key x l :
  newest_first key l -> newest_first key (insert_desc key x l).
Proof.
  unfold newest_first.
  induction l as [|y l IH]; intros Hs; simpl.
  - repeat constructor.
  - inversion Hs as [|? ? Hl Hy]; subst.
    destruct (Z.ltb_spec (key x) (key y)) as [Hlt|Hge].
    + constructor; [apply IH; exact Hl|].
      rewrite insert_desc_perm.
      constructor; [lia | exact Hy].
    + constructor; [exact Hs|].
      constructor; [exact Hge|].
      eapply Forall_impl; [exact Hy|]. simpl. intros a Ha. lia.
Qed.

Lemma order_by_desc_sorted key t : newest_first key (order_by_desc key t).
Proof.
  induction t as [|x t IH]; simpl.
  - constructor.
  - apply insert_desc_sorted, IH.
Qed.
End SqlFacts.

Lemma head_In {A} (l : list A) (x : A) : head l = Some x -> In x l.
Proof. destruct l; simpl; [discriminate|]. intros [= ->]. left. reflexivity. Qed.

Lemma firstn_In {A} (n : nat) (l : list A) (x : A) : In x (firstn n l) -> In x l.
Proof.
  intros H. rewrite <- (firstn_skipn n l). apply in_or_app. left. exact H.
Qed.

Lemma skipn_In {A} (n : nat) (l : list A) (x : A) : In x (skipn n l) -> In x l.
Proof.
  intros H. rewrite <- (firstn_skipn n l). apply in_or_app. right. exact H.
Qed.

Lemma inner_join_In {A B} (on : A -> B -> bool) (ta : list A) (tb : list B)
    (a : A) (b : B) :
  In (a, b) (inner_join on ta tb) <-> In a ta /\ In b tb /\ on a b = true.
Proof.
  unfold inner_join. rewrite in_flat_map. split.
  - intros (a' & Ha & Hab). apply in_map_iff in Hab.
    destruct Hab as (b' & [= <- <-] & Hb). apply sql_where_In in Hb. tauto.
  - intros (Ha & Hb & Hon). exists a. split; [exact Ha|].
    apply in_map. apply sql_where_In. tauto.
Qed.

(** Every row a select returns is a row of the table it selects from that
    the condition holds of. *)
Lemma Query_page_In {Row} (q : Query.t Row) (rows l : list Row) (r : Row) :
  Query.page q rows = Ok l -> In r l -> In r rows.
Proof.
  unfold Query.page.
  destruct (Query.offset_clause q) as [o|], (Query.limit_clause q) as [n|];
    repeat match goal with |- context [if ?b then _ else _] => destruct b end;
    intros [= <-]; try discriminate; intros Hr;
    repeat first [apply firstn_In in Hr | apply skipn_In in Hr]; exact Hr.
Qed.

Lemma Query_ordered_In {Row} (q : Query.t Row) (rows : list Row) (r : Row) :
  In r (Query.ordered q rows) <-> In r rows.
Proof.
  unfold Query.ordered. destruct (Query.config_orderBy q); [|tauto].
  apply order_by_desc_In.
Qed.

Lemma Query_run_In {Row} (q : Query.t Row) (l : list Row) (r : Row) :
  Query.run q = Ok l -> In r l ->
  In r (Query.config_from q)
  /\ (forall c, Query.config_where q = Some (Ok c) -> c r = true).
Proof.
  unfold Query.run. destruct (Query.config_where q) as [[c|e]|].
  - intros Hp Hr. apply (Query_page_In _ _ _ _ Hp), Query_ordered_In, sql_where_In in Hr.
    split; [tauto|]. intros c' [= <-]. tauto.
  - discriminate.
  - intros Hp Hr. apply (Query_page_In _ _ _ _ Hp), Query_ordered_In in Hr.
    split; [exact Hr|]. discriminate.
Qed.

Lemma bool_decide_In_false (x : Z) (l : list Z) :
  bool_decide (x ∈ l) = false -> ~ In x l.
Proof. rewrite bool_decide_eq_false, list_elem_of_In. tauto. Qed.

Lemma empty_when_no_In {A} (l : list A) : (forall x, ~ In x l) -> l = [].
Proof.
  destruct l as [|x l]; [reflexivity|]. intros H. destruct (H x). left. reflexivity.
Qed.

Lemma sql_where_app {Row} (c : Row -> bool) (t1 t2 : list Row) :
  sql_where c (t1 ++ t2) = (sql_where c t1 ++ sql_where c t2)%list.
Proof. apply List.filter_app. Qed.

Lemma sql_eq_true {Row A} `{EqDecision A} (col : Row -> A) (v : A) (r : Row) :
  sql_eq col v r = true <-> col r = v.
Proof. unfold sql_eq. apply bool_decide_eq_true. Qed.

Lemma sql_eq_false {Row A} `{EqDecision A} (col : Row -> A) (v : A) (r : Row) :
  sql_eq col v r = false <-> col r <> v.
Proof. unfold sql_eq. apply bool_decide_eq_false. Qed.

Lemma sql_where_eq_absent {Row A} `{EqDecision A} (col : Row -> A) (v : A)
    (t : list Row) :
  v ∉ map col t -> sql_where (sql_eq col v) t = [].
Proof.
  intros Hv. apply sql_where_none. intros r Hr. apply sql_eq_false.
  intros <-. apply Hv. apply list_elem_of_In, in_map, Hr.
Qed.

Lemma sql_where_eq_present {Row A} `{EqDecision A} (col : Row -> A) (v : A)
    (t : list Row) :
  v ∈ map col t -> exists r, head (sql_where (sql_eq col v) t) = Some r.
Proof.
  intros Hv. apply list_elem_of_In, in_map_iff in Hv. destruct Hv as (r & Hr & Hin).
  destruct (sql_where (sql_eq col v) t) as [|x l] eqn:E.
  - assert (In r (sql_where (sql_eq col v) t)) as Hr'.
    { apply sql_where_In. split; [exact Hin|]. apply sql_eq_true, Hr. }
    rewrite E in Hr'. destruct Hr'.
  - exists x. reflexivity.
Qed.

Lemma sql_where_filter {Row} (c : Row -> bool) (P : Row -> Prop)
    `{!forall r, Decision (P r)} (t : list Row) :
  (forall r, c r = true <-> P r) -> sql_where c t = filter P t.
Proof.
  intros Hc. induction t as [|x t IH]; [reflexivity|].
  simpl. rewrite filter_cons. rewrite IH.
  destruct (c x) eqn:E; destruct (decide (P x)) as [HP|HP]; try reflexivity.
  - apply Hc in E. contradiction.
  - apply Hc in HP. congruence.
Qed.

Lemma sql_where_after_delete {Row} (c : Row -> bool) (t : list Row) :
  sql_where c (sql_delete c t) = [].
Proof.
  apply sql_where_none. intros r Hr. apply sql_delete_In in Hr. tauto.
Qed.

Lemma sql_delete_shorter {Row} (c : Row -> bool) (t : list Row) (g : Row) :
  In g t -> c g = true -> (length (sql_delete c t) < length t)%nat.
Proof.
  intros Hin Hc. induction t as [|x t IH]; [destruct Hin|].
  simpl. destruct Hin as [->|Hin].
  - rewrite Hc. simpl.
    pose proof (List.filter_length_le (fun r => negb (c r)) t).
    unfold sql_delete. lia.
  - specialize (IH Hin). destruct (negb (c x)); simpl; lia.
Qed.


Lemma NoDup_map_sql_delete {A B} (f : A -> B) (c : A -> bool) (l : list A) :
  NoDup (map f l) -> NoDup (map f (sql_delete c l)).
Proof.
  induction l as [|x l IH]; simpl; [constructor|].
  intros Hnd. apply NoDup_cons in Hnd. destruct Hnd as [Hx Hl].
  destruct (negb (c x)); simpl; [|apply IH, Hl].
  apply NoDup_cons. split; [|apply IH, Hl].
  intros Hin. apply Hx. apply list_elem_of_In, in_map_iff in Hin.
  destruct Hin as (y & Hy & Hin). apply sql_delete_In in Hin.
  apply list_elem_of_In, in_map_iff. exists y. tauto.
Qed.

(** The rest object has no [password]. *)
Lemma omit_password_lookup (o : JsObject) : omit_password o !! "password" = None.
Proof. unfold omit_password. apply lookup_delete_eq. Qed.

(** *** What the operations of the storage class compute

    An operation with a number that [integer] cannot hold is rejected; with
    numbers it can hold, a select is the filter its condition describes. *)
Lemma getUser_eq (db : DB) (id : Z) :
  getUser db id =
  if in_int4 id
  then Ok (match head (sql_where (sql_eq Users.id id) (users db)) with
           | Some user => Some (omit_password (Users.obj user))
           | None => None
           end)
  else out_of_range.
Proof.
  unfold getUser, eq_integer. destruct (in_int4 id); [|reflexivity].
  cbn. destruct (head _); reflexivity.
Qed.

Lemma getUserByUsername_eq (db : DB) (username : string) :
  getUserByUsername db username =
  Ok (head (sql_where (sql_eq Users.username username) (users db))).
Proof. reflexivity. Qed.

Lemma getUserByEmail_eq (db : DB) (email : string) :
  getUserByEmail db email =
  Ok (head (sql_where (sql_eq Users.email email) (users db))).
Proof. reflexivity. Qed.

Lemma getPet_eq (db : DB) (id : Z) :
  getPet db id =
  if in_int4 id then Ok (head (sql_where (sql_eq Pets.id id) (pets db)))
  else out_of_range.
Proof. unfold getPet, eq_integer. destruct (in_int4 id); reflexivity. Qed.

Lemma getPetsByUser_eq (db : DB) (userId : Z) :
  getPetsByUser db userId =
  if in_int4 userId then Ok (sql_where (sql_eq Pets.userId userId) (pets db))
  else out_of_range.
Proof. unfold getPetsByUser, eq_integer. destruct (in_int4 userId); reflexivity. Qed.

Lemma getRecipe_eq (db : DB) (id : Z) :
  getRecipe db id =
  if in_int4 id then Ok (head (sql_where (sql_eq Recipes.id id) (recipes db)))
  else out_of_range.
Proof. unfold getRecipe, eq_integer. destruct (in_int4 id); reflexivity. Qed.

Lemma getRecipesByUser_eq (db : DB) (userId : Z) :
  getRecipesByUser db userId =
  if in_int4 userId
  then Ok (order_by_desc Recipes.createdAt
             (sql_where (sql_eq Recipes.userId userId) (recipes db)))
  else out_of_range.
Proof.
  unfold getRecipesByUser, eq_integer. destruct (in_int4 userId); reflexivity.
Qed.

Lemma getComments_eq (db : DB) (recipeId : Z) :
  getComments db recipeId =
  if in_int4 recipeId
  then Ok (order_by_desc Comments.createdAt
             (sql_where
                (sql_and (sql_eq Comments.recipeId recipeId)
                         (sql_isNull Comments.parentId))
                (comments db)))
  else out_of_range.
Proof.
  unfold getComments, eq_integer. destruct (in_int4 recipeId); reflexivity.
Qed.

Lemma getReplies_eq (db : DB) (commentId : Z) :
  getReplies db commentId =
  if in_int4 commentId
  then Ok (order_by_desc Comments.createdAt
             (sql_where (sql_eq_nullable Comments.parentId commentId)
                (comments db)))
  else out_of_range.
Proof.
  unfold getReplies, eq_integer_nullable. destruct (in_int4 commentId); reflexivity.
Qed.

Lemma SelectComment_eq (bcrypt_hash : string -> Z -> string -> string)
    (bcrypt_compare : string -> string -> bool) (env : Env) (db : DB) (id : Z) :
  perform bcrypt_hash bcrypt_compare env (SelectComment id) db =
  (db,
   if in_int4 id then Ok (head (sql_where (sql_eq Comments.id id) (comments db)))
   else out_of_range).
Proof. unfold perform, eq_integer. destruct (in_int4 id); reflexivity. Qed.

Lemma getFavorites_eq (db : DB) (userId : Z) :
  getFavorites db userId =
  if in_int4 userId
  then Ok (map snd
             (order_by_desc (fun item => Favorites.createdAt (fst item))
                (sql_where (fun item => sql_eq Favorites.userId userId (fst item))
                   (inner_join
                      (fun f r =>
                         bool_decide (Favorites.recipeId f = Recipes.id r))
                      (favorites db) (recipes db)))))
  else out_of_range.
Proof.
  unfold getFavorites, eq_integer. destruct (in_int4 userId); reflexivity.
Qed.

Lemma isFavorite_eq (db : DB) (userId recipeId : Z) :
  isFavorite db userId recipeId =
  if in_int4 userId && in_int4 recipeId
  then Ok (if head (sql_where
                      (sql_and (sql_eq Favorites.userId userId)
                               (sql_eq Favorites.recipeId recipeId))
                      (favorites db)) is Some _ then true else false)
  else out_of_range.
Proof.
  unfold isFavorite, eq_integer.
  destruct (in_int4 userId), (in_int4 recipeId); reflexivity.
Qed.

Lemma getFollowers_eq (db : DB) (userId : Z) :
  getFollowers db userId =
  if in_int4 userId
  then Ok (map (fun item => omit_password (Users.obj (snd item)))
             (sql_where
                (fun item => sql_eq Followers.followingId userId (fst item))
                (inner_join
                   (fun f u => bool_decide (Followers.followerId f = Users.id u))
                   (followers db) (users db))))
  else out_of_range.
Proof.
  unfold getFollowers, eq_integer. destruct (in_int4 userId); reflexivity.
Qed.

Lemma getFollowing_eq (db : DB) (userId : Z) :
  getFollowing db userId =
  if in_int4 userId
  then Ok (map (fun item => omit_password (Users.obj (snd item)))
             (sql_where
                (fun item => sql_eq Followers.followerId userId (fst item))
                (inner_join
                   (fun f u => bool_decide (Followers.followingId f = Users.id u))
                   (followers db) (users db))))
  else out_of_range.
Proof.
  unfold getFollowing, eq_integer. destruct (in_int4 userId); reflexivity.
Qed.

Lemma isFollowing_eq (db : DB) (followerId followingId : Z) :
  isFollowing db followerId followingId =
  if in_int4 followerId && in_int4 followingId
  then Ok (if head (sql_where
                      (sql_and (sql_eq Followers.followerId followerId)
                               (sql_eq Followers.followingId followingId))
                      (followers db)) is Some _ then true else false)
  else out_of_range.
Proof.
  unfold isFollowing, eq_integer.
  destruct (in_int4 followerId), (in_int4 followingId); reflexivity.
Qed.

Lemma deletePet_eq (db : DB) (id : Z) :
  deletePet db id =
  if in_int4 id then (delete_pets (sql_eq Pets.id id) db, Ok true)
  else (db, out_of_range).
Proof. unfold deletePet, eq_integer. destruct (in_int4 id); reflexivity. Qed.

Lemma deleteRecipe_eq (db : DB) (id : Z) :
  deleteRecipe db id =
  if in_int4 id then (delete_recipes (sql_eq Recipes.id id) db, Ok true)
  else (db, out_of_range).
Proof. unfold deleteRecipe, eq_integer. destruct (in_int4 id); reflexivity. Qed.

Lemma deleteComment_eq (db : DB) (id : Z) :
  deleteComment db id =
  if in_int4 id then (delete_comments (sql_eq Comments.id id) db, Ok true)
  else (db, out_of_range).
Proof. unfold deleteComment, eq_integer. destruct (in_int4 id); reflexivity. Qed.

Lemma removeFavorite_eq (db : DB) (userId recipeId : Z) :
  removeFavorite db userId recipeId =
  if in_int4 userId && in_int4 recipeId
  then (delete_favorites
          (sql_and (sql_eq Favorites.userId userId)
                   (sql_eq Favorites.recipeId recipeId)) db,
        Ok true)
  else (db, out_of_range).
Proof.
  unfold removeFavorite, eq_integer.
  destruct (in_int4 userId), (in_int4 recipeId); reflexivity.
Qed.

Lemma unfollow_eq (db : DB) (followerId followingId : Z) :
  unfollow db followerId followingId =
  if in_int4 followerId && in_int4 followingId
  then (delete_followers
          (sql_and (sql_eq Followers.followerId followerId)
                   (sql_eq Followers.followingId followingId)) db,
        Ok true)
  else (db, out_of_range).
Proof.
  unfold unfollow, eq_integer.
  destruct (in_int4 followerId), (in_int4 followingId); reflexivity.
Qed.

Lemma delete_user_eq (userId : Z) (db : DB) :
  delete_user userId db =
  if in_int4 userId then Ok (delete_users (sql_eq Users.id userId) db)
  else out_of_range.
Proof. unfold delete_user, eq_integer. destruct (in_int4 userId); reflexivity. Qed.

Lemma updatePet_eq (db : DB) (id : Z) (petData : Pets.Partial.t) (now : Z) :
  updatePet db id petData now =
  if in_int4 id
  then match update_pets (sql_eq Pets.id id) (updatePet_set petData now) db with
       | (db', Ok returning) => (db', Ok (head returning))
       | (db', Err e) => (db', Err e)
       end
  else (db, out_of_range).
Proof. unfold updatePet, eq_integer. destruct (in_int4 id); reflexivity. Qed.

Lemma updateRecipe_eq (db : DB) (id : Z) (recipeData : Recipes.Partial.t)
    (now : Z) :
  updateRecipe db id recipeData now =
  if in_int4 id
  then match
         update_recipes (sql_eq Recipes.id id) (updateRecipe_set recipeData now) db
       with
       | (db', Ok returning) => (db', Ok (head returning))
       | (db', Err e) => (db', Err e)
       end
  else (db, out_of_range).
Proof. unfold updateRecipe, eq_integer. destruct (in_int4 id); reflexivity. Qed.

Lemma updateUser_eq (bcrypt_hash : string -> Z -> string -> string) (db : DB)
    (id : Z) (userData : Users.Partial.t) (salt : string) (now : Z) :
  updateUser bcrypt_hash db id userData salt now =
  if in_int4 id
  then match
         update_users (sql_eq Users.id id)
           (updateUser_set bcrypt_hash userData salt now) db
       with
       | (db', Ok returning) =>
           match head returning with
           | Some user => (db', Ok (Some (omit_password (Users.obj user))))
           | None => (db', Ok None)
           end
       | (db', Err e) => (db', Err e)
       end
  else (db, out_of_range).
Proof. unfold updateUser, eq_integer. destruct (in_int4 id); reflexivity. Qed.

(** An operation that returns has been given numbers that fit. *)
Lemma in_int4_true (n : Z) :
  in_int4 n = true <-> -2147483648 <= n <= 2147483647.
Proof. unfold in_int4. lia. Qed.


(** ** C1: the filters of [getRecipes] *)

(** With a category supplied, the pet type has no effect on the result. *)
Lemma getRecipes_category_replaces_petType (db : DB) (o : Options.t) :
  truthy_string (Options.category o) <> None ->
  getRecipes db (Some o)
  = getRecipes db
      (Some {| Options.petType := None;
               Options.category := Options.category o;
               Options.search := Options.search o;
               Options.page := Options.page o;
               Options.limit := Options.limit o |}).
Proof.
  intros Hc. unfold getRecipes. simpl.
  destruct (truthy_string (Options.category o)) as [c|]; [|congruence].
  destruct (truthy_string (Options.petType o)); reflexivity.
Qed.

(** With a search text supplied, neither the pet type nor the category has
    an effect on the result. *)
Lemma getRecipes_search_replaces_filters (db : DB) (o : Options.t) :
  truthy_string (Options.search o) <> None ->
  getRecipes db (Some o)
  = getRecipes db
      (Some {| Options.petType := None;
               Options.category := None;
               Options.search := Options.search o;
               Options.page := Options.page o;
               Options.limit := Options.limit o |}).
Proof.
  intros Hs. unfold getRecipes. simpl.
  destruct (truthy_string (Options.search o)) as [s|]; [|congruence].
  destruct (truthy_string (Options.petType o));
    destruct (truthy_string (Options.category o)); reflexivity.
Qed.

(** What [getRecipes] does guarantee: every recipe it returns meets the
    last of the supplied filters, in the order pet type, category,
    search. *)
Lemma getRecipes_applies_last_filter (db : DB) (o : Options.t)
    (l : list Recipes.row) (r : Recipes.row) :
  getRecipes db (Some o) = Ok l ->
  In r l ->
  match truthy_string (Options.search o), truthy_string (Options.category o),
        truthy_string (Options.petType o) with
  | Some search, _, _ =>
      sql_like (Recipes.title r) ("%" +:+ search +:+ "%") = true
      \/ sql_like (Recipes.ingredients r) ("%" +:+ search +:+ "%") = true
  | None, Some category, _ => categoryEnum category = Some (Recipes.category r)
  | None, None, Some petType => petTypeEnum petType = Some (Recipes.petType r)
  | None, None, None => True
  end.
Proof.
  unfold getRecipes. simpl. intros Hrun Hr.
  pose proof (Query_run_In _ _ _ Hrun Hr) as [_ Hc].
  revert Hrun Hc.
  destruct (truthy_string (Options.search o)) as [search|].
  { simpl. intros _ Hc. apply orb_true_iff. apply (Hc _ eq_refl). }
  destruct (truthy_string (Options.category o)) as [category|].
  { simpl. unfold Query.run, eq_category. simpl.
    destruct (categoryEnum category) as [c|]; [|discriminate].
    intros _ Hc. specialize (Hc _ eq_refl). unfold sql_eq in Hc.
    apply bool_decide_eq_true in Hc. congruence. }
  destruct (truthy_string (Options.petType o)) as [petType|]; [|tauto].
  simpl. unfold Query.run, eq_petType. simpl.
  destruct (petTypeEnum petType) as [t|]; [|discriminate].
  intros _ Hc. specialize (Hc _ eq_refl). unfold sql_eq in Hc.
  apply bool_decide_eq_true in Hc. congruence.
Qed.

(** C1. Asked for the treats for dogs, [getRecipes] returns the treat for
    cats of the sample database: the condition on the category has
    replaced the condition on the pet type. *)
Theorem C1_getRecipes_dog_treats_returns_cat_recipe :
  getRecipes Sample.db (Some Sample.dog_treats) = Ok [Sample.biscoito]
  /\ Recipes.petType Sample.biscoito = Cat.
Proof. split; reflexivity. Qed.

(** ** C2: the cook counter *)

(** The argument that [incrementCookCount] passes for [cookCount]. *)
Lemma cookCount_argument :
  js_plus OpObject (OpNumber 1) = OpString "[object Object]1".
Proof. reflexivity. Qed.

(** C2. [incrementCookCount] throws on every id and leaves the database
    as it was: the value bound to [cook_count] is the text
    ["[object Object]1"], which is no [integer].  The counter of an
    existing recipe therefore stays at [N] however often the operation is
    called. *)
Theorem C2_incrementCookCount_throws (db : DB) (id now : Z) :
  incrementCookCount db id now = (db, Err (InvalidTextRepresentation "integer")).
Proof. reflexivity. Qed.

Lemma incrementCookCount_unchanged (db : DB) (id now : Z) :
  fst (incrementCookCount db id now) = db.
Proof. reflexivity. Qed.

(** The cook handler answers 500 for a recipe that is there. *)
Lemma post_recipe_cook_fails
    (bcrypt_hash : string -> Z -> string -> string)
    (bcrypt_compare : string -> string -> bool)
    (env : Env) (session : option Z) (userId id : Z) (db : DB) :
  truthy_number session = Some userId ->
  (exists user, getUser db userId = Ok (Some user)) ->
  (exists recipe, getRecipe db id = Ok (Some recipe)) ->
  serve bcrypt_hash bcrypt_compare env
    {| session := session; route := PostRecipeCook (Some id) |} db
  = (db, server_error).
Proof.
  intros Hs [user Hu] [recipe Hr]. unfold serve, handler. simpl.
  unfold post_recipe_cook, authenticate, parseInt. rewrite Hs. simpl.
  rewrite Hu. simpl. rewrite Hr. reflexivity.
Qed.

(** ** The search text as a [LIKE] pattern *)

Lemma like_chars_percent (pat s : list ascii) :
  like_chars ("%"%char :: pat) s
  = like_chars pat s
    || match s with [] => false | _ :: s' => like_chars ("%"%char :: pat) s' end.
Proof. destruct s; reflexivity. Qed.

Lemma like_chars_plain (c : ascii) (pat s : list ascii) :
  plain_char c ->
  like_chars (c :: pat) s
  = match s with
    | [] => false
    | d :: s' => bool_decide (c = d) && like_chars pat s'
    end.
Proof.
  intros (H1 & H2 & H3).
  destruct c as [[] [] [] [] [] [] [] []]; try reflexivity; congruence.
Qed.

(** A pattern of ordinary characters followed by [%] matches the texts that
    start with it. *)
Lemma like_chars_prefix (p s : list ascii) :
  Forall plain_char p ->
  like_chars (p ++ ["%"%char]) s = true <-> exists rest, s = (p ++ rest)%list.
Proof.
  intros Hp. revert s. induction Hp as [|c p Hc _ IH]; intros s.
  - split; [intros _; exists s; reflexivity|].
    intros _. change ([] ++ ["%"%char])%list with ["%"%char]. clear.
    induction s as [|d s IHs]; [reflexivity|].
    rewrite like_chars_percent. apply orb_true_iff. right. exact IHs.
  - change ((c :: p) ++ ["%"%char])%list with (c :: (p ++ ["%"%char]))%list.
    rewrite like_chars_plain by exact Hc. destruct s as [|d s].
    + split; [discriminate|]. intros (rest & Hrest). discriminate.
    + rewrite andb_true_iff, bool_decide_eq_true, IH. split.
      * intros (-> & rest & ->). exists rest. reflexivity.
      * intros (rest & [= -> ->]). split; [reflexivity|]. exists rest. reflexivity.
Qed.

(** Between two [%] it matches the texts that contain it. *)
Lemma like_chars_infix (p s : list ascii) :
  Forall plain_char p ->
  like_chars ("%"%char :: p ++ ["%"%char]) s = true
  <-> exists before rest, s = (before ++ p ++ rest)%list.
Proof.
  intros Hp. induction s as [|d s IH].
  - rewrite like_chars_percent, orb_false_r, like_chars_prefix by exact Hp.
    split.
    + intros (rest & Hrest). exists [], rest. exact Hrest.
    + intros (before & rest & Hs). destruct before; [|discriminate].
      exists rest. exact Hs.
  - rewrite like_chars_percent, orb_true_iff, IH, like_chars_prefix by exact Hp.
    split.
    + intros [(rest & Hrest)|(before & rest & Hs)].
      * exists [], rest. exact Hrest.
      * exists (d :: before), rest. rewrite Hs. reflexivity.
    + intros (before & rest & Hs). destruct before as [|b before].
      * left. exists rest. exact Hs.
      * right. injection Hs as _ Hs. exists before, rest. exact Hs.
Qed.

Lemma list_ascii_of_string_app (a b : string) :
  list_ascii_of_string (a +:+ b)
  = (list_ascii_of_string a ++ list_ascii_of_string b)%list.
Proof. induction a as [|c a IH]; simpl; [reflexivity|]. rewrite IH. reflexivity. Qed.

(** For a search text of ordinary characters, the condition of
    [getRecipes] on a column holds exactly of the texts that contain the
    search text. *)
Lemma sql_like_contains (search text : string) :
  Forall plain_char (list_ascii_of_string search) ->
  sql_like text ("%" +:+ search +:+ "%") = true <-> contains search text.
Proof.
  intros Hp. unfold sql_like, contains.
  rewrite !list_ascii_of_string_app. simpl.
  rewrite (like_chars_infix _ _ Hp). split.
  - intros (before & rest & Hs).
    exists (string_of_list_ascii before), (string_of_list_ascii rest).
    rewrite <- (string_of_list_ascii_of_string text), Hs.
    rewrite <- (string_of_list_ascii_of_string search) at 2.
    clear. induction before as [|c before IH]; simpl.
    + induction (list_ascii_of_string search) as [|c l IHl]; simpl;
        [reflexivity | rewrite IHl; reflexivity].
    + rewrite IH. reflexivity.
  - intros (before & rest & ->).
    exists (list_ascii_of_string before), (list_ascii_of_string rest).
    rewrite !list_ascii_of_string_app. reflexivity.
Qed.

(** The characters [%], [_] and backslash of a search text are not taken
    literally: the title "abc" is found under the search text "a_c", which
    it does not contain. *)
Lemma sql_like_wildcard :
  sql_like "abc" ("%" +:+ "a_c" +:+ "%") = true /\ ~ contains "a_c" "abc".
Proof.
  split; [reflexivity|]. intros (before & rest & Hs).
  assert (Hl : list_ascii_of_string "abc"
               = list_ascii_of_string (before +:+ "a_c" +:+ rest))
    by (rewrite <- Hs; reflexivity).
  rewrite !list_ascii_of_string_app in Hl. simpl in Hl.
  destruct (list_ascii_of_string before) as [|c0 [|c1 [|c2 [|c3 l]]]];
    simpl in Hl; discriminate.
Qed.

(** ** C3 and C6: creating users *)

(** What a successful [INSERT INTO users] does. *)
Lemma insert_users_ok (v : Users.Insert.t) (now : Z) (db db' : DB) (r : Users.row) :
  insert_users v now db = (db', Ok r) ->
  users db' = (users db ++ [r])%list
  /\ Users.username r = Users.Insert.username v
  /\ Users.email r = Users.Insert.email v
  /\ Users.password r = Users.Insert.password v
  /\ (Users.id r ∉ user_ids db)
  /\ (Users.username r ∉ map Users.username (users db))
  /\ (Users.email r ∉ map Users.email (users db)).
Proof.
  unfold insert_users. insert_fits; [|discriminate|discriminate].
  destruct (serial TUsers (Users.Insert.id v) db) as [i db1] eqn:Es.
  assert (Hu : users db1 = users db).
  { unfold serial in Es. destruct (Users.Insert.id v); inversion Es; reflexivity. }
  simpl.
  repeat case_bool_decide; simpl; intros Heq; inversion Heq; subst; clear Heq.
  simpl. rewrite Hu. repeat split; assumption.
Qed.


(** The id of a row to insert, supplied or drawn from the sequence, fits
    [integer], or the statement fails before its rows are looked at. *)
Lemma insert_fits_id (t : Table) (supplied : option Z) (db : DB) :
  in_int4_opt supplied && has_next t supplied db
  = in_int4 (default (seq_of t db) supplied).
Proof. destruct supplied; simpl; [apply andb_true_r | reflexivity]. Qed.


Lemma getUser_without_password (db : DB) (id : Z) (o : JsObject) :
  getUser db id = Ok (Some o) -> o !! "password" = None.
Proof.
  rewrite getUser_eq. destruct (in_int4 id); [|discriminate].
  destruct (head (sql_where (sql_eq Users.id id) (users db))); [|discriminate].
  intros [= <-]. apply omit_password_lookup.
Qed.

Section CreateUser.
Variable bcrypt_hash : string -> Z -> string -> string.
Variable bcrypt_compare : string -> string -> bool.

(** C3. When [createUser] succeeds, the stored row holds the bcrypt hash
    of the supplied password, and this is the password that the lookups
    by username and by email return; it differs from the supplied text
    as soon as the hash does.  The object [createUser] returns and every
    object [getUser] returns have no [password] property. *)
Theorem C3_password_hashed_and_stripped
    (db db' : DB) (userData : Users.Insert.t) (salt : string) (now : Z)
    (created : JsObject) :
  bcrypt_hash (Users.Insert.password userData) 10 salt
    <> Users.Insert.password userData ->
  createUser bcrypt_hash db userData salt now = (db', Ok created) ->
  (exists user,
      users db' = (users db ++ [user])%list
      /\ Users.password user = bcrypt_hash (Users.Insert.password userData) 10 salt
      /\ Users.password user <> Users.Insert.password userData
      /\ getUserByUsername db' (Users.Insert.username userData) = Ok (Some user)
      /\ getUserByEmail db' (Users.Insert.email userData) = Ok (Some user))
  /\ created !! "password" = None
  /\ (forall id o, getUser db' id = Ok (Some o) -> o !! "password" = None).
Proof.
  intros Hhash. unfold createUser.
  destruct (insert_users _ now db) as [db1 [user|e]] eqn:Ei; [|discriminate].
  intros [= <- <-].
  apply insert_users_ok in Ei.
  destruct Ei as (Hu & Hname & Hmail & Hpw & _ & Hnew_name & Hnew_mail).
  simpl in Hname, Hmail, Hpw.
  split; [|split].
  - exists user. split; [exact Hu|]. split; [exact Hpw|].
    split; [rewrite Hpw; exact Hhash|].
    rewrite getUserByUsername_eq, getUserByEmail_eq.
    rewrite Hu, !sql_where_app. rewrite <- Hname, <- Hmail.
    rewrite (sql_where_eq_absent Users.username) by assumption.
    rewrite (sql_where_eq_absent Users.email) by assumption. simpl.
    unfold sql_eq. rewrite !bool_decide_eq_true_2 by reflexivity.
    split; reflexivity.
  - apply omit_password_lookup.
  - intros id o. apply getUser_without_password.
Qed.

End CreateUser.


(** A user is created and looked up with the stand-in hash. *)
Lemma C3_witness :
  Sample.toy_hash "segredo" 10 "salt" <> "segredo"
  /\ exists db' created,
       createUser Sample.toy_hash Sample.db Sample.carla "salt" 200
       = (db', Ok created)
       /\ (exists user,
             users db' = (users Sample.db ++ [user])%list
             /\ Users.password user = Sample.toy_hash "segredo" 10 "salt"
             /\ Users.password user <> "segredo"
             /\ getUserByUsername db' "carla" = Ok (Some user)
             /\ getUserByEmail db' "carla@x.com" = Ok (Some user))
       /\ created !! "password" = None
       /\ (forall id o, getUser db' id = Ok (Some o) -> o !! "password" = None).
Proof.
  assert (Hhash : Sample.toy_hash "segredo" 10 "salt" <> "segredo")
    by (vm_compute; discriminate).
  split; [exact Hhash|].
  destruct (createUser Sample.toy_hash Sample.db Sample.carla "salt" 200)
    as [db' [created|e]] eqn:Er; [|vm_compute in Er; discriminate].
  exists db', created. split; [reflexivity|].
  exact (C3_password_hashed_and_stripped Sample.toy_hash Sample.db db'
           Sample.carla "salt" 200 created Hhash Er).
Defined.


(** ** C4: deleting a user *)

Lemma cascade_replies_In (fuel : nat) (dead : list Z) (cs : list Comments.row)
    (c : Comments.row) :
  In c (cascade_replies fuel dead cs) -> In c cs.
Proof.
  revert dead cs. induction fuel as [|n IH]; intros dead cs; simpl; [tauto|].
  destruct (sql_where (reply_to dead) cs) as [|g gone]; [tauto|].
  intros Hc. apply IH in Hc. apply sql_delete_In in Hc. tauto.
Qed.

Lemma delete_comments_In (p : Comments.row -> bool) (db : DB) (c : Comments.row) :
  In c (comments (delete_comments p db)) -> In c (comments db) /\ p c = false.
Proof.
  unfold delete_comments. simpl. intros Hc.
  apply cascade_replies_In, sql_delete_In in Hc. exact Hc.
Qed.

(** The rows that are left after the user [userId] is deleted. *)
Lemma delete_user_rows (db db' : DB) (userId : Z) :
  userId ∈ user_ids db ->
  delete_user userId db = Ok db' ->
  in_int4 userId = true
  /\ (forall u, In u (users db') -> In u (users db) /\ Users.id u <> userId)
  /\ (forall p, In p (pets db') -> In p (pets db) /\ Pets.userId p <> userId)
  /\ (forall r, In r (recipes db') ->
        In r (recipes db) /\ Recipes.userId r <> userId)
  /\ (forall c, In c (comments db') ->
        In c (comments db) /\ Comments.userId c <> userId)
  /\ (forall f, In f (favorites db') ->
        In f (favorites db) /\ Favorites.userId f <> userId)
  /\ (forall f, In f (followers db') ->
        In f (followers db)
        /\ Followers.followerId f <> userId /\ Followers.followingId f <> userId).
Proof.
  intros Hex. rewrite delete_user_eq.
  destruct (in_int4 userId); [|discriminate]. intros [= <-].
  split; [reflexivity|].
  set (gone := map Users.id (sql_where (sql_eq Users.id userId) (users db))).
  assert (Hgone : In userId gone).
  { apply list_elem_of_In, in_map_iff in Hex. destruct Hex as (u & Hid & Hu).
    apply in_map_iff. exists u. split; [exact Hid|].
    apply sql_where_In. split; [exact Hu|]. apply sql_eq_true, Hid. }
  assert (Hne : forall x, bool_decide (x ∈ gone) = false -> x <> userId).
  { intros x Hx ->. apply bool_decide_In_false in Hx. contradiction. }
  unfold delete_users. fold gone.
  repeat split.
  - simpl in H. apply sql_delete_In in H. tauto.
  - simpl in H. apply sql_delete_In in H. destruct H as [_ H].
    apply sql_eq_false in H. exact H.
  - simpl in H. apply sql_delete_In in H. tauto.
  - simpl in H. apply sql_delete_In in H. destruct H as [_ H]. apply Hne, H.
  - simpl in H. apply sql_delete_In in H. tauto.
  - simpl in H. apply sql_delete_In in H. destruct H as [_ H]. apply Hne, H.
  - simpl in H. apply cascade_replies_In, sql_delete_In in H. destruct H as [H _].
    apply cascade_replies_In, sql_delete_In in H. tauto.
  - simpl in H. apply cascade_replies_In, sql_delete_In in H. destruct H as [_ H].
    apply Hne, H.
  - simpl in H. apply sql_delete_In in H. destruct H as [H _].
    apply sql_delete_In in H. tauto.
  - simpl in H. apply sql_delete_In in H. destruct H as [_ H]. apply Hne, H.
  - simpl in H. apply sql_delete_In in H. tauto.
  - simpl in H. apply sql_delete_In in H. destruct H as [_ H].
    apply orb_false_iff in H. apply Hne, H.
  - simpl in H. apply sql_delete_In in H. destruct H as [_ H].
    apply orb_false_iff in H. apply Hne, H.
Qed.

Lemma getRecipes_In (db : DB) (options : option Options.t) (l : list Recipes.row)
    (r : Recipes.row) :
  getRecipes db options = Ok l -> In r l -> In r (recipes db).
Proof.
  unfold getRecipes. intros Hrun Hr.
  apply (Query_run_In _ _ _ Hrun) in Hr. destruct Hr as [Hr _].
  revert Hr.
  destruct (truthy_string (options ≫= Options.petType));
    destruct (truthy_string (options ≫= Options.category));
    destruct (truthy_string (options ≫= Options.search)); simpl; tauto.
Qed.

Lemma getFavorites_In (db : DB) (userId : Z) (l : list Recipes.row)
    (r : Recipes.row) :
  getFavorites db userId = Ok l ->
  In r l ->
  In r (recipes db)
  /\ exists f, In f (favorites db)
       /\ Favorites.userId f = userId /\ Favorites.recipeId f = Recipes.id r.
Proof.
  rewrite getFavorites_eq. destruct (in_int4 userId); [|discriminate].
  intros [= <-] Hr. apply in_map_iff in Hr.
  destruct Hr as ([f r'] & Heq & Hin). simpl in Heq. subst r'.
  apply order_by_desc_In, sql_where_In in Hin. destruct Hin as [Hj Hu].
  apply inner_join_In in Hj. destruct Hj as (Hf & Hr & Hon).
  simpl in Hu. unfold sql_eq in Hu.
  apply bool_decide_eq_true in Hu. apply bool_decide_eq_true in Hon.
  split; [exact Hr|]. exists f. repeat split; assumption.
Qed.

(** C4. The row of a user can be deleted, and once it is, no operation of
    the storage class returns a pet, a recipe, a comment or a favorite of
    that user: the lookups by owner are empty and no row that any other
    query returns has the user as its owner. *)
Theorem C4_delete_user_cascades (db : DB) (userId : Z) :
  userId ∈ user_ids db ->
  in_int4 userId = true ->
  exists db',
  delete_user userId db = Ok db'
  /\ getUser db' userId = Ok None
  /\ getPetsByUser db' userId = Ok []
  /\ (forall id pet, getPet db' id = Ok (Some pet) -> Pets.userId pet <> userId)
  /\ getRecipesByUser db' userId = Ok []
  /\ (forall id recipe, getRecipe db' id = Ok (Some recipe) ->
        Recipes.userId recipe <> userId)
  /\ (forall options list_ recipe,
        getRecipes db' options = Ok list_ ->
        In recipe list_ -> Recipes.userId recipe <> userId)
  /\ (forall recipeId list_ comment,
        getComments db' recipeId = Ok list_ ->
        In comment list_ -> Comments.userId comment <> userId)
  /\ (forall commentId list_ comment,
        getReplies db' commentId = Ok list_ ->
        In comment list_ -> Comments.userId comment <> userId)
  /\ getFavorites db' userId = Ok []
  /\ (forall recipeId,
        isFavorite db' userId recipeId
        = if in_int4 recipeId then Ok false else out_of_range)
  /\ (forall other list_ recipe,
        getFavorites db' other = Ok list_ ->
        In recipe list_ -> Recipes.userId recipe <> userId).
Proof.
  intros Hex Hfit.
  destruct (delete_user userId db) as [db'|e] eqn:Hdel;
    [|rewrite delete_user_eq, Hfit in Hdel; discriminate].
  exists db'. split; [reflexivity|].
  destruct (delete_user_rows db db' userId Hex Hdel)
    as (Hfits & Hu & Hp & Hr & Hc & Hf & _).
  repeat apply conj.
  - rewrite getUser_eq, Hfits. rewrite sql_where_none; [reflexivity|].
    intros u Hin. apply sql_eq_false. apply Hu, Hin.
  - rewrite getPetsByUser_eq, Hfits. f_equal. apply sql_where_none.
    intros p Hin. apply sql_eq_false. apply Hp, Hin.
  - intros id pet. rewrite getPet_eq. destruct (in_int4 id); [|discriminate].
    intros [= Hpet]. apply head_In, sql_where_In in Hpet.
    apply Hp. tauto.
  - rewrite getRecipesByUser_eq, Hfits. rewrite sql_where_none; [reflexivity|].
    intros r Hin. apply sql_eq_false. apply Hr, Hin.
  - intros id recipe. rewrite getRecipe_eq. destruct (in_int4 id); [|discriminate].
    intros [= Hrec]. apply head_In, sql_where_In in Hrec.
    apply Hr. tauto.
  - intros options list_ recipe Hrun Hin. apply Hr.
    exact (getRecipes_In _ _ _ _ Hrun Hin).
  - intros recipeId list_ comment. rewrite getComments_eq.
    destruct (in_int4 recipeId); [|discriminate]. intros [= <-] Hin.
    apply order_by_desc_In, sql_where_In in Hin. apply Hc. tauto.
  - intros commentId list_ comment. rewrite getReplies_eq.
    destruct (in_int4 commentId); [|discriminate]. intros [= <-] Hin.
    apply order_by_desc_In, sql_where_In in Hin. apply Hc. tauto.
  - destruct (getFavorites db' userId) as [l|e] eqn:E.
    + f_equal. apply empty_when_no_In. intros r Hin.
      destruct (getFavorites_In _ _ _ _ E Hin) as (_ & f & Hin' & Hown & _).
      apply Hf in Hin'. tauto.
    + rewrite getFavorites_eq, Hfits in E. discriminate.
  - intros recipeId. rewrite isFavorite_eq, Hfits. simpl.
    destruct (in_int4 recipeId); [|reflexivity].
    rewrite sql_where_none; [reflexivity|].
    intros f Hin. unfold sql_and. apply andb_false_iff. left.
    apply sql_eq_false. apply Hf, Hin.
  - intros other list_ recipe Hl Hin.
    destruct (getFavorites_In _ _ _ _ Hl Hin) as (Hrec & _). apply Hr, Hrec.
Qed.

(** Deleting ana from the sample database. *)
Lemma C4_witness :
  1 ∈ user_ids Sample.db
  /\ exists db',
      delete_user 1 Sample.db = Ok db'
      /\ getUser db' 1 = Ok None
      /\ getPetsByUser db' 1 = Ok []
      /\ (forall id pet, getPet db' id = Ok (Some pet) -> Pets.userId pet <> 1)
      /\ getRecipesByUser db' 1 = Ok []
      /\ (forall id recipe, getRecipe db' id = Ok (Some recipe) ->
            Recipes.userId recipe <> 1)
      /\ (forall options list_ recipe,
            getRecipes db' options = Ok list_ ->
            In recipe list_ -> Recipes.userId recipe <> 1)
      /\ (forall recipeId list_ comment,
            getComments db' recipeId = Ok list_ ->
            In comment list_ -> Comments.userId comment <> 1)
      /\ (forall commentId list_ comment,
            getReplies db' commentId = Ok list_ ->
            In comment list_ -> Comments.userId comment <> 1)
      /\ getFavorites db' 1 = Ok []
      /\ (forall recipeId,
            isFavorite db' 1 recipeId
            = if in_int4 recipeId then Ok false else out_of_range)
      /\ (forall other list_ recipe,
            getFavorites db' other = Ok list_ ->
            In recipe list_ -> Recipes.userId recipe <> 1).
Proof.
  assert (Hex : 1 ∈ user_ids Sample.db) by (vm_compute; left).
  split; [exact Hex|].
  exact (C4_delete_user_cascades Sample.db 1 Hex eq_refl).
Defined.

(** ** Serving one request at a time is one way of interleaving *)

Section Interleaving.
Variable bcrypt_hash : string -> Z -> string -> string.
Variable bcrypt_compare : string -> string -> bool.

(** Resumed often enough, a request alone in flight ends as [run] says. *)
Lemma run_resume_n (env : Env) (p : Prog Response) (catch : Response) (db : DB) :
  exists n,
    resume_n bcrypt_hash bcrypt_compare n env
      {| task_prog := p; task_catch := catch |} db
    = (fst (run bcrypt_hash bcrypt_compare env p catch db),
       finished catch (snd (run bcrypt_hash bcrypt_compare env p catch db))).
Proof.
  revert db. induction p as [r| |A c k IH]; intros db.
  - exists O. reflexivity.
  - exists 1%nat. reflexivity.
  - simpl. destruct (perform bcrypt_hash bcrypt_compare env c db) as [db' [a|e]] eqn:E.
    + destruct (IH a db') as [n Hn]. exists (S n). simpl.
      unfold resume. simpl. rewrite E. exact Hn.
    + exists 1%nat. simpl. unfold resume. simpl. rewrite E. reflexivity.
Qed.

Lemma schedule_resume_n (n : nat) (env : Env) (t : Task) (db : DB)
    (tasks : list Task) :
  fold_left (event_step bcrypt_hash bcrypt_compare)
    (repeat (Resume (length tasks) env) n) (db, (tasks ++ [t])%list)
  = (fst (resume_n bcrypt_hash bcrypt_compare n env t db),
     (tasks ++ [snd (resume_n bcrypt_hash bcrypt_compare n env t db)])%list).
Proof.
  revert t db. induction n as [|n IH]; intros t db; [reflexivity|].
  simpl. rewrite list_lookup_middle by reflexivity.
  destruct (resume bcrypt_hash bcrypt_compare env t db) as [db' t'].
  rewrite insert_app_r_alt by reflexivity. rewrite Nat.sub_diag. simpl.
  apply IH.
Qed.

(** A schedule for the requests served so far. *)
Lemma served_schedule (db : DB) :
  served bcrypt_hash bcrypt_compare db ->
  exists events tasks,
    schedule bcrypt_hash bcrypt_compare events = (db, tasks).
Proof.
  intros Hserved. induction Hserved as [|db env req _ (events & tasks & Hsched)].
  - exists [], []. reflexivity.
  - destruct (run_resume_n env (handler req) (catch req) db) as [n Hn].
    exists (events ++ Arrive req :: repeat (Resume (length tasks) env) n)%list.
    eexists. unfold schedule in *. rewrite fold_left_app, Hsched. simpl.
    rewrite schedule_resume_n, Hn. unfold serve. simpl. reflexivity.
Qed.

(** Every state reached by serving requests one at a time is a state the
    event loop can reach. *)
Lemma served_is_interleaved (db : DB) :
  served bcrypt_hash bcrypt_compare db ->
  interleaved bcrypt_hash bcrypt_compare db.
Proof.
  intros Hserved. destruct (served_schedule db Hserved) as (events & tasks & H).
  exists events. rewrite H. reflexivity.
Qed.
End Interleaving.

(** ** C5: one favorite for each user and recipe *)

Lemma favorites_kept_same (db db' : DB) :
  favorites db' = favorites db -> favorites_kept db db'.
Proof.
  intros Hsame. exists (fun _ => false). rewrite Hsame.
  symmetry. apply sql_delete_none. reflexivity.
Qed.

Lemma favorites_kept_unique (db db' : DB) :
  favorites_kept db db' -> favorites_unique db -> favorites_unique db'.
Proof.
  intros (c & Hc). unfold favorites_unique, favorite_pairs. rewrite Hc.
  apply NoDup_map_sql_delete.
Qed.

Lemma insert_users_favorites v now db :
  favorites (fst (insert_users v now db)) = favorites db.
Proof. insert_keeps_favorites. Qed.

Lemma insert_pets_favorites v now db :
  favorites (fst (insert_pets v now db)) = favorites db.
Proof. insert_keeps_favorites. Qed.

Lemma insert_recipes_favorites v now db :
  favorites (fst (insert_recipes v now db)) = favorites db.
Proof. insert_keeps_favorites. Qed.

Lemma insert_comments_favorites v now db :
  favorites (fst (insert_comments v now db)) = favorites db.
Proof. insert_keeps_favorites. Qed.

Lemma insert_followers_favorites v now db :
  favorites (fst (insert_followers v now db)) = favorites db.
Proof. insert_keeps_favorites. Qed.

Lemma update_users_favorites c p db :
  favorites (fst (update_users c p db)) = favorites db.
Proof. unfold update_users. destruct (check_all _); reflexivity. Qed.

Lemma update_pets_favorites c p db :
  favorites (fst (update_pets c p db)) = favorites db.
Proof. unfold update_pets. destruct (check_all _); reflexivity. Qed.

Lemma update_recipes_favorites c p db :
  favorites (fst (update_recipes c p db)) = favorites db.
Proof. unfold update_recipes. destruct (check_all _); reflexivity. Qed.

Section Served.
Variable bcrypt_hash : string -> Z -> string -> string.
Variable bcrypt_compare : string -> string -> bool.

Lemma perform_favorites_kept (env : Env) {A} (c : Call A) (db : DB) :
  is_AddFavorite c = false ->
  favorites_kept db (fst (perform bcrypt_hash bcrypt_compare env c db)).
Proof.
  destruct c; simpl; intros Hc; try discriminate;
    try (apply favorites_kept_same; reflexivity).
  - (* createUser *)
    apply favorites_kept_same. unfold createUser.
    match goal with |- context [insert_users ?v ?n ?d] =>
      rewrite <- (insert_users_favorites v n d);
      destruct (insert_users v n d) as [? [?|?]]; reflexivity end.
  - (* updateUser *)
    apply favorites_kept_same. rewrite updateUser_eq.
    destruct (in_int4 id); [|reflexivity].
    match goal with |- context [update_users ?c ?p ?d] =>
      rewrite <- (update_users_favorites c p d);
      destruct (update_users c p d) as [? [l|?]]; [destruct (head l)|];
      reflexivity end.
  - apply favorites_kept_same. apply insert_pets_favorites.
  - (* updatePet *)
    apply favorites_kept_same. rewrite updatePet_eq.
    destruct (in_int4 id); [|reflexivity].
    match goal with |- context [update_pets ?c ?p ?d] =>
      rewrite <- (update_pets_favorites c p d);
      destruct (update_pets c p d) as [? [?|?]]; reflexivity end.
  - (* deletePet *)
    apply favorites_kept_same. rewrite deletePet_eq.
    destruct (in_int4 id); reflexivity.
  - apply favorites_kept_same. apply insert_recipes_favorites.
  - (* updateRecipe *)
    apply favorites_kept_same. rewrite updateRecipe_eq.
    destruct (in_int4 id); [|reflexivity].
    match goal with |- context [update_recipes ?c ?p ?d] =>
      rewrite <- (update_recipes_favorites c p d);
      destruct (update_recipes c p d) as [? [?|?]]; reflexivity end.
  - (* deleteRecipe *)
    rewrite deleteRecipe_eq.
    destruct (in_int4 id); [|apply favorites_kept_same; reflexivity].
    eexists. reflexivity.
  - apply favorites_kept_same. apply insert_comments_favorites.
  - (* deleteComment *)
    apply favorites_kept_same. rewrite deleteComment_eq.
    destruct (in_int4 id); reflexivity.
  - (* removeFavorite *)
    rewrite removeFavorite_eq.
    destruct (in_int4 userId && in_int4 recipeId);
      [|apply favorites_kept_same; reflexivity].
    eexists. reflexivity.
  - apply favorites_kept_same. apply insert_followers_favorites.
  - (* unfollow *)
    apply favorites_kept_same. rewrite unfollow_eq.
    destruct (in_int4 followerId && in_int4 followingId); reflexivity.
Qed.

Lemma run_no_AddFavorite (env : Env) (p : Prog Response) (catch : Response)
    (db : DB) :
  no_AddFavorite p ->
  favorites_unique db ->
  favorites_unique (fst (run bcrypt_hash bcrypt_compare env p catch db)).
Proof.
  revert db. induction p as [r| |A c k IH]; intros db Hp Hdb; simpl; try exact Hdb.
  destruct Hp as [Hc Hk].
  pose proof (perform_favorites_kept env c db Hc) as Hkept.
  destruct (perform bcrypt_hash bcrypt_compare env c db) as [db' [a|e]];
    simpl in Hkept.
  - apply IH; [apply Hk|]. exact (favorites_kept_unique _ _ Hkept Hdb).
  - simpl. exact (favorites_kept_unique _ _ Hkept Hdb).
Qed.
End Served.

(** Only the handler of [POST /api/recipes/:recipeId/favorite] inserts
    into [favorites]. *)
Lemma handler_no_AddFavorite (req : Request) :
  (forall recipeId, route req <> PostRecipeFavorite recipeId) ->
  no_AddFavorite (handler req).
Proof.
  intros Hroute. unfold handler. destruct (route req) eqn:Er;
    try (exfalso; eapply Hroute; reflexivity);
    unfold post_auth_register, post_auth_login, post_auth_logout, get_auth_me,
      get_pets, get_pet, post_pets, put_pet, delete_pet, get_recipes, get_recipe,
      get_user_recipes, post_recipes, put_recipe, delete_recipe, post_recipe_cook,
      get_recipe_comments, get_comment_replies, post_recipe_comments,
      delete_comment, get_user_favorites, get_recipe_favorite,
      delete_recipe_favorite, get_user_followers, get_user_following,
      get_user_follow, post_user_follow, delete_user_follow, put_users_profile,
      authenticate, parseInt, parse;
    no_AddFavorite_tac.
Qed.

Lemma favorite_found (db : DB) (userId recipeId : Z) :
  (if head (sql_where
              (sql_and (sql_eq Favorites.userId userId)
                       (sql_eq Favorites.recipeId recipeId))
              (favorites db)) is Some _ then true else false) = true
  <-> (userId, recipeId) ∈ favorite_pairs db.
Proof.
  unfold favorite_pairs. rewrite list_elem_of_In, in_map_iff.
  set (c := sql_and (sql_eq Favorites.userId userId)
              (sql_eq Favorites.recipeId recipeId)).
  assert (Hc : forall f, c f = true <->
                 (Favorites.userId f, Favorites.recipeId f) = (userId, recipeId)).
  { intros f. unfold c, sql_and, sql_eq.
    rewrite andb_true_iff, !bool_decide_eq_true. split; [intros [-> ->]|intros [= -> ->]]; tauto. }
  split.
  - destruct (sql_where c (favorites db)) as [|f l] eqn:E; simpl; [discriminate|].
    intros _. exists f.
    assert (Hf : In f (sql_where c (favorites db))) by (rewrite E; left; reflexivity).
    apply sql_where_In in Hf. destruct Hf as [Hin Hcf]. apply Hc in Hcf. tauto.
  - intros (f & Hpair & Hin).
    assert (Hf : In f (sql_where c (favorites db))).
    { apply sql_where_In. split; [exact Hin|]. apply Hc, Hpair. }
    destruct (sql_where c (favorites db)); [destruct Hf | reflexivity].
Qed.

(** [isFavorite] tells whether the pair is in the table, when it is
    asked with numbers that fit. *)
Lemma isFavorite_pairs (db : DB) (userId recipeId : Z) :
  isFavorite db userId recipeId
  = if in_int4 userId && in_int4 recipeId
    then Ok (bool_decide ((userId, recipeId) ∈ favorite_pairs db))
    else out_of_range.
Proof.
  rewrite isFavorite_eq. destruct (in_int4 userId && in_int4 recipeId); [|reflexivity].
  f_equal. apply eq_true_iff_eq.
  rewrite favorite_found, bool_decide_eq_true. reflexivity.
Qed.

Lemma isFavorite_true (db : DB) (userId recipeId : Z) :
  isFavorite db userId recipeId = Ok true ->
  (userId, recipeId) ∈ favorite_pairs db.
Proof.
  rewrite isFavorite_pairs. destruct (_ && _); [|discriminate].
  intros [= H]. apply bool_decide_eq_true in H. exact H.
Qed.

Lemma isFavorite_false (db : DB) (userId recipeId : Z) :
  isFavorite db userId recipeId = Ok false ->
  (userId, recipeId) ∉ favorite_pairs db.
Proof.
  rewrite isFavorite_pairs. destruct (_ && _); [|discriminate].
  intros [= H]. apply bool_decide_eq_false in H. exact H.
Qed.

(** What an [INSERT INTO favorites] does to the table. *)
Lemma insert_favorites_rows (v : Favorites.Insert.t) (now : Z) (db : DB) :
  match insert_favorites v now db with
  | (db', Ok f) =>
      favorites db' = (favorites db ++ [f])%list
      /\ Favorites.userId f = Favorites.Insert.userId v
      /\ Favorites.recipeId f = Favorites.Insert.recipeId v
      /\ users db' = users db /\ recipes db' = recipes db
  | (db', Err _) => same_rows db' db
  end.
Proof.
  unfold insert_favorites. insert_fits; [|repeat split|repeat split].
  unfold serial.
  destruct (Favorites.Insert.id v); cbv beta match zeta;
    destruct (check_all _); simpl; repeat split.
Qed.

Lemma favorites_unique_snoc (db db' : DB) (f : Favorites.row) :
  favorites db' = (favorites db ++ [f])%list ->
  isFavorite db (Favorites.userId f) (Favorites.recipeId f) = Ok false ->
  favorites_unique db -> favorites_unique db'.
Proof.
  unfold favorites_unique. intros Hf Hnew Hnd.
  assert (Hpairs : favorite_pairs db'
            = (favorite_pairs db ++ [(Favorites.userId f, Favorites.recipeId f)])%list).
  { unfold favorite_pairs. rewrite Hf, map_app. reflexivity. }
  rewrite Hpairs. apply NoDup_app. split; [exact Hnd|]. split.
  - intros p Hp Hp'. apply list_elem_of_In in Hp'. destruct Hp' as [<-|[]].
    apply isFavorite_false in Hnew. contradiction.
  - apply NoDup_singleton.
Qed.

Section ServedFavorites.
Variable bcrypt_hash : string -> Z -> string -> string.
Variable bcrypt_compare : string -> string -> bool.

Lemma post_recipe_favorite_unique (env : Env) (session recipeId : option Z)
    (catch : Response) (db : DB) :
  favorites_unique db ->
  favorites_unique
    (fst (run bcrypt_hash bcrypt_compare env
            (post_recipe_favorite session recipeId) catch db)).
Proof.
  intros Hdb. unfold post_recipe_favorite, authenticate, parseInt.
  destruct (truthy_number session) as [userId|]; cbn; [|exact Hdb].
  destruct (getUser db userId) as [[user|]|]; cbn; try exact Hdb.
  destruct recipeId as [recipeId|]; cbn; [|exact Hdb].
  destruct (getRecipe db recipeId) as [[recipe|]|]; cbn; try exact Hdb.
  destruct (isFavorite db userId recipeId) as [[|]|] eqn:Efav; cbn; try exact Hdb.
  unfold addFavorite.
  pose proof (insert_favorites_rows (insertFavoriteSchema userId recipeId)
                (now env) db) as Hins.
  destruct (insert_favorites (insertFavoriteSchema userId recipeId) (now env) db)
    as [db' [f|e]]; simpl.
  - destruct Hins as (Hf & Hu & Hr & _). simpl in Hu, Hr.
    apply (favorites_unique_snoc db db' f Hf); [|exact Hdb].
    rewrite Hu, Hr. exact Efav.
  - destruct Hins as (_ & _ & _ & _ & Hf & _).
    unfold favorites_unique, favorite_pairs. rewrite Hf. exact Hdb.
Qed.

Lemma serve_favorites_unique (env : Env) (req : Request) (db : DB) :
  favorites_unique db ->
  favorites_unique (fst (serve bcrypt_hash bcrypt_compare env req db)).
Proof.
  intros Hdb. unfold serve.
  destruct (route req) as
    [ | | | | | | | | | | | | | | | | | | | | | | recipeId | | | | | | | ] eqn:Er.
  23: { unfold handler. rewrite Er. apply post_recipe_favorite_unique, Hdb. }
  all: apply run_no_AddFavorite; [|exact Hdb];
    apply handler_no_AddFavorite; intros recipeId'; rewrite Er; discriminate.
Qed.

(** A favorite that is there is not inserted again. *)
Lemma post_recipe_favorite_again (env : Env) (session : option Z)
    (userId recipeId : Z) (db : DB) :
  truthy_number session = Some userId ->
  (exists user, getUser db userId = Ok (Some user)) ->
  (exists recipe, getRecipe db recipeId = Ok (Some recipe)) ->
  isFavorite db userId recipeId = Ok true ->
  serve bcrypt_hash bcrypt_compare env
    {| session := session; route := PostRecipeFavorite (Some recipeId) |} db
  = (db, message 400 "Recipe already favorited").
Proof.
  intros Hs [user Hu] [recipe Hr] Hf. unfold serve, handler. cbn.
  unfold post_recipe_favorite, authenticate, parseInt. rewrite Hs. cbn.
  rewrite Hu. cbn. rewrite Hr. cbn. rewrite Hf. reflexivity.
Qed.

(** What a favorite request that is answered 201 has done. *)
Lemma post_recipe_favorite_created (env : Env) (session recipeId : option Z)
    (db db' : DB) (response : Response) :
  serve bcrypt_hash bcrypt_compare env
    {| session := session; route := PostRecipeFavorite recipeId |} db
  = (db', response) ->
  status response = 201 ->
  exists userId recipe f,
    truthy_number session = Some userId
    /\ recipeId = Some recipe
    /\ (exists user, getUser db userId = Ok (Some user))
    /\ (exists row, getRecipe db recipe = Ok (Some row))
    /\ isFavorite db userId recipe = Ok false
    /\ users db' = users db
    /\ recipes db' = recipes db
    /\ favorites db' = (favorites db ++ [f])%list
    /\ Favorites.userId f = userId
    /\ Favorites.recipeId f = recipe.
Proof.
  unfold serve, handler. cbn. unfold post_recipe_favorite, authenticate, parseInt.
  destruct (truthy_number session) as [userId|]; cbn;
    [|intros [= <- <-]; discriminate].
  destruct (getUser db userId) as [[user|]|] eqn:Eu; cbn;
    try (intros [= <- <-]; discriminate).
  destruct recipeId as [recipe|]; cbn; [|intros [= <- <-]; discriminate].
  destruct (getRecipe db recipe) as [[row|]|] eqn:Erec; cbn;
    try (intros [= <- <-]; discriminate).
  destruct (isFavorite db userId recipe) as [[|]|] eqn:Efav; cbn;
    try (intros [= <- <-]; discriminate).
  unfold addFavorite.
  pose proof (insert_favorites_rows (insertFavoriteSchema userId recipe)
                (now env) db) as Hins.
  destruct (insert_favorites (insertFavoriteSchema userId recipe) (now env) db)
    as [db1 [f|e]]; cbn; [|intros [= <- <-]; discriminate].
  intros [= <- <-] _. destruct Hins as (Hf & Hfu & Hfr & Hus & Hrs).
  exists userId, recipe, f. simpl in Hfu, Hfr.
  repeat match goal with |- _ /\ _ => split end; eauto.
Qed.
End ServedFavorites.

(** *** Favorites keep pointing to users and recipes *)

Lemma check_all_cons (b : bool) (e : DbError) (rest : list (bool * DbError)) :
  check_all ((b, e) :: rest) = None -> b = true /\ check_all rest = None.
Proof. destruct b; simpl; [tauto | discriminate]. Qed.

(** A key that rows point to is still a key after an accepted update. *)
Lemma referenced_after_In {Row} (key : Row -> Z) (refs : list Z)
    (c : Row -> bool) (set : Row -> Row) (t : list Row) (x : Z) :
  referenced_after key refs c set t = true ->
  In x refs -> In x (map key t) -> In x (map key (sql_update c set t)).
Proof.
  intros Hcheck Href Hx. apply in_map_iff in Hx. destruct Hx as (r & <- & Hr).
  destruct (c r) eqn:Ec.
  - unfold referenced_after in Hcheck.
    rewrite forallb_forall in Hcheck.
    specialize (Hcheck r ltac:(apply sql_where_In; tauto)).
    apply orb_true_iff in Hcheck. destruct Hcheck as [Hno|Hyes].
    + apply bool_decide_eq_true in Hno. exfalso. apply Hno, list_elem_of_In, Href.
    + apply bool_decide_eq_true, list_elem_of_In in Hyes. exact Hyes.
  - unfold sql_update. rewrite map_map. apply in_map_iff. exists r.
    rewrite Ec. tauto.
Qed.

Lemma favorites_refer_same (db db' : DB) :
  favorites db' = favorites db ->
  (forall x, In x (user_ids db) -> In x (user_ids db')) ->
  (forall x, In x (recipe_ids db) -> In x (recipe_ids db')) ->
  favorites_refer db -> favorites_refer db'.
Proof.
  intros Hf Hu Hr Hdb f Hin. rewrite Hf in Hin.
  destruct (Hdb f Hin) as (H0 & H1 & H2 & H3 & H4). auto 6.
Qed.

Lemma insert_users_refer v now db :
  favorites_refer db -> favorites_refer (fst (insert_users v now db)).
Proof.
  apply favorites_refer_same; unfold insert_users, user_ids, recipe_ids;
    (insert_fits; [|simpl; try reflexivity; tauto|simpl; try reflexivity; tauto]);
    unfold serial;
    destruct (Users.Insert.id v); cbv beta match zeta;
    destruct (check_all _); simpl; try reflexivity; try tauto;
    intros x Hx; rewrite map_app; apply in_or_app; tauto.
Qed.

Lemma insert_recipes_refer v now db :
  favorites_refer db -> favorites_refer (fst (insert_recipes v now db)).
Proof.
  apply favorites_refer_same; unfold insert_recipes, user_ids, recipe_ids;
    (insert_fits; [|simpl; try reflexivity; tauto|simpl; try reflexivity; tauto]);
    unfold serial;
    destruct (Recipes.Insert.id v); cbv beta match zeta;
    destruct (check_all _); simpl; try reflexivity; try tauto;
    intros x Hx; rewrite map_app; apply in_or_app; tauto.
Qed.

Lemma insert_pets_refer v now db :
  favorites_refer db -> favorites_refer (fst (insert_pets v now db)).
Proof.
  apply favorites_refer_same; unfold insert_pets, user_ids, recipe_ids;
    (insert_fits; [|simpl; try reflexivity; tauto|simpl; try reflexivity; tauto]);
    unfold serial;
    destruct (Pets.Insert.id v); cbv beta match zeta;
    destruct (check_all _); simpl; try reflexivity; tauto.
Qed.

Lemma insert_comments_refer v now db :
  favorites_refer db -> favorites_refer (fst (insert_comments v now db)).
Proof.
  apply favorites_refer_same; unfold insert_comments, user_ids, recipe_ids;
    (insert_fits; [|simpl; try reflexivity; tauto|simpl; try reflexivity; tauto]);
    unfold serial;
    destruct (Comments.Insert.id v); cbv beta match zeta;
    destruct (check_all _); simpl; try reflexivity; tauto.
Qed.

Lemma insert_followers_refer v now db :
  favorites_refer db -> favorites_refer (fst (insert_followers v now db)).
Proof.
  apply favorites_refer_same; unfold insert_followers, user_ids, recipe_ids;
    (insert_fits; [|simpl; try reflexivity; tauto|simpl; try reflexivity; tauto]);
    unfold serial;
    destruct (Followers.Insert.id v); cbv beta match zeta;
    destruct (check_all _); simpl; try reflexivity; tauto.
Qed.

Lemma update_pets_refer c p db :
  favorites_refer db -> favorites_refer (fst (update_pets c p db)).
Proof.
  apply favorites_refer_same; unfold update_pets;
    destruct (check_all _); simpl; try reflexivity; tauto.
Qed.

Lemma update_users_refer c p db :
  favorites_refer db -> favorites_refer (fst (update_users c p db)).
Proof.
  intros Hdb. unfold update_users.
  destruct (check_all _) eqn:Echeck; simpl; [exact Hdb|].
  do 7 (apply check_all_cons in Echeck; destruct Echeck as [_ Echeck]).
  apply check_all_cons in Echeck. destruct Echeck as [Hkept _].
  intros f Hin. simpl in Hin. destruct (Hdb f Hin) as (H0 & H1 & H2).
  split; [exact H0|]. split; [|exact H2].
  unfold user_ids in *. simpl.
  apply (referenced_after_In _ _ _ _ _ _ Hkept); [|exact H1].
  apply in_map, Hin.
Qed.

Lemma update_recipes_refer c p db :
  favorites_refer db -> favorites_refer (fst (update_recipes c p db)).
Proof.
  intros Hdb. unfold update_recipes.
  destruct (check_all _) eqn:Echeck; simpl; [exact Hdb|].
  do 4 (apply check_all_cons in Echeck; destruct Echeck as [_ Echeck]).
  apply check_all_cons in Echeck. destruct Echeck as [Hkept _].
  intros f Hin. simpl in Hin. destruct (Hdb f Hin) as (H0 & H1 & H2 & H34).
  split; [exact H0|]. split; [exact H1|]. split; [|exact H34].
  unfold recipe_ids in *. simpl.
  apply (referenced_after_In _ _ _ _ _ _ Hkept); [|exact H2].
  apply in_map, Hin.
Qed.

Lemma delete_recipes_refer c db :
  favorites_refer db -> favorites_refer (delete_recipes c db).
Proof.
  intros Hdb f Hin. unfold delete_recipes in *. simpl in *.
  apply sql_delete_In in Hin. destruct Hin as [Hin Hkeep].
  destruct (Hdb f Hin) as (H0 & H1 & H2 & H34).
  split; [exact H0|]. split; [exact H1|]. split; [|exact H34].
  unfold recipe_ids in *. simpl.
  apply in_map_iff in H2. destruct H2 as (r & Hid & Hr).
  apply in_map_iff. exists r. split; [exact Hid|].
  apply sql_delete_In. split; [exact Hr|].
  destruct (c r) eqn:Ec; [|reflexivity]. exfalso.
  apply bool_decide_eq_false in Hkeep. apply Hkeep, list_elem_of_In.
  rewrite <- Hid. apply in_map. apply sql_where_In. tauto.
Qed.

Lemma delete_favorites_refer c db :
  favorites_refer db -> favorites_refer (delete_favorites c db).
Proof.
  intros Hdb f Hin. unfold delete_favorites in Hin. simpl in Hin.
  apply sql_delete_In in Hin. destruct Hin as [Hin _]. exact (Hdb f Hin).
Qed.

Section Refer.
Variable bcrypt_hash : string -> Z -> string -> string.
Variable bcrypt_compare : string -> string -> bool.

Lemma perform_favorites_refer (env : Env) {A} (c : Call A) (db : DB) :
  is_AddFavorite c = false ->
  favorites_refer db ->
  favorites_refer (fst (perform bcrypt_hash bcrypt_compare env c db)).
Proof.
  destruct c; simpl; intros Hc Hdb; try discriminate; try exact Hdb.
  - unfold createUser.
    match goal with |- context [insert_users ?v ?n ?d] =>
      pose proof (insert_users_refer v n d Hdb) as Hnew;
      destruct (insert_users v n d) as [? [?|?]]; exact Hnew end.
  - rewrite updateUser_eq. destruct (in_int4 id); [|exact Hdb].
    match goal with |- context [update_users ?c ?p ?d] =>
      pose proof (update_users_refer c p d Hdb) as Hnew;
      destruct (update_users c p d) as [? [l|?]]; [destruct (head l)|];
      exact Hnew end.
  - apply insert_pets_refer, Hdb.
  - rewrite updatePet_eq. destruct (in_int4 id); [|exact Hdb].
    match goal with |- context [update_pets ?c ?p ?d] =>
      pose proof (update_pets_refer c p d Hdb) as Hnew;
      destruct (update_pets c p d) as [? [?|?]]; exact Hnew end.
  - rewrite deletePet_eq. destruct (in_int4 id); exact Hdb.
  - apply insert_recipes_refer, Hdb.
  - rewrite updateRecipe_eq. destruct (in_int4 id); [|exact Hdb].
    match goal with |- context [update_recipes ?c ?p ?d] =>
      pose proof (update_recipes_refer c p d Hdb) as Hnew;
      destruct (update_recipes c p d) as [? [?|?]]; exact Hnew end.
  - rewrite deleteRecipe_eq. destruct (in_int4 id); [|exact Hdb].
    apply delete_recipes_refer, Hdb.
  - apply insert_comments_refer, Hdb.
  - rewrite deleteComment_eq. destruct (in_int4 id); exact Hdb.
  - rewrite removeFavorite_eq.
    destruct (in_int4 userId && in_int4 recipeId); [|exact Hdb].
    apply delete_favorites_refer, Hdb.
  - apply insert_followers_refer, Hdb.
  - rewrite unfollow_eq.
    destruct (in_int4 followerId && in_int4 followingId); exact Hdb.
Qed.

Lemma run_favorites_refer (env : Env) (p : Prog Response) (catch : Response)
    (db : DB) :
  no_AddFavorite p ->
  favorites_refer db ->
  favorites_refer (fst (run bcrypt_hash bcrypt_compare env p catch db)).
Proof.
  revert db. induction p as [r| |A c k IH]; intros db Hp Hdb; simpl; try exact Hdb.
  destruct Hp as [Hc Hk].
  pose proof (perform_favorites_refer env c db Hc Hdb) as Hnew.
  destruct (perform bcrypt_hash bcrypt_compare env c db) as [db' [a|e]];
    simpl in Hnew.
  - apply IH; [apply Hk | exact Hnew].
  - exact Hnew.
Qed.
End Refer.

Lemma truthy_number_nonzero (session : option Z) (userId : Z) :
  truthy_number session = Some userId -> session = Some userId /\ userId <> 0.
Proof.
  unfold truthy_number. destruct session as [n|]; [|discriminate].
  destruct (decide (n = 0)); [discriminate|]. intros [= <-]. tauto.
Qed.

Lemma insert_favorites_refer v now db :
  Favorites.Insert.userId v <> 0 ->
  favorites_refer db -> favorites_refer (fst (insert_favorites v now db)).
Proof.
  intros Hnz Hdb. unfold insert_favorites.
  destruct (in_int4_opt (Favorites.Insert.id v)
            && in_int4 (Favorites.Insert.userId v)
            && in_int4 (Favorites.Insert.recipeId v)) eqn:Hfits;
    cbn [negb]; [|exact Hdb].
  destruct (has_next TFavorites (Favorites.Insert.id v) db);
    cbn [negb]; [|exact Hdb].
  apply andb_true_iff in Hfits. destruct Hfits as [Hfits Hfr].
  apply andb_true_iff in Hfits. destruct Hfits as [_ Hfu].
  unfold serial.
  destruct (Favorites.Insert.id v); cbv beta match zeta;
    (destruct (check_all _) eqn:Echeck; simpl; [exact Hdb|]);
    apply check_all_cons in Echeck; destruct Echeck as [_ Echeck];
    apply check_all_cons in Echeck; destruct Echeck as [Hu Echeck];
    apply check_all_cons in Echeck; destruct Echeck as [Hr _];
    apply bool_decide_eq_true, list_elem_of_In in Hu;
    apply bool_decide_eq_true, list_elem_of_In in Hr;
    intros f Hin; simpl in Hin; apply in_app_or in Hin;
    (destruct Hin as [Hin|[<-|[]]]; [exact (Hdb f Hin)|]);
    simpl in *; auto 6.
Qed.

Section ServedRefer.
Variable bcrypt_hash : string -> Z -> string -> string.
Variable bcrypt_compare : string -> string -> bool.

Lemma post_recipe_favorite_refer (env : Env) (session recipeId : option Z)
    (catch : Response) (db : DB) :
  favorites_refer db ->
  favorites_refer
    (fst (run bcrypt_hash bcrypt_compare env
            (post_recipe_favorite session recipeId) catch db)).
Proof.
  intros Hdb. unfold post_recipe_favorite, authenticate, parseInt.
  destruct (truthy_number session) as [userId|] eqn:Es; cbn; [|exact Hdb].
  apply truthy_number_nonzero in Es. destruct Es as [_ Hnz].
  destruct (getUser db userId) as [[user|]|]; cbn; try exact Hdb.
  destruct recipeId as [recipeId|]; cbn; [|exact Hdb].
  destruct (getRecipe db recipeId) as [[recipe|]|]; cbn; try exact Hdb.
  destruct (isFavorite db userId recipeId) as [[|]|]; cbn; try exact Hdb.
  unfold addFavorite.
  pose proof (insert_favorites_refer (insertFavoriteSchema userId recipeId)
                (now env) db Hnz Hdb) as Hnew.
  destruct (insert_favorites (insertFavoriteSchema userId recipeId) (now env) db)
    as [db' [f|e]]; exact Hnew.
Qed.

Lemma serve_favorites_refer (env : Env) (req : Request) (db : DB) :
  favorites_refer db ->
  favorites_refer (fst (serve bcrypt_hash bcrypt_compare env req db)).
Proof.
  intros Hdb. unfold serve.
  destruct (route req) as
    [ | | | | | | | | | | | | | | | | | | | | | | recipeId | | | | | | | ] eqn:Er.
  23: { unfold handler. rewrite Er. apply post_recipe_favorite_refer, Hdb. }
  all: apply run_favorites_refer; [|exact Hdb];
    apply handler_no_AddFavorite; intros recipeId'; rewrite Er; discriminate.
Qed.

Lemma served_favorites_refer (db : DB) :
  served bcrypt_hash bcrypt_compare db -> favorites_refer db.
Proof.
  intros Hserved. induction Hserved as [|db env req _ IH].
  - intros f [].
  - apply serve_favorites_refer, IH.
Qed.

Lemma id_present_getUser (db : DB) (id : Z) :
  In id (user_ids db) -> in_int4 id = true ->
  exists user, getUser db id = Ok (Some user).
Proof.
  intros Hin Hfits. rewrite getUser_eq, Hfits.
  destruct (sql_where_eq_present Users.id id (users db)) as (u & ->);
    [apply list_elem_of_In, Hin | eauto].
Qed.

Lemma id_present_getRecipe (db : DB) (id : Z) :
  In id (recipe_ids db) -> in_int4 id = true ->
  exists recipe, getRecipe db id = Ok (Some recipe).
Proof.
  intros Hin Hfits. rewrite getRecipe_eq, Hfits.
  destruct (sql_where_eq_present Recipes.id id (recipes db)) as (u & ->);
    [apply list_elem_of_In, Hin | eauto].
Qed.
End ServedRefer.

(** C5, as stated, fails once requests overlap.  Two requests to favorite
    recipe 1 with the session of user 1 both pass [isFavorite] before
    either reaches [addFavorite]; both are answered 201 and the table
    holds the pair twice. *)
Lemma C5_counterexample :
  interleaved Sample.toy_hash Sample.toy_compare Sample.after_double_click
  /\ favorite_pairs Sample.after_double_click = [(1, 1); (1, 1)]
  /\ ~ favorites_unique Sample.after_double_click.
Proof.
  split; [exists Sample.double_click; reflexivity|].
  assert (Hpairs : favorite_pairs Sample.after_double_click = [(1, 1); (1, 1)])
    by (vm_compute; reflexivity).
  split; [exact Hpairs|].
  unfold favorites_unique. rewrite Hpairs. intros Hnd.
  apply NoDup_cons in Hnd. destruct Hnd as [Hnotin _]. apply Hnotin. left.
Qed.

(** A request to favorite a recipe that repeats one answered 201 is
    answered 400, in any database. *)
Lemma post_recipe_favorite_twice
    (bcrypt_hash : string -> Z -> string -> string)
    (bcrypt_compare : string -> string -> bool)
    (db db' : DB) (env env' : Env) (session recipeId : option Z)
    (response : Response) :
  serve bcrypt_hash bcrypt_compare env
    {| session := session; route := PostRecipeFavorite recipeId |} db
  = (db', response) ->
  status response = 201 ->
  serve bcrypt_hash bcrypt_compare env'
    {| session := session; route := PostRecipeFavorite recipeId |} db'
  = (db', message 400 "Recipe already favorited").
Proof.
  intros Hfirst Hcreated.
  destruct (post_recipe_favorite_created _ _ _ _ _ _ _ _ Hfirst Hcreated)
    as (userId & recipe & f & Hs & -> & Hu & Hr & Hno & Hus & Hrs & Hf & Hfu
        & Hfr).
  apply (post_recipe_favorite_again _ _ _ _ userId).
  - exact Hs.
  - rewrite getUser_eq in *. rewrite Hus. exact Hu.
  - rewrite getRecipe_eq in *. rewrite Hrs. exact Hr.
  - rewrite isFavorite_pairs in *.
    destruct (in_int4 userId && in_int4 recipe); [|discriminate].
    f_equal. apply bool_decide_eq_true.
    unfold favorite_pairs. rewrite Hf, map_app.
    apply list_elem_of_In, in_or_app. right. left. congruence.
Qed.

(** C5, amended.  When requests are served one at a time, every state the
    handlers reach from the empty database has at most one favorite for
    each pair of a user and a recipe, and in every such state a request of
    a user to favorite a recipe that is a favorite of that user already is
    answered 400 and changes nothing. *)
Theorem C5_favorites_unique_when_served
    (bcrypt_hash : string -> Z -> string -> string)
    (bcrypt_compare : string -> string -> bool) :
  (forall db, served bcrypt_hash bcrypt_compare db -> favorites_unique db)
  /\ (forall db env userId recipeId,
        served bcrypt_hash bcrypt_compare db ->
        In (userId, recipeId) (favorite_pairs db) ->
        serve bcrypt_hash bcrypt_compare env
          {| session := Some userId; route := PostRecipeFavorite (Some recipeId) |}
          db
        = (db, message 400 "Recipe already favorited")).
Proof.
  split.
  - intros db Hserved. induction Hserved as [|db env req _ IH].
    + constructor.
    + apply serve_favorites_unique, IH.
  - intros db env userId recipeId Hserved Hpair.
    pose proof (served_favorites_refer _ _ _ Hserved) as Hrefer.
    assert (Hf := Hpair). unfold favorite_pairs in Hf. apply in_map_iff in Hf.
    destruct Hf as (f & [= <- <-] & Hf).
    destruct (Hrefer f Hf) as (Hnz & Hu & Hr & Hfu & Hfr).
    apply (post_recipe_favorite_again _ _ _ _ (Favorites.userId f)).
    + unfold truthy_number. destruct (decide (Favorites.userId f = 0)); tauto.
    + apply id_present_getUser; assumption.
    + apply id_present_getRecipe; assumption.
    + rewrite isFavorite_pairs, Hfu, Hfr. simpl. f_equal.
      apply bool_decide_eq_true, list_elem_of_In, Hpair.
Qed.

(** Carla registers, publishes a recipe and favorites it; the second
    request to favorite it is refused. *)
Lemma C5_witness :
  served Sample.toy_hash Sample.toy_compare Sample.after_favorite
  /\ In (1, 1) (favorite_pairs Sample.after_favorite)
  /\ favorites_unique Sample.after_favorite
  /\ serve Sample.toy_hash Sample.toy_compare (Sample.env 4)
       Sample.favorite_it Sample.after_favorite
     = (Sample.after_favorite, message 400 "Recipe already favorited").
Proof.
  destruct (C5_favorites_unique_when_served Sample.toy_hash Sample.toy_compare)
    as [Hunique Hagain].
  assert (Hserved : served Sample.toy_hash Sample.toy_compare Sample.after_favorite).
  { unfold Sample.after_favorite, Sample.after_publish, Sample.after_register.
    repeat apply served_next. apply served_init. }
  assert (Hpair : In (1, 1) (favorite_pairs Sample.after_favorite))
    by (vm_compute; left; reflexivity).
  split; [exact Hserved|]. split; [exact Hpair|].
  split; [exact (Hunique _ Hserved)|].
  exact (Hagain Sample.after_favorite (Sample.env 4) 1 1 Hserved Hpair).
Defined.
(** ** C7: top-level comments and replies *)

(** C7. [getComments recipeId] is exactly the comments of the recipe that
    have no parent, and [getReplies commentId] exactly the comments whose
    parent is [commentId]; both come newest first by [createdAt], and no
    comment with a parent is among the former.  (Either call is rejected
    only for an id that [integer] cannot hold.) *)
Theorem C7_getComments_getReplies (db : DB) :
  (forall recipeId,
     match getComments db recipeId with
     | Ok list_ =>
         list_ ≡ₚ
           filter
             (fun c => Comments.recipeId c = recipeId /\ Comments.parentId c = None)
             (comments db)
         /\ newest_first Comments.createdAt list_
         /\ Forall (fun c => Comments.parentId c = None) list_
     | Err e => in_int4 recipeId = false
     end)
  /\ (forall commentId,
        match getReplies db commentId with
        | Ok list_ =>
            list_ ≡ₚ
              filter (fun c => Comments.parentId c = Some commentId) (comments db)
            /\ newest_first Comments.createdAt list_
        | Err e => in_int4 commentId = false
        end).
Proof.
  split.
  - intros recipeId. rewrite getComments_eq.
    destruct (in_int4 recipeId); [|reflexivity].
    assert (Hf : sql_where
                   (sql_and (sql_eq Comments.recipeId recipeId)
                      (sql_isNull Comments.parentId)) (comments db)
                 = filter (fun c => Comments.recipeId c = recipeId
                                    /\ Comments.parentId c = None) (comments db)).
    { apply sql_where_filter. intros c. unfold sql_and, sql_eq, sql_isNull.
      rewrite andb_true_iff, bool_decide_eq_true.
      destruct (Comments.parentId c); intuition congruence. }
    rewrite Hf. split; [apply order_by_desc_perm|].
    split; [apply order_by_desc_sorted|].
    rewrite order_by_desc_perm. apply Forall_forall.
    intros c Hc. apply list_elem_of_filter in Hc. tauto.
  - intros commentId. rewrite getReplies_eq.
    destruct (in_int4 commentId); [|reflexivity].
    rewrite (sql_where_filter _ (fun c => Comments.parentId c = Some commentId)).
    + split; [apply order_by_desc_perm | apply order_by_desc_sorted].
    + intros c. unfold sql_eq_nullable. apply bool_decide_eq_true.
Qed.

(** ** C8: the delete operations report success *)




(** The cascade of replies is complete: when it is done, no comment that
    is left replies to a comment that is gone. *)
Lemma cascade_replies_closed (fuel : nat) (dead : list Z) (cs : list Comments.row) :
  (length cs <= fuel)%nat ->
  exists dead',
    (forall p, In p dead -> In p dead')
    /\ (forall c, In c (cascade_replies fuel dead cs) -> reply_to dead' c = false)
    /\ (forall c, In c cs -> In c (cascade_replies fuel dead cs)
                             \/ In (Comments.id c) dead').
Proof.
  revert dead cs. induction fuel as [|n IH]; intros dead cs Hlen.
  - destruct cs; [|simpl in Hlen; lia]. exists dead. simpl. tauto.
  - simpl. destruct (sql_where (reply_to dead) cs) as [|g gone] eqn:Eg.
    + exists dead. split; [tauto|]. split; [|tauto].
      intros c Hc. destruct (reply_to dead c) eqn:Er; [|reflexivity].
      assert (In c (sql_where (reply_to dead) cs)) as Hin
          by (apply sql_where_In; tauto).
      rewrite Eg in Hin. destruct Hin.
    + assert (Hg : In g cs /\ reply_to dead g = true).
      { apply sql_where_In. rewrite Eg. left. reflexivity. }
      destruct Hg as [Hg Hr].
      pose proof (sql_delete_shorter (reply_to dead) cs g Hg Hr) as Hshort.
      destruct (IH (map Comments.id (g :: gone) ++ dead)%list
                  (sql_delete (reply_to dead) cs) ltac:(lia))
        as (dead' & Hsub & Hclosed & Hall).
      exists dead'. split; [|split].
      * intros p Hp. apply Hsub. apply in_or_app. right. exact Hp.
      * exact Hclosed.
      * intros c Hc. destruct (reply_to dead c) eqn:Ec.
        -- right. apply Hsub. apply in_or_app. left. apply in_map.
           rewrite <- Eg. apply sql_where_In. tauto.
        -- apply Hall. apply sql_delete_In. tauto.
Qed.

(** After [delete_comments] every comment that is left has its parent, if
    it has one, outside the comments that went. *)
Lemma delete_comments_closed (c : Comments.row -> bool) (db : DB) :
  exists dead,
    (forall x, In x (comments db) ->
       In x (comments (delete_comments c db)) \/ In (Comments.id x) dead)
    /\ (forall x, In x (comments (delete_comments c db)) -> reply_to dead x = false).
Proof.
  unfold delete_comments. simpl.
  destruct (cascade_replies_closed (length (comments db))
              (map Comments.id (sql_where c (comments db)))
              (sql_delete c (comments db)))
    as (dead & Hsub & Hclosed & Hall).
  { pose proof (List.filter_length_le (fun r => negb (c r)) (comments db)).
    unfold sql_delete. lia. }
  exists dead. split; [|exact Hclosed].
  intros x Hx. destruct (c x) eqn:Ec.
  - right. apply Hsub. apply in_map. apply sql_where_In. tauto.
  - apply Hall. apply sql_delete_In. tauto.
Qed.







(** An id or a number of a column that does not fit is what the update is
    refused for. *)
Lemma updatePet_out_of_range (db : DB) (id : Z) (petData : Pets.Partial.t)
    (now : Z) :
  in_int4 id
  && in_int4_opt (Pets.Partial.id petData)
  && in_int4_opt (Pets.Partial.userId petData)
  && in_int4_opt (mjoin (Pets.Partial.age petData))
  && in_int4_opt (mjoin (Pets.Partial.weight petData)) = false ->
  updatePet db id petData now = (db, out_of_range).
Proof.
  rewrite updatePet_eq. destruct (in_int4 id); [|reflexivity].
  unfold update_pets. simpl. intros ->. reflexivity.
Qed.


Lemma sql_update_table {Row} (key : Row -> Z) (id : Z) (set : Row -> Row)
    (updated : Row -> Row -> Prop) (t : list Row) :
  (forall r, updated r (set r)) ->
  table_updated key id updated t (sql_update (sql_eq key id) set t).
Proof.
  intros Hset. unfold table_updated. eexists. split; [reflexivity|].
  unfold sql_update, sql_eq.
  induction t as [|r t IH]; simpl; constructor; [|exact IH].
  destruct (decide (key r = id)) as [He|Hne].
  - rewrite bool_decide_eq_true_2 by exact He. apply Hset.
  - rewrite bool_decide_eq_false_2 by exact Hne. reflexivity.
Qed.





(** ** C10: followers and following carry no password *)

(** C10. No object that [getFollowers] or [getFollowing] returns has a
    [password] property.  (Either call is rejected only for an id that
    [integer] cannot hold.) *)
Theorem C10_follow_lists_without_password (db : DB) (userId : Z) :
  match getFollowers db userId with
  | Ok list_ => Forall (fun user : JsObject => user !! "password" = None) list_
  | Err e => in_int4 userId = false
  end
  /\ match getFollowing db userId with
     | Ok list_ => Forall (fun user : JsObject => user !! "password" = None) list_
     | Err e => in_int4 userId = false
     end.
Proof.
  rewrite getFollowers_eq, getFollowing_eq.
  destruct (in_int4 userId); [|split; reflexivity].
  split; apply Forall_forall; intros o Ho;
    apply list_elem_of_In, in_map_iff in Ho; destruct Ho as (item & <- & _);
    apply omit_password_lookup.
Qed.
(** ** Creating rows and finding them again *)

Lemma head_sql_where_snoc {Row A} `{EqDecision A} (col : Row -> A)
    (t : list Row) (r : Row) :
  col r ∉ map col t -> head (sql_where (sql_eq col (col r)) (t ++ [r])) = Some r.
Proof.
  intros H. rewrite sql_where_app, (sql_where_eq_absent _ _ _ H). simpl.
  unfold sql_eq. rewrite bool_decide_eq_true_2 by reflexivity. reflexivity.
Qed.

Lemma sql_where_snoc_other {Row A} `{EqDecision A} (col : Row -> A) (v : A)
    (t : list Row) (r : Row) :
  col r <> v -> sql_where (sql_eq col v) (t ++ [r]) = sql_where (sql_eq col v) t.
Proof.
  intros H. rewrite sql_where_app. simpl. unfold sql_eq at 2.
  rewrite bool_decide_eq_false_2 by exact H. apply app_nil_r.
Qed.

Lemma sql_where_snoc_same {Row A} `{EqDecision A} (col : Row -> A) (v : A)
    (t : list Row) (r : Row) :
  col r = v ->
  sql_where (sql_eq col v) (t ++ [r]) = (sql_where (sql_eq col v) t ++ [r])%list.
Proof.
  intros H. rewrite sql_where_app. simpl. unfold sql_eq at 2.
  rewrite bool_decide_eq_true_2 by exact H. reflexivity.
Qed.

(** What a successful [INSERT INTO pets] does. *)
Lemma insert_pets_ok (v : Pets.Insert.t) (now : Z) (db db' : DB) (r : Pets.row) :
  insert_pets v now db = (db', Ok r) ->
  pets db' = (pets db ++ [r])%list
  /\ Pets.id r = default (pets_id_seq db) (Pets.Insert.id v)
  /\ Pets.userId r = Pets.Insert.userId v
  /\ Pets.profileImageUrl r = Pets.Insert.profileImageUrl v
  /\ Pets.createdAt r = default now (Pets.Insert.createdAt v)
  /\ Pets.updatedAt r = default now (Pets.Insert.updatedAt v)
  /\ (Pets.id r ∉ map Pets.id (pets db))
  /\ (Pets.userId r ∈ user_ids db)
  /\ Pets.name r = Pets.Insert.name v
  /\ Pets.type r = Pets.Insert.type v
  /\ in_int4 (Pets.id r) = true
  /\ in_int4 (Pets.userId r) = true.
Proof.
  unfold insert_pets.
  pose proof (insert_fits_id TPets (Pets.Insert.id v) db) as Hid. simpl in Hid.
  destruct (in_int4_opt (Pets.Insert.id v)) eqn:Hfi; [|discriminate].
  destruct (in_int4 (Pets.Insert.userId v)) eqn:Hfu; [|discriminate].
  insert_fits; [|discriminate|discriminate].
  simpl in Hid.
  destruct (serial TPets (Pets.Insert.id v) db) as [i db1] eqn:Es.
  assert (Hu : pets db1 = pets db /\ i = default (pets_id_seq db) (Pets.Insert.id v)).
  { unfold serial in Es. destruct (Pets.Insert.id v); inversion Es; split; reflexivity. }
  destruct Hu as [Hu Hi]. simpl.
  repeat case_bool_decide; simpl; intros Heq; inversion Heq; subst db' r; clear Heq.
  simpl. rewrite Hu. repeat split; try assumption; try reflexivity.
  rewrite Hi. symmetry. exact Hid.
Qed.

(** What a successful [INSERT INTO recipes] does. *)
Lemma insert_recipes_ok (v : Recipes.Insert.t) (now : Z) (db db' : DB)
    (r : Recipes.row) :
  insert_recipes v now db = (db', Ok r) ->
  recipes db' = (recipes db ++ [r])%list
  /\ Recipes.id r = default (recipes_id_seq db) (Recipes.Insert.id v)
  /\ Recipes.userId r = Recipes.Insert.userId v
  /\ Recipes.imageUrl r = Recipes.Insert.imageUrl v
  /\ Recipes.cookCount r = default 0 (Recipes.Insert.cookCount v)
  /\ Recipes.createdAt r = default now (Recipes.Insert.createdAt v)
  /\ Recipes.updatedAt r = default now (Recipes.Insert.updatedAt v)
  /\ (Recipes.id r ∉ recipe_ids db)
  /\ (Recipes.userId r ∈ user_ids db)
  /\ Recipes.title r = Recipes.Insert.title v
  /\ Recipes.ingredients r = Recipes.Insert.ingredients v
  /\ in_int4 (Recipes.id r) = true
  /\ in_int4 (Recipes.userId r) = true.
Proof.
  unfold insert_recipes.
  pose proof (insert_fits_id TRecipes (Recipes.Insert.id v) db) as Hid.
  simpl in Hid.
  destruct (in_int4_opt (Recipes.Insert.id v)) eqn:Hfi; [|discriminate].
  destruct (in_int4 (Recipes.Insert.userId v)) eqn:Hfu; [|discriminate].
  insert_fits; [|discriminate|discriminate].
  simpl in Hid.
  destruct (serial TRecipes (Recipes.Insert.id v) db) as [i db1] eqn:Es.
  assert (Hu : recipes db1 = recipes db
               /\ i = default (recipes_id_seq db) (Recipes.Insert.id v)).
  { unfold serial in Es. destruct (Recipes.Insert.id v); inversion Es; split; reflexivity. }
  destruct Hu as [Hu Hi]. simpl.
  repeat case_bool_decide; simpl; intros Heq; inversion Heq; subst db' r; clear Heq.
  simpl. rewrite Hu. repeat split; try assumption; try reflexivity.
  rewrite Hi. symmetry. exact Hid.
Qed.

(** What a successful [INSERT INTO comments] does. *)
Lemma insert_comments_ok (v : Comments.Insert.t) (now : Z) (db db' : DB)
    (r : Comments.row) :
  insert_comments v now db = (db', Ok r) ->
  comments db' = (comments db ++ [r])%list
  /\ recipes db' = recipes db
  /\ users db' = users db
  /\ Comments.id r = default (comments_id_seq db) (Comments.Insert.id v)
  /\ Comments.userId r = Comments.Insert.userId v
  /\ Comments.recipeId r = Comments.Insert.recipeId v
  /\ Comments.parentId r = Comments.Insert.parentId v
  /\ Comments.content r = Comments.Insert.content v
  /\ Comments.createdAt r = default now (Comments.Insert.createdAt v)
  /\ (Comments.id r ∉ map Comments.id (comments db))
  /\ (Comments.userId r ∈ user_ids db)
  /\ (Comments.recipeId r ∈ recipe_ids db)
  /\ (forall p, Comments.parentId r = Some p ->
        p ∈ Comments.id r :: map Comments.id (comments db))
  /\ Comments.updatedAt r = default now (Comments.Insert.updatedAt v)
  /\ in_int4 (Comments.id r) = true
  /\ in_int4 (Comments.userId r) = true
  /\ in_int4 (Comments.recipeId r) = true
  /\ in_int4_opt (Comments.parentId r) = true.
Proof.
  unfold insert_comments.
  pose proof (insert_fits_id TComments (Comments.Insert.id v) db) as Hid.
  simpl in Hid.
  destruct (in_int4_opt (Comments.Insert.id v)) eqn:Hfi; [|discriminate].
  destruct (in_int4 (Comments.Insert.userId v)) eqn:Hfu; [|discriminate].
  destruct (in_int4 (Comments.Insert.recipeId v)) eqn:Hfr; [|discriminate].
  destruct (in_int4_opt (Comments.Insert.parentId v)) eqn:Hfp; [|discriminate].
  insert_fits; [|discriminate|discriminate].
  simpl in Hid.
  destruct (serial TComments (Comments.Insert.id v) db) as [i db1] eqn:Es.
  assert (Hu : comments db1 = comments db /\ recipes db1 = recipes db
               /\ users db1 = users db
               /\ i = default (comments_id_seq db) (Comments.Insert.id v)).
  { unfold serial in Es. destruct (Comments.Insert.id v); inversion Es;
      repeat split; reflexivity. }
  destruct Hu as (Hu & Hr & Hus & Hi). simpl.
  destruct (Comments.Insert.parentId v) as [p|] eqn:Ep;
    repeat case_bool_decide; simpl; intros Heq; inversion Heq; subst db' r;
    clear Heq; simpl; rewrite Hu; repeat split; try assumption;
    try (rewrite Hi; symmetry; exact Hid).
  - intros p' [= <-]. assumption.
  - discriminate.
Qed.

(** What a successful [INSERT INTO followers] does, and that a refused one
    leaves the rows alone. *)
Lemma insert_followers_rows (v : Followers.Insert.t) (now : Z) (db : DB) :
  match insert_followers v now db with
  | (db', Ok f) =>
      followers db' = (followers db ++ [f])%list
      /\ Followers.followerId f = Followers.Insert.followerId v
      /\ Followers.followingId f = Followers.Insert.followingId v
      /\ users db' = users db
  | (db', Err _) => same_rows db' db
  end.
Proof.
  unfold insert_followers. insert_fits; [|repeat split|repeat split].
  unfold serial.
  destruct (Followers.Insert.id v); cbv beta match zeta;
    destruct (check_all _); simpl; repeat split.
Qed.

(** X1. A pet that [createPet] has created is what [getPet] returns for
    its id, [getPetsByUser] lists it with the pets its owner had, and every
    other id and owner is answered as before. *)
Theorem X1_createPet_then_getPet (db db' : DB) (petData : Pets.Insert.t) (now : Z)
    (pet : Pets.row) :
  createPet db petData now = (db', Ok pet) ->
  getPet db' (Pets.id pet) = Ok (Some pet)
  /\ Pets.userId pet = Pets.Insert.userId petData
  /\ (exists before,
        getPetsByUser db (Pets.userId pet) = Ok before
        /\ listed (getPetsByUser db' (Pets.userId pet)) (pet :: before))
  /\ (forall id, id <> Pets.id pet -> getPet db' id = getPet db id)
  /\ (forall userId, userId <> Pets.userId pet ->
        same_listing (getPetsByUser db' userId) (getPetsByUser db userId)).
Proof.
  unfold createPet. intros Hins. apply insert_pets_ok in Hins.
  destruct Hins as (Hp & _ & Hu & _ & _ & _ & Hfresh & _ & _ & _ & Hfi & Hfu).
  repeat split.
  - rewrite getPet_eq, Hfi, Hp. f_equal. apply head_sql_where_snoc, Hfresh.
  - exact Hu.
  - eexists. rewrite !getPetsByUser_eq, Hfu, Hp. split; [reflexivity|].
    simpl. rewrite sql_where_snoc_same by reflexivity.
    symmetry. apply Permutation_cons_append.
  - intros id Hid. rewrite !getPet_eq, Hp.
    rewrite sql_where_snoc_other by congruence. reflexivity.
  - intros userId Hid. rewrite !getPetsByUser_eq, Hp.
    rewrite sql_where_snoc_other by congruence.
    destruct (in_int4 userId); simpl; reflexivity.
Qed.

(** Bob registers a cat in the sample database. *)
Lemma X1_witness :
  exists db' pet,
    createPet Sample.db (insertPetSchema Fixture.mia 2 None) 200 = (db', Ok pet)
    /\ getPet db' (Pets.id pet) = Ok (Some pet)
    /\ Pets.userId pet = 2
    /\ (exists before,
          getPetsByUser Sample.db (Pets.userId pet) = Ok before
          /\ listed (getPetsByUser db' (Pets.userId pet)) (pet :: before)).
Proof.
  destruct (createPet Sample.db (insertPetSchema Fixture.mia 2 None) 200)
    as [db' [pet|e]] eqn:E; [|vm_compute in E; discriminate].
  exists db', pet. split; [reflexivity|].
  destruct (X1_createPet_then_getPet Sample.db db' _ 200 pet E)
    as (H1 & H2 & H3 & _).
  split; [exact H1|]. split; [exact H2 | exact H3].
Defined.

(** X2. A recipe that [createRecipe] has created is what [getRecipe]
    returns for its id, [getRecipesByUser] lists it with the recipes its
    author had, and every other id and author is answered as before. *)
Theorem X2_createRecipe_then_getRecipe (db db' : DB) (recipeData : Recipes.Insert.t)
    (now : Z) (recipe : Recipes.row) :
  createRecipe db recipeData now = (db', Ok recipe) ->
  getRecipe db' (Recipes.id recipe) = Ok (Some recipe)
  /\ Recipes.userId recipe = Recipes.Insert.userId recipeData
  /\ (exists before after,
        getRecipesByUser db (Recipes.userId recipe) = Ok before
        /\ getRecipesByUser db' (Recipes.userId recipe) = Ok after
        /\ after ≡ₚ recipe :: before)
  /\ (forall id, id <> Recipes.id recipe -> getRecipe db' id = getRecipe db id)
  /\ (forall userId, userId <> Recipes.userId recipe ->
        getRecipesByUser db' userId = getRecipesByUser db userId).
Proof.
  unfold createRecipe. intros Hins. apply insert_recipes_ok in Hins.
  destruct Hins
    as (Hp & _ & Hu & _ & _ & _ & _ & Hfresh & _ & _ & _ & Hfi & Hfu).
  repeat split.
  - rewrite getRecipe_eq, Hfi, Hp. f_equal. apply head_sql_where_snoc, Hfresh.
  - exact Hu.
  - do 2 eexists. rewrite !getRecipesByUser_eq, Hfu, Hp.
    split; [reflexivity|]. split; [reflexivity|].
    rewrite sql_where_snoc_same by reflexivity.
    rewrite !order_by_desc_perm. symmetry. apply Permutation_cons_append.
  - intros id Hid. rewrite !getRecipe_eq, Hp.
    rewrite sql_where_snoc_other by congruence. reflexivity.
  - intros userId Hid. rewrite !getRecipesByUser_eq, Hp.
    rewrite sql_where_snoc_other by congruence. reflexivity.
Qed.

(** Ana publishes a third recipe in the sample database. *)
Lemma X2_witness :
  exists db' recipe,
    createRecipe Sample.db
      (insertRecipeSchema (Sample.new_recipe "Sopa" "abobora" Dog Treats) 30 1
         None) 200
    = (db', Ok recipe)
    /\ getRecipe db' (Recipes.id recipe) = Ok (Some recipe)
    /\ Recipes.userId recipe = 1
    /\ (exists before after,
          getRecipesByUser Sample.db (Recipes.userId recipe) = Ok before
          /\ getRecipesByUser db' (Recipes.userId recipe) = Ok after
          /\ after ≡ₚ recipe :: before).
Proof.
  destruct (createRecipe Sample.db
              (insertRecipeSchema (Sample.new_recipe "Sopa" "abobora" Dog Treats)
                 30 1 None) 200)
    as [db' [recipe|e]] eqn:E; [|vm_compute in E; discriminate].
  exists db', recipe. split; [reflexivity|].
  destruct (X2_createRecipe_then_getRecipe Sample.db db' _ 200 recipe E)
    as (H1 & H2 & H3 & _).
  split; [exact H1|]. split; [exact H2 | exact H3].
Defined.

(** X3. A comment that [createComment] has created is on a recipe and by a
    user that exist.  Without a parent it is among the top-level comments
    [getComments] lists for its recipe and among no replies; with a parent
    it is among the replies [getReplies] lists for the parent and among no
    top-level comments, and the parent is a comment that exists. *)
Theorem X3_createComment_then_listed (db db' : DB) (commentData : Comments.Insert.t)
    (now : Z) (comment : Comments.row) :
  createComment db commentData now = (db', Ok comment) ->
  (exists recipe, getRecipe db' (Comments.recipeId comment) = Ok (Some recipe))
  /\ (exists user, getUser db' (Comments.userId comment) = Ok (Some user))
  /\ match Comments.parentId comment with
     | None =>
         (exists list_,
            getComments db' (Comments.recipeId comment) = Ok list_
            /\ In comment list_)
         /\ forall id list_, getReplies db' id = Ok list_ -> ~ In comment list_
     | Some parent =>
         (exists list_, getReplies db' parent = Ok list_ /\ In comment list_)
         /\ (forall id list_, getComments db' id = Ok list_ -> ~ In comment list_)
         /\ In parent (map Comments.id (comments db'))
     end.
Proof.
  unfold createComment. intros Hins. apply insert_comments_ok in Hins.
  destruct Hins
    as (Hc & Hr & Hu & _ & _ & _ & _ & _ & _ & _ & Huser & Hrecipe & Hparent
        & _ & _ & Hfu & Hfr & Hfp).
  assert (Hin : In comment (comments db')).
  { rewrite Hc. apply in_or_app. right. left. reflexivity. }
  split; [|split].
  - apply id_present_getRecipe; [|exact Hfr]. unfold recipe_ids. rewrite Hr.
    apply list_elem_of_In, Hrecipe.
  - apply id_present_getUser; [|exact Hfu]. unfold user_ids. rewrite Hu.
    apply list_elem_of_In, Huser.
  - destruct (Comments.parentId comment) as [parent|] eqn:Ep.
    + split; [|split].
      * eexists. rewrite getReplies_eq. simpl in Hfp. rewrite Hfp.
        split; [reflexivity|].
        apply order_by_desc_In, sql_where_In. split; [exact Hin|].
        unfold sql_eq_nullable. apply bool_decide_eq_true. exact Ep.
      * intros id list_. rewrite getComments_eq.
        destruct (in_int4 id); [|discriminate]. intros [= <-] H.
        apply order_by_desc_In, sql_where_In in H.
        destruct H as [_ H]. unfold sql_and, sql_isNull in H.
        rewrite Ep, andb_false_r in H. discriminate.
      * specialize (Hparent parent eq_refl). apply list_elem_of_In in Hparent.
        rewrite Hc, map_app. apply in_or_app.
        destruct Hparent as [<-|Hparent]; [right; left; reflexivity | left; exact Hparent].
    + split.
      * eexists. rewrite getComments_eq, Hfr. split; [reflexivity|].
        apply order_by_desc_In, sql_where_In. split; [exact Hin|].
        unfold sql_and, sql_isNull, sql_eq. rewrite Ep.
        rewrite bool_decide_eq_true_2 by reflexivity. reflexivity.
      * intros id list_. rewrite getReplies_eq.
        destruct (in_int4 id); [|discriminate]. intros [= <-] H.
        apply order_by_desc_In, sql_where_In in H.
        destruct H as [_ H]. unfold sql_eq_nullable in H.
        apply bool_decide_eq_true in H. congruence.
Qed.

(** Bob answers the first comment of the sample database. *)
Lemma X3_witness :
  exists db' comment,
    createComment Sample.db (insertCommentSchema (Fixture.reply (Some 1)) 2 2) 200
    = (db', Ok comment)
    /\ (exists recipe, getRecipe db' (Comments.recipeId comment) = Ok (Some recipe))
    /\ (exists user, getUser db' (Comments.userId comment) = Ok (Some user))
    /\ exists list_, getReplies db' 1 = Ok list_ /\ In comment list_.
Proof.
  destruct (createComment Sample.db
              (insertCommentSchema (Fixture.reply (Some 1)) 2 2) 200)
    as [db' [comment|e]] eqn:E; [|vm_compute in E; discriminate].
  exists db', comment. split; [reflexivity|].
  pose proof (X3_createComment_then_listed Sample.db db' _ 200 comment E)
    as (H1 & H2 & H3).
  assert (Hp : Comments.parentId comment = Some 1).
  { unfold createComment in E. apply insert_comments_ok in E.
    destruct E as (_ & _ & _ & _ & _ & _ & Hp & _). exact Hp. }
  rewrite Hp in H3. destruct H3 as (H3 & _).
  split; [exact H1|]. split; [exact H2 | exact H3].
Defined.

(** ** Rows that point to nothing *)

(** The first constraint that fails is the error of the statement. *)
Lemma check_all_false (checks : list (bool * DbError)) :
  (exists e, In (false, e) checks) -> exists e, check_all checks = Some e.
Proof.
  induction checks as [|[b e] rest IH]; intros (e' & Hin); [destruct Hin|].
  destruct b; simpl; [|eauto].
  apply IH. destruct Hin as [[=]|Hin]. eauto.
Qed.

(** For [exists e, snd (insert_t v now db) = Err e /\ same_rows ...] when
    one of the foreign keys of [v] is no id. *)
Ltac insert_refused supplied :=
  (insert_fits;
   [| eexists; split; [reflexivity | repeat split]
    | eexists; split; [reflexivity | repeat split] ]);
  unfold serial; destruct supplied; cbv beta match zeta;
  match goal with
  | |- context [check_all ?checks] =>
      let e := fresh "e" in
      let E := fresh "E" in
      destruct (check_all_false checks) as [e E];
      [ eexists; simpl;
        repeat match goal with
               | H : _ ∉ _ |- _ => rewrite (bool_decide_eq_false_2 _ H)
               end;
        eauto 10 using in_eq, in_cons
      | rewrite E; exists e; repeat split ]
  end.

(** X4. The storage layer creates no row for a user or a recipe that is not
    there: [createPet], [createRecipe], [createComment], [addFavorite] and
    [follow] throw, and the tables are as before. *)
Theorem X4_rows_for_missing_owner_refused (db : DB) (now : Z) :
  (forall petData,
      Pets.Insert.userId petData ∉ user_ids db ->
      exists e, snd (createPet db petData now) = Err e
                /\ same_rows (fst (createPet db petData now)) db)
  /\ (forall recipeData,
        Recipes.Insert.userId recipeData ∉ user_ids db ->
        exists e, snd (createRecipe db recipeData now) = Err e
                  /\ same_rows (fst (createRecipe db recipeData now)) db)
  /\ (forall commentData,
        Comments.Insert.userId commentData ∉ user_ids db
        \/ Comments.Insert.recipeId commentData ∉ recipe_ids db ->
        exists e, snd (createComment db commentData now) = Err e
                  /\ same_rows (fst (createComment db commentData now)) db)
  /\ (forall favoriteData,
        Favorites.Insert.userId favoriteData ∉ user_ids db
        \/ Favorites.Insert.recipeId favoriteData ∉ recipe_ids db ->
        exists e, snd (addFavorite db favoriteData now) = Err e
                  /\ same_rows (fst (addFavorite db favoriteData now)) db)
  /\ (forall followerData,
        Followers.Insert.followerId followerData ∉ user_ids db
        \/ Followers.Insert.followingId followerData ∉ user_ids db ->
        exists e, snd (follow db followerData now) = Err e
                  /\ same_rows (fst (follow db followerData now)) db).
Proof.
  repeat split.
  - intros v H. unfold createPet, insert_pets.
    insert_refused (Pets.Insert.id v).
  - intros v H. unfold createRecipe, insert_recipes.
    insert_refused (Recipes.Insert.id v).
  - intros v [H|H]; unfold createComment, insert_comments;
      insert_refused (Comments.Insert.id v).
  - intros v [H|H]; unfold addFavorite, insert_favorites;
      insert_refused (Favorites.Insert.id v).
  - intros v [H|H]; unfold follow, insert_followers;
      insert_refused (Followers.Insert.id v).
Qed.

(** The sample database has no user 7. *)
Lemma X4_witness :
  (7 ∉ user_ids Sample.db)
  /\ exists e,
       snd (createPet Sample.db (insertPetSchema Fixture.mia 7 None) 200) = Err e
       /\ same_rows
            (fst (createPet Sample.db (insertPetSchema Fixture.mia 7 None) 200))
            Sample.db.
Proof.
  assert (H : 7 ∉ user_ids Sample.db).
  { intros H. apply list_elem_of_In in H. vm_compute in H. intuition discriminate. }
  split; [exact H|].
  destruct (X4_rows_for_missing_owner_refused Sample.db 200) as (Hpets & _).
  exact (Hpets (insertPetSchema Fixture.mia 7 None) H).
Defined.
(** ** Favorites and follows: adding, asking, removing *)

Lemma follower_found (db : DB) (followerId followingId : Z) :
  (if head (sql_where
              (sql_and (sql_eq Followers.followerId followerId)
                       (sql_eq Followers.followingId followingId))
              (followers db)) is Some _ then true else false) = true
  <-> (followerId, followingId) ∈ follow_pairs db.
Proof.
  unfold follow_pairs. rewrite list_elem_of_In, in_map_iff.
  set (c := sql_and (sql_eq Followers.followerId followerId)
              (sql_eq Followers.followingId followingId)).
  assert (Hc : forall f, c f = true <->
                 (Followers.followerId f, Followers.followingId f)
                 = (followerId, followingId)).
  { intros f. unfold c, sql_and, sql_eq.
    rewrite andb_true_iff, !bool_decide_eq_true.
    split; [intros [-> ->]|intros [= -> ->]]; tauto. }
  split.
  - destruct (sql_where c (followers db)) as [|f l] eqn:E; simpl; [discriminate|].
    intros _. exists f.
    assert (Hf : In f (sql_where c (followers db))) by (rewrite E; left; reflexivity).
    apply sql_where_In in Hf. destruct Hf as [Hin Hcf]. apply Hc in Hcf. tauto.
  - intros (f & Hpair & Hin).
    assert (Hf : In f (sql_where c (followers db))).
    { apply sql_where_In. split; [exact Hin|]. apply Hc, Hpair. }
    destruct (sql_where c (followers db)); [destruct Hf | reflexivity].
Qed.

(** [isFollowing] tells whether the pair is in the table, when it is asked
    with numbers that fit. *)
Lemma isFollowing_pairs (db : DB) (followerId followingId : Z) :
  isFollowing db followerId followingId
  = if in_int4 followerId && in_int4 followingId
    then Ok (bool_decide ((followerId, followingId) ∈ follow_pairs db))
    else out_of_range.
Proof.
  rewrite isFollowing_eq.
  destruct (in_int4 followerId && in_int4 followingId); [|reflexivity].
  f_equal. apply eq_true_iff_eq.
  rewrite follower_found, bool_decide_eq_true. reflexivity.
Qed.

Lemma bool_decide_same (P Q : Prop) `{Decision P} `{Decision Q} :
  (P <-> Q) -> bool_decide P = bool_decide Q.
Proof. intros H1. apply bool_decide_ext, H1. Qed.

(** The pairs that are left when the rows of one pair are deleted. *)
Lemma pairs_after_delete {Row} (a b : Row -> Z) (x y : Z) (t : list Row) (p : Z * Z) :
  p ∈ map (fun f => (a f, b f)) (sql_delete (sql_and (sql_eq a x) (sql_eq b y)) t)
  <-> p ∈ map (fun f => (a f, b f)) t /\ p <> (x, y).
Proof.
  rewrite !list_elem_of_In, !in_map_iff. split.
  - intros (f & <- & Hf). apply sql_delete_In in Hf. destruct Hf as [Hin Hc].
    split; [exists f; tauto|]. intros [= Ha Hb].
    unfold sql_and, sql_eq in Hc.
    rewrite !bool_decide_eq_true_2 in Hc by assumption. discriminate.
  - intros [(f & <- & Hin) Hne]. exists f. split; [reflexivity|].
    apply sql_delete_In. split; [exact Hin|].
    unfold sql_and, sql_eq. apply andb_false_iff.
    destruct (decide (a f = x)) as [Ha|Ha];
      [right | left]; apply bool_decide_eq_false; congruence.
Qed.

(** X5. [isFavorite] answers true for a pair right after [addFavorite] has
    stored it and false right after [removeFavorite] has removed it;
    either operation leaves the answer for every other pair as it was.
    (Asked or removed with a number that [integer] cannot hold, the pair
    is no pair of the table and the call is rejected.) *)
Theorem X5_favorite_added_asked_removed (db : DB) (userId recipeId : Z) :
  (forall favoriteData now db' favorite,
      addFavorite db favoriteData now = (db', Ok favorite) ->
      isFavorite db' (Favorites.Insert.userId favoriteData)
        (Favorites.Insert.recipeId favoriteData) = Ok true
      /\ forall u r,
           (u, r) <> (Favorites.Insert.userId favoriteData,
                      Favorites.Insert.recipeId favoriteData) ->
           isFavorite db' u r = isFavorite db u r)
  /\ isFavorite (fst (removeFavorite db userId recipeId)) userId recipeId
     = (if in_int4 userId && in_int4 recipeId then Ok false else out_of_range)
  /\ (forall u r,
        (u, r) <> (userId, recipeId) ->
        isFavorite (fst (removeFavorite db userId recipeId)) u r = isFavorite db u r).
Proof.
  split; [|split].
  - intros v now db' f Hadd. unfold addFavorite in Hadd.
    pose proof (insert_favorites_rows v now db) as Hrows. rewrite Hadd in Hrows.
    destruct Hrows as (Hf & Hu & Hr & _).
    assert (Hfits : in_int4 (Favorites.Insert.userId v)
                    && in_int4 (Favorites.Insert.recipeId v) = true).
    { unfold insert_favorites in Hadd.
      destruct (in_int4_opt (Favorites.Insert.id v)); [|discriminate].
      destruct (in_int4 (Favorites.Insert.userId v)); [|discriminate].
      destruct (in_int4 (Favorites.Insert.recipeId v)); [|discriminate].
      reflexivity. }
    assert (Hpairs : favorite_pairs db'
              = (favorite_pairs db
                 ++ [(Favorites.Insert.userId v, Favorites.Insert.recipeId v)])%list).
    { unfold favorite_pairs. rewrite Hf, map_app. simpl. rewrite Hu, Hr. reflexivity. }
    split.
    + rewrite isFavorite_pairs, Hfits. f_equal. apply bool_decide_eq_true.
      rewrite Hpairs. apply elem_of_app. right.
      apply list_elem_of_singleton. reflexivity.
    + intros u r Hne. rewrite !isFavorite_pairs.
      destruct (in_int4 u && in_int4 r); [|reflexivity]. f_equal.
      apply bool_decide_same. rewrite Hpairs.
      rewrite elem_of_app, list_elem_of_singleton. tauto.
  - rewrite isFavorite_pairs, removeFavorite_eq.
    destruct (in_int4 userId && in_int4 recipeId); [|reflexivity]. f_equal.
    apply bool_decide_eq_false.
    unfold delete_favorites, favorite_pairs. simpl.
    rewrite pairs_after_delete. tauto.
  - intros u r Hne. rewrite !isFavorite_pairs, removeFavorite_eq.
    destruct (in_int4 userId && in_int4 recipeId); [|reflexivity].
    destruct (in_int4 u && in_int4 r); [|reflexivity]. f_equal.
    apply bool_decide_same.
    unfold delete_favorites, favorite_pairs. simpl.
    rewrite pairs_after_delete. tauto.
Qed.

(** Ana takes the poultry dish of the sample database as a favorite. *)
Lemma X5_witness :
  exists db' favorite,
    addFavorite Sample.db (insertFavoriteSchema 1 2) 200 = (db', Ok favorite)
    /\ isFavorite db' 1 2 = Ok true
    /\ isFavorite db' 2 2 = isFavorite Sample.db 2 2
    /\ isFavorite (fst (removeFavorite db' 1 2)) 1 2 = Ok false.
Proof.
  destruct (addFavorite Sample.db (insertFavoriteSchema 1 2) 200)
    as [db' [favorite|e]] eqn:E; [|vm_compute in E; discriminate].
  exists db', favorite. split; [reflexivity|].
  destruct (X5_favorite_added_asked_removed Sample.db 1 2) as (Hadd & _).
  destruct (Hadd _ 200 db' favorite E) as (H1 & H2).
  destruct (X5_favorite_added_asked_removed db' 1 2) as (_ & H3 & _).
  split; [exact H1|]. split; [|exact H3].
  apply H2. simpl. congruence.
Defined.

(** X6. [isFollowing] answers true for a pair right after [follow] has
    stored it and false right after [unfollow] has removed it; either
    operation leaves the answer for every other pair as it was.  (Asked or
    removed with a number that [integer] cannot hold, the pair is no pair
    of the table and the call is rejected.) *)
Theorem X6_follow_asked_unfollowed (db : DB) (followerId followingId : Z) :
  (forall followerData now db' follower,
      follow db followerData now = (db', Ok follower) ->
      isFollowing db' (Followers.Insert.followerId followerData)
        (Followers.Insert.followingId followerData) = Ok true
      /\ forall a b,
           (a, b) <> (Followers.Insert.followerId followerData,
                      Followers.Insert.followingId followerData) ->
           isFollowing db' a b = isFollowing db a b)
  /\ isFollowing (fst (unfollow db followerId followingId)) followerId followingId
     = (if in_int4 followerId && in_int4 followingId then Ok false
        else out_of_range)
  /\ (forall a b,
        (a, b) <> (followerId, followingId) ->
        isFollowing (fst (unfollow db followerId followingId)) a b
        = isFollowing db a b).
Proof.
  split; [|split].
  - intros v now db' f Hadd. unfold follow in Hadd.
    pose proof (insert_followers_rows v now db) as Hrows. rewrite Hadd in Hrows.
    destruct Hrows as (Hf & Hu & Hr & _).
    assert (Hfits : in_int4 (Followers.Insert.followerId v)
                    && in_int4 (Followers.Insert.followingId v) = true).
    { unfold insert_followers in Hadd.
      destruct (in_int4_opt (Followers.Insert.id v)); [|discriminate].
      destruct (in_int4 (Followers.Insert.followerId v)); [|discriminate].
      destruct (in_int4 (Followers.Insert.followingId v)); [|discriminate].
      reflexivity. }
    assert (Hpairs : follow_pairs db'
              = (follow_pairs db
                 ++ [(Followers.Insert.followerId v,
                      Followers.Insert.followingId v)])%list).
    { unfold follow_pairs. rewrite Hf, map_app. simpl. rewrite Hu, Hr. reflexivity. }
    split.
    + rewrite isFollowing_pairs, Hfits. f_equal. apply bool_decide_eq_true.
      rewrite Hpairs. apply elem_of_app. right.
      apply list_elem_of_singleton. reflexivity.
    + intros a b Hne. rewrite !isFollowing_pairs.
      destruct (in_int4 a && in_int4 b); [|reflexivity]. f_equal.
      apply bool_decide_same. rewrite Hpairs.
      rewrite elem_of_app, list_elem_of_singleton. tauto.
  - rewrite isFollowing_pairs, unfollow_eq.
    destruct (in_int4 followerId && in_int4 followingId); [|reflexivity]. f_equal.
    apply bool_decide_eq_false.
    unfold delete_followers, follow_pairs. simpl.
    rewrite pairs_after_delete. tauto.
  - intros a b Hne. rewrite !isFollowing_pairs, unfollow_eq.
    destruct (in_int4 followerId && in_int4 followingId); [|reflexivity].
    destruct (in_int4 a && in_int4 b); [|reflexivity]. f_equal.
    apply bool_decide_same.
    unfold delete_followers, follow_pairs. simpl.
    rewrite pairs_after_delete. tauto.
Qed.

(** Ana follows Bob back in the sample database. *)
Lemma X6_witness :
  exists db' follower,
    follow Sample.db (insertFollowerSchema 1 2) 200 = (db', Ok follower)
    /\ isFollowing db' 1 2 = Ok true
    /\ isFollowing db' 2 1 = isFollowing Sample.db 2 1
    /\ isFollowing (fst (unfollow db' 1 2)) 1 2 = Ok false.
Proof.
  destruct (follow Sample.db (insertFollowerSchema 1 2) 200)
    as [db' [follower|e]] eqn:E; [|vm_compute in E; discriminate].
  exists db', follower. split; [reflexivity|].
  destruct (X6_follow_asked_unfollowed Sample.db 1 2) as (Hadd & _).
  destruct (Hadd _ 200 db' follower E) as (H1 & H2).
  destruct (X6_follow_asked_unfollowed db' 1 2) as (_ & H3 & _).
  split; [exact H1|]. split; [|exact H3].
  apply H2. simpl. congruence.
Defined.

(** ** What the list operations return *)

(** X7. [getFavorites] returns the recipes the user has a favorite for,
    and no other: a recipe is in the result exactly when it is a row of
    [recipes] and some row of [favorites] of the user points to it.  (The
    call is rejected only for an id that [integer] cannot hold.) *)
Theorem X7_getFavorites_exactly (db : DB) (userId : Z) (recipe : Recipes.row) :
  match getFavorites db userId with
  | Ok list_ =>
      In recipe list_
      <-> In recipe (recipes db)
          /\ exists favorite,
               In favorite (favorites db)
               /\ Favorites.userId favorite = userId
               /\ Favorites.recipeId favorite = Recipes.id recipe
  | Err _ => in_int4 userId = false
  end.
Proof.
  rewrite getFavorites_eq. destruct (in_int4 userId); [|reflexivity].
  rewrite in_map_iff. split.
  - intros ([f r] & Hr & Hin). simpl in Hr. subst r.
    apply order_by_desc_In, sql_where_In in Hin. destruct Hin as [Hin Hu].
    apply inner_join_In in Hin. destruct Hin as (Hf & Hr & Hon).
    simpl in Hu. unfold sql_eq in Hu. apply bool_decide_eq_true in Hu.
    apply bool_decide_eq_true in Hon.
    split; [exact Hr|]. exists f. tauto.
  - intros (Hr & f & Hf & Hu & Hid). exists (f, recipe). split; [reflexivity|].
    apply order_by_desc_In, sql_where_In. split.
    + apply inner_join_In. split; [exact Hf|]. split; [exact Hr|].
      apply bool_decide_eq_true. exact Hid.
    + simpl. apply sql_eq_true. exact Hu.
Qed.

(** X8. [getPetsByUser] returns the pets of the user and
    [getRecipesByUser] the recipes of the user, each row as often as the
    table has it; the recipes come newest first.  (Either call is rejected
    only for an id that [integer] cannot hold.) *)
Theorem X8_rows_of_a_user (db : DB) (userId : Z) :
  match getPetsByUser db userId with
  | Ok list_ => list_ ≡ₚ filter (fun p => Pets.userId p = userId) (pets db)
  | Err _ => in_int4 userId = false
  end
  /\ match getRecipesByUser db userId with
     | Ok list_ =>
         list_ ≡ₚ filter (fun r => Recipes.userId r = userId) (recipes db)
         /\ newest_first Recipes.createdAt list_
     | Err _ => in_int4 userId = false
     end.
Proof.
  rewrite getPetsByUser_eq, getRecipesByUser_eq.
  destruct (in_int4 userId); [|split; reflexivity].
  split; [|split].
  - rewrite (sql_where_filter _ (fun p => Pets.userId p = userId)); [reflexivity|].
    intros r. apply sql_eq_true.
  - rewrite order_by_desc_perm.
    rewrite (sql_where_filter _ (fun r => Recipes.userId r = userId)); [reflexivity|].
    intros r. apply sql_eq_true.
  - apply order_by_desc_sorted.
Qed.
(** ** Listing recipes: pages, order and search *)

Lemma sql_where_all {Row} (t : list Row) : sql_where (fun _ => true) t = t.
Proof. induction t as [|x t IH]; simpl; [reflexivity|]. rewrite IH. reflexivity. Qed.

(** What [LIMIT] and [OFFSET] make of the rows of a select. *)
Lemma Query_page_eq {Row} (q : Query.t Row) (rows : list Row) (limit offset : Z) :
  Query.config_limit q = Some limit ->
  Query.config_offset q = Some offset ->
  Query.page q rows
  = if negb ((if 0 <=? limit then in_int8 limit else true)
             && (if decide (offset = 0) then true else in_int8 offset))
    then Err (NumericValueOutOfRange "bigint")
    else if offset <? 0 then Err (InvalidRowCount "OFFSET")
    else Ok (if 0 <=? limit
             then firstn (Z.to_nat limit) (skipn (Z.to_nat offset) rows)
             else skipn (Z.to_nat offset) rows).
Proof.
  intros Hl Ho. unfold Query.page, Query.limit_clause, Query.offset_clause.
  rewrite Hl, Ho.
  destruct (0 <=? limit); destruct (decide (offset = 0)) as [->|Hne];
    repeat match goal with
           | |- context [if negb ?b then _ else _] => destruct b; cbn [negb]
           end;
    try reflexivity;
    destruct (offset <? 0); reflexivity.
Qed.

(** [getRecipes] is a slice of the rows its last filter selects, newest
    first. *)
Lemma getRecipes_eq (db : DB) (o : Options.t) :
  getRecipes db (Some o)
  = match last_filter o with
    | Err e => Err e
    | Ok c =>
        let limit := default 10 (truthy_number (Options.limit o)) in
        let offset :=
          match truthy_number (Options.page o) with
          | Some page => (page - 1) * limit
          | None => 0
          end in
        let rows := order_by_desc Recipes.createdAt (sql_where c (recipes db)) in
        if negb ((if 0 <=? limit then in_int8 limit else true)
                 && (if decide (offset = 0) then true else in_int8 offset))
        then Err (NumericValueOutOfRange "bigint")
        else if offset <? 0 then Err (InvalidRowCount "OFFSET")
        else Ok (if 0 <=? limit
                 then firstn (Z.to_nat limit) (skipn (Z.to_nat offset) rows)
                 else skipn (Z.to_nat offset) rows)
    end.
Proof.
  unfold getRecipes, last_filter. simpl.
  destruct (truthy_string (Options.search o)) as [search|];
    destruct (truthy_string (Options.category o)) as [category|];
    destruct (truthy_string (Options.petType o)) as [petType|];
    unfold Query.run; cbn [Query.config_where Query.where_ Query.config_from
                           Query.offset Query.limit Query.orderBy_desc Query.from
                           Query.ordered Query.config_orderBy];
    try (unfold like_search; apply Query_page_eq; reflexivity);
    try (destruct (eq_category category); [apply Query_page_eq|]; reflexivity);
    try (destruct (eq_petType petType); [apply Query_page_eq|]; reflexivity).
  rewrite sql_where_all. apply Query_page_eq; reflexivity.
Qed.

Lemma getRecipes_None (db : DB) :
  getRecipes db None
  = Ok (firstn 10 (order_by_desc Recipes.createdAt (recipes db))).
Proof. reflexivity. Qed.

Lemma newest_first_app {Row} (key : Row -> Z) (l1 l2 : list Row) :
  newest_first key (l1 ++ l2) -> newest_first key l1 /\ newest_first key l2.
Proof.
  unfold newest_first. induction l1 as [|x l1 IH]; simpl; intros H.
  - split; [constructor | exact H].
  - inversion H as [|? ? Hs Hx]; subst. destruct (IH Hs) as [H1 H2].
    split; [|exact H2]. constructor; [exact H1|].
    apply Forall_app in Hx. tauto.
Qed.

Lemma newest_first_firstn {Row} (key : Row -> Z) (n : nat) (l : list Row) :
  newest_first key l -> newest_first key (firstn n l).
Proof.
  intros H. rewrite <- (firstn_skipn n l) in H. apply newest_first_app in H. tauto.
Qed.

Lemma newest_first_skipn {Row} (key : Row -> Z) (n : nat) (l : list Row) :
  newest_first key l -> newest_first key (skipn n l).
Proof.
  intros H. rewrite <- (firstn_skipn n l) in H. apply newest_first_app in H. tauto.
Qed.

(** The outcome of [getRecipes] when it returns. *)
Lemma getRecipes_Ok (db : DB) (o : Options.t) (result : list Recipes.row) :
  getRecipes db (Some o) = Ok result ->
  exists c,
    last_filter o = Ok c
    /\ let limit := default 10 (truthy_number (Options.limit o)) in
       let offset :=
         match truthy_number (Options.page o) with
         | Some page => (page - 1) * limit
         | None => 0
         end in
       let rows := order_by_desc Recipes.createdAt (sql_where c (recipes db)) in
       0 <= offset
       /\ result = if 0 <=? limit
                   then firstn (Z.to_nat limit) (skipn (Z.to_nat offset) rows)
                   else skipn (Z.to_nat offset) rows.
Proof.
  rewrite getRecipes_eq. destruct (last_filter o) as [c|]; [|discriminate].
  cbv zeta. destruct (negb _); [discriminate|].
  destruct (Z.ltb_spec
              match truthy_number (Options.page o) with
              | Some page => (page - 1) * default 10 (truthy_number (Options.limit o))
              | None => 0
              end 0); [discriminate|].
  intros [= <-]. exists c. split; [reflexivity|]. split; [assumption | reflexivity].
Qed.

(** X9. What [getRecipes] returns is newest first and made of rows of
    [recipes]; it has at most [limit] rows when the limit is positive, and
    at most ten when the limit is left out or 0.  A negative limit is no
    limit: with no page asked for, every row that the filter selects is
    returned.  Called without options on a table of at most ten recipes it
    returns them all. *)
Theorem X9_getRecipes_page (db : DB) (options : option Options.t)
    (result : list Recipes.row) :
  getRecipes db options = Ok result ->
  newest_first Recipes.createdAt result
  /\ (forall recipe, In recipe result -> In recipe (recipes db))
  /\ (forall limit,
        options ≫= Options.limit = Some limit -> 0 < limit ->
        (length result <= Z.to_nat limit)%nat)
  /\ (options ≫= Options.limit = None \/ options ≫= Options.limit = Some 0 ->
      (length result <= 10)%nat)
  /\ (forall o limit c,
        options = Some o -> Options.limit o = Some limit -> limit < 0 ->
        truthy_number (Options.page o) = None ->
        last_filter o = Ok c ->
        result ≡ₚ sql_where c (recipes db))
  /\ (options = None -> (length (recipes db) <= 10)%nat -> result ≡ₚ recipes db).
Proof.
  intros Hget. split; [|split; [|split; [|split; [|split]]]].
  - destruct options as [o|].
    + apply getRecipes_Ok in Hget. destruct Hget as (c & _ & _ & ->).
      destruct (0 <=? _);
        [apply newest_first_firstn|]; apply newest_first_skipn, order_by_desc_sorted.
    + rewrite getRecipes_None in Hget. injection Hget as <-.
      apply newest_first_firstn, order_by_desc_sorted.
  - intros recipe. apply getRecipes_In with (options := options). exact Hget.
  - intros limit Hl Hpos. destruct options as [o|]; [|discriminate].
    simpl in Hl. apply getRecipes_Ok in Hget. destruct Hget as (c & _ & _ & ->).
    rewrite Hl. unfold truthy_number.
    destruct (decide (limit = 0)) as [|_]; [lia|]. simpl.
    destruct (Z.leb_spec 0 limit); [|lia]. apply firstn_le_length.
  - intros Hl.
    assert (Hten : default 10 (truthy_number (options ≫= Options.limit)) = 10).
    { destruct Hl as [-> | ->]; reflexivity. }
    destruct options as [o|].
    + simpl in Hten. apply getRecipes_Ok in Hget.
      destruct Hget as (c & _ & _ & ->). rewrite Hten. apply firstn_le_length.
    + rewrite getRecipes_None in Hget. injection Hget as <-. apply firstn_le_length.
  - intros o limit c -> Hl Hneg Hpage Hc. apply getRecipes_Ok in Hget.
    destruct Hget as (c' & Hc' & _ & ->). rewrite Hc in Hc'. injection Hc' as <-.
    rewrite Hl, Hpage. unfold truthy_number.
    destruct (decide (limit = 0)) as [|_]; [lia|]. simpl.
    destruct (Z.leb_spec 0 limit); [lia|]. apply order_by_desc_perm.
  - intros -> Hlen. rewrite getRecipes_None in Hget. injection Hget as <-.
    rewrite firstn_all2; [apply order_by_desc_perm|].
    rewrite (Permutation_length (order_by_desc_perm _ _)). exact Hlen.
Qed.

(** The sample database lists its two recipes, the later one first. *)
Lemma X9_witness :
  getRecipes Sample.db None = Ok [Sample.frango; Sample.biscoito]
  /\ newest_first Recipes.createdAt [Sample.frango; Sample.biscoito]
  /\ [Sample.frango; Sample.biscoito] ≡ₚ recipes Sample.db.
Proof.
  assert (H : getRecipes Sample.db None = Ok [Sample.frango; Sample.biscoito])
    by reflexivity.
  split; [exact H|].
  destruct (X9_getRecipes_page Sample.db None _ H) as (H1 & _ & _ & _ & _ & H2).
  split; [exact H1|]. apply H2; [reflexivity | simpl; lia].
Defined.





(** X11. A search text of ordinary characters selects by containment:
    every recipe [getRecipes] returns has the text in its title or in its
    ingredients, and when the listing is not cut short (no page, a limit
    that the table does not exceed) every such recipe is returned. *)
Theorem X11_getRecipes_search (db : DB) (options : Options.t) (search : string)
    (result : list Recipes.row) :
  truthy_string (Options.search options) = Some search ->
  Forall plain_char (list_ascii_of_string search) ->
  getRecipes db (Some options) = Ok result ->
  (forall recipe,
      In recipe result ->
      In recipe (recipes db)
      /\ (contains search (Recipes.title recipe)
          \/ contains search (Recipes.ingredients recipe)))
  /\ (truthy_number (Options.page options) = None ->
      (exists limit,
          Options.limit options = Some limit
          /\ Z.of_nat (length (recipes db)) <= limit) ->
      forall recipe,
        In recipe (recipes db) ->
        contains search (Recipes.title recipe)
        \/ contains search (Recipes.ingredients recipe) ->
        In recipe result).
Proof.
  intros Hs Hplain Hget.
  assert (Hlike : forall r : Recipes.row,
             sql_or (sql_like_col Recipes.title ("%" +:+ search +:+ "%"))
               (sql_like_col Recipes.ingredients ("%" +:+ search +:+ "%")) r = true
             <-> contains search (Recipes.title r)
                 \/ contains search (Recipes.ingredients r)).
  { intros r. unfold sql_or, sql_like_col. rewrite orb_true_iff.
    rewrite !(sql_like_contains _ _ Hplain). reflexivity. }
  split.
  - intros recipe Hin. split; [apply (getRecipes_In _ _ _ _ Hget Hin)|].
    pose proof (getRecipes_applies_last_filter db options result recipe Hget Hin) as H.
    rewrite Hs in H. rewrite !(sql_like_contains _ _ Hplain) in H. exact H.
  - intros Hpage (limit & Hlimit & Hlen) recipe Hin Hhas.
    apply getRecipes_Ok in Hget. destruct Hget as (c & Hc & _ & ->).
    unfold last_filter in Hc. rewrite Hs in Hc. unfold like_search in Hc.
    injection Hc as <-. rewrite Hpage, Hlimit.
    change (Z.to_nat 0) with 0%nat. rewrite skipn_O.
    set (rows := order_by_desc _ _).
    assert (Hrows : In recipe rows).
    { apply order_by_desc_In, sql_where_In. split; [exact Hin|]. apply Hlike, Hhas. }
    destruct (0 <=? _); [|exact Hrows].
    rewrite firstn_all2; [exact Hrows|].
    assert (Hshort : (length rows <= length (recipes db))%nat).
    { unfold rows. rewrite (Permutation_length (order_by_desc_perm _ _)).
      apply List.filter_length_le. }
    unfold truthy_number. destruct (decide (limit = 0)); simpl; lia.
Qed.

(** The sample database searched for "atum". *)
Lemma X11_witness :
  getRecipes Sample.db (Some (paged
    {| Options.petType := None; Options.category := None;
       Options.search := Some "atum"; Options.page := None;
       Options.limit := None |} None (Some 5)))
  = Ok [Sample.biscoito]
  /\ (contains "atum" (Recipes.title Sample.biscoito)
      \/ contains "atum" (Recipes.ingredients Sample.biscoito)).
Proof.
  set (o := paged _ None (Some 5)).
  assert (Hget : getRecipes Sample.db (Some o) = Ok [Sample.biscoito]) by reflexivity.
  split; [exact Hget|].
  assert (Hplain : Forall plain_char (list_ascii_of_string "atum")).
  { repeat constructor; discriminate. }
  destruct (X11_getRecipes_search Sample.db o "atum" _ eq_refl Hplain Hget)
    as (Hsound & _).
  apply (Hsound Sample.biscoito). left. reflexivity.
Defined.

(** X12. A category, or with no category a pet type, that is no label of
    its enum makes [getRecipes] throw when no search text is supplied, and
    the listing route answers 500; with a search text the request is
    answered as if neither had been supplied, since the search condition
    takes the place of the other two. *)
Theorem X12_getRecipes_unknown_label
    (bcrypt_hash : string -> Z -> string -> string)
    (bcrypt_compare : string -> string -> bool)
    (env : Env) (session : option Z) (db : DB)
    (petType category search : option string) (page limit : option Z) :
  (exists label,
      truthy_string category = Some label /\ categoryEnum label = None)
  \/ (truthy_string category = None
      /\ exists label,
           truthy_string petType = Some label /\ petTypeEnum label = None) ->
  (truthy_string search = None ->
   serve bcrypt_hash bcrypt_compare env
     {| session := session;
        route := GetRecipesList petType category search page limit |} db
   = (db, server_error))
  /\ (truthy_string search <> None ->
      serve bcrypt_hash bcrypt_compare env
        {| session := session;
           route := GetRecipesList petType category search page limit |} db
      = serve bcrypt_hash bcrypt_compare env
          {| session := session;
             route := GetRecipesList None None search page limit |} db).
Proof.
  intros Hlabel. unfold serve, handler, get_recipes. simpl.
  set (o := {| Options.petType := petType; Options.category := category;
               Options.search := search; Options.page := page;
               Options.limit := limit |}).
  split.
  - rewrite (getRecipes_eq db o). unfold last_filter. simpl. intros ->.
    destruct Hlabel as [(label & -> & Hl) | (-> & label & -> & Hl)].
    + unfold eq_category. rewrite Hl. reflexivity.
    + unfold eq_petType. rewrite Hl. reflexivity.
  - intros Hs.
    rewrite (getRecipes_search_replaces_filters db o) by exact Hs. reflexivity.
Qed.

(** The sample database asked for the recipes of birds, and for the recipes
    of birds with tuna. *)
Lemma X12_witness :
  serve Sample.toy_hash Sample.toy_compare (Sample.env 200)
    {| session := None;
       route := GetRecipesList (Some "bird") None None None None |} Sample.db
  = (Sample.db, server_error)
  /\ serve Sample.toy_hash Sample.toy_compare (Sample.env 200)
       {| session := None;
          route := GetRecipesList (Some "bird") None (Some "atum") None None |}
       Sample.db
     = (Sample.db, json 200 (JRecipes [Sample.biscoito])).
Proof.
  assert (Hbird : (exists label,
                      truthy_string None = Some label /\ categoryEnum label = None)
                  \/ (truthy_string None = None
                      /\ exists label,
                           truthy_string (Some "bird") = Some label
                           /\ petTypeEnum label = None)).
  { right. split; [reflexivity|]. exists "bird". split; reflexivity. }
  split.
  - exact (proj1 (X12_getRecipes_unknown_label Sample.toy_hash Sample.toy_compare
                    (Sample.env 200) None Sample.db (Some "bird") None None None
                    None Hbird) eq_refl).
  - rewrite (proj2 (X12_getRecipes_unknown_label Sample.toy_hash
                      Sample.toy_compare (Sample.env 200) None Sample.db
                      (Some "bird") None (Some "atum") None None Hbird))
      by discriminate.
    reflexivity.
Defined.
(** ** What a delete takes along *)

(** X13. Deleting a recipe that is there succeeds and takes its comments
    and its favorites along: afterwards no comment and no favorite points
    to its id, [getComments] lists nothing for it, [isFavorite] is false
    for it and [getFavorites] lists it for no one.  The other recipes, the
    favorites of other recipes, and the users, pets and follower rows are
    as before. *)
Theorem X13_deleteRecipe_cascades (db : DB) (id : Z) :
  In id (recipe_ids db) ->
  in_int4 id = true ->
  let db' := fst (deleteRecipe db id) in
  snd (deleteRecipe db id) = Ok true
  /\ (forall comment, In comment (comments db') -> Comments.recipeId comment <> id)
  /\ getComments db' id = Ok []
  /\ (forall userId,
        isFavorite db' userId id
        = if in_int4 userId then Ok false else out_of_range)
  /\ (forall userId list_ recipe,
        getFavorites db' userId = Ok list_ ->
        In recipe list_ -> Recipes.id recipe <> id)
  /\ (forall recipe, In recipe (recipes db') <->
        In recipe (recipes db) /\ Recipes.id recipe <> id)
  /\ (forall favorite, In favorite (favorites db') <->
        In favorite (favorites db) /\ Favorites.recipeId favorite <> id)
  /\ users db' = users db /\ pets db' = pets db /\ followers db' = followers db.
Proof.
  intros Hid Hfits. rewrite deleteRecipe_eq, Hfits. intros db'.
  split; [reflexivity|].
  set (c := sql_eq Recipes.id id).
  set (gone := map Recipes.id (sql_where c (recipes db))).
  assert (Hgone : forall x, x ∈ gone <-> x = id).
  { intros x. unfold gone. rewrite list_elem_of_In, in_map_iff. split.
    - intros (r & <- & Hr). apply sql_where_In in Hr. destruct Hr as [_ Hr].
      unfold c, sql_eq in Hr. apply bool_decide_eq_true in Hr. exact Hr.
    - intros ->. unfold recipe_ids in Hid. apply in_map_iff in Hid.
      destruct Hid as (r & Hr & Hin). exists r. split; [exact Hr|].
      apply sql_where_In. split; [exact Hin|].
      unfold c, sql_eq. apply bool_decide_eq_true. exact Hr. }
  assert (Hcomments : forall comment,
             In comment (comments db') -> Comments.recipeId comment <> id).
  { intros x Hx. unfold db', delete_recipes in Hx. simpl in Hx.
    apply delete_comments_In in Hx. destruct Hx as [_ Hx].
    apply bool_decide_eq_false in Hx. intros Heq. apply Hx. apply Hgone, Heq. }
  assert (Hfavorites : forall favorite, In favorite (favorites db') <->
             In favorite (favorites db) /\ Favorites.recipeId favorite <> id).
  { intros f. unfold db', delete_recipes. simpl.
    rewrite sql_delete_In, bool_decide_eq_false. fold c. fold gone.
    rewrite Hgone. reflexivity. }
  assert (Hrecipes : forall recipe, In recipe (recipes db') <->
             In recipe (recipes db) /\ Recipes.id recipe <> id).
  { intros r. unfold db', delete_recipes. simpl.
    rewrite sql_delete_In. unfold sql_eq. rewrite bool_decide_eq_false.
    reflexivity. }
  split; [exact Hcomments|]. split; [|split; [|split; [|split; [|split]]]].
  - rewrite getComments_eq, Hfits. f_equal.
    apply empty_when_no_In. intros x Hx.
    apply order_by_desc_In, sql_where_In in Hx. destruct Hx as [Hin Hx].
    unfold sql_and in Hx. apply andb_true_iff in Hx. destruct Hx as [Hx _].
    unfold sql_eq in Hx. apply bool_decide_eq_true in Hx.
    exact (Hcomments x Hin Hx).
  - intros userId. rewrite isFavorite_pairs, Hfits, andb_true_r.
    destruct (in_int4 userId); [|reflexivity]. f_equal.
    apply bool_decide_eq_false.
    unfold favorite_pairs. rewrite list_elem_of_In, in_map_iff.
    intros (f & [= _ Hf] & Hin). apply Hfavorites in Hin. tauto.
  - intros userId list_ recipe Hl Hin.
    destruct (getFavorites_In _ _ _ _ Hl Hin) as [Hin' _].
    apply Hrecipes in Hin'. tauto.
  - exact Hrecipes.
  - exact Hfavorites.
  - repeat split.
Qed.

(** The poultry dish of the sample database, with its two comments and
    its favorite, is deleted. *)
Lemma X13_witness :
  In 2 (recipe_ids Sample.db)
  /\ snd (deleteRecipe Sample.db 2) = Ok true
  /\ getComments (fst (deleteRecipe Sample.db 2)) 2 = Ok []
  /\ (forall userId,
        isFavorite (fst (deleteRecipe Sample.db 2)) userId 2
        = if in_int4 userId then Ok false else out_of_range).
Proof.
  assert (H : In 2 (recipe_ids Sample.db)) by (right; left; reflexivity).
  split; [exact H|]. split; [reflexivity|].
  destruct (X13_deleteRecipe_cascades Sample.db 2 H eq_refl)
    as (_ & _ & H1 & H2 & _).
  split; [exact H1 | exact H2].
Defined.

(** The cascade takes nothing but the thread: a comment that is neither
    dead nor below a dead one is left. *)
Lemma cascade_replies_sound (cs0 : list Comments.row) (id : Z) (fuel : nat)
    (dead : list Z) (cs : list Comments.row) :
  (forall x, In x cs -> In x cs0) ->
  (forall d, In d dead ->
     d = id \/ exists p, In p cs0 /\ Comments.id p = d /\ below cs0 id p) ->
  forall x, In x cs -> ~ below cs0 id x -> In x (cascade_replies fuel dead cs).
Proof.
  revert dead cs. induction fuel as [|n IH]; intros dead cs Hsub Hdead x Hx Hnot;
    simpl; [exact Hx|].
  assert (Hbelow : forall g, In g cs -> reply_to dead g = true -> below cs0 id g).
  { intros g Hg Hr. unfold reply_to in Hr.
    destruct (Comments.parentId g) as [p|] eqn:Ep; [|discriminate].
    apply bool_decide_eq_true, list_elem_of_In in Hr.
    destruct (Hdead p Hr) as [->|(parent & Hparent & <- & Hb)].
    - apply below_reply; [apply Hsub, Hg | exact Ep].
    - apply (below_deeper cs0 id g parent); [apply Hsub, Hg | exact Hb | exact Ep]. }
  destruct (sql_where (reply_to dead) cs) as [|g gone] eqn:Eg; [exact Hx|].
  apply IH.
  - intros y Hy. apply sql_delete_In in Hy. apply Hsub. tauto.
  - intros d Hd. change (In d (map Comments.id (g :: gone) ++ dead)%list) in Hd.
    apply in_app_or in Hd. destruct Hd as [Hd|Hd]; [|apply Hdead, Hd].
    apply in_map_iff in Hd. destruct Hd as (y & <- & Hy).
    rewrite <- Eg in Hy. apply sql_where_In in Hy. destruct Hy as [Hy Hr].
    right. exists y. split; [apply Hsub, Hy|]. split; [reflexivity|].
    apply Hbelow; assumption.
  - apply sql_delete_In. split; [exact Hx|].
    destruct (reply_to dead x) eqn:Er; [|reflexivity].
    exfalso. apply Hnot. apply Hbelow; assumption.
  - exact Hnot.
Qed.

(** X14. Deleting a comment that is there succeeds and takes the thread
    below it along, and nothing else: the comments that are left are the
    comments that have another id and are not below it.  Afterwards [getReplies]
    lists nothing for it, no comment that is left has lost its parent, and
    the other tables are as before. *)
Theorem X14_deleteComment_removes_thread (db : DB) (id : Z) :
  In id (map Comments.id (comments db)) ->
  in_int4 id = true ->
  let db' := fst (deleteComment db id) in
  snd (deleteComment db id) = Ok true
  /\ (forall comment,
      In comment (comments db') <->
      In comment (comments db)
      /\ Comments.id comment <> id
      /\ ~ below (comments db) id comment)
  /\ getReplies db' id = Ok []
  /\ (forall comment parent,
        In comment (comments db') ->
        Comments.parentId comment = Some parent ->
        In parent (map Comments.id (comments db)) ->
        In parent (map Comments.id (comments db')))
  /\ users db' = users db /\ pets db' = pets db /\ recipes db' = recipes db
  /\ favorites db' = favorites db /\ followers db' = followers db.
Proof.
  intros Hid Hfits. rewrite deleteComment_eq, Hfits. intros db'.
  split; [reflexivity|].
  destruct (delete_comments_closed (sql_eq Comments.id id) db)
    as (dead & Hall & Hclosed).
  change (delete_comments (sql_eq Comments.id id) db) with db' in Hall, Hclosed.
  assert (Hdead : In id dead).
  { apply in_map_iff in Hid. destruct Hid as (x & Hx & Hin).
    destruct (Hall x Hin) as [Hleft|Hgone]; [|rewrite <- Hx; exact Hgone].
    apply delete_comments_In in Hleft. destruct Hleft as [_ Hleft].
    unfold sql_eq in Hleft. apply bool_decide_eq_false in Hleft. contradiction. }
  assert (Hthread : forall x, below (comments db) id x -> ~ In x (comments db')).
  { intros x Hb. induction Hb as [x Hin Hp | x parent Hin Hb IH Hp];
      intros Hleft; specialize (Hclosed x Hleft); unfold reply_to in Hclosed;
      rewrite Hp in Hclosed; apply bool_decide_eq_false in Hclosed;
      apply Hclosed, list_elem_of_In; [exact Hdead|].
    assert (Hparent : In parent (comments db)) by (destruct Hb; assumption).
    destruct (Hall parent Hparent) as [Hl|Hd]; [contradiction | exact Hd]. }
  split; [|split; [|split]].
  - intros x. split.
    + intros Hleft. assert (Hin := Hleft).
      apply delete_comments_In in Hin. destruct Hin as [Hin Hne].
      apply sql_eq_false in Hne.
      split; [exact Hin|]. split; [exact Hne|].
      intros Hb. exact (Hthread x Hb Hleft).
    + intros (Hin & Hne & Hnot). unfold db', delete_comments. simpl.
      apply (cascade_replies_sound (comments db) id); try assumption.
      * intros y Hy. apply sql_delete_In in Hy. tauto.
      * intros d Hd. apply in_map_iff in Hd. destruct Hd as (y & <- & Hy).
        apply sql_where_In in Hy. destruct Hy as [_ Hy].
        unfold sql_eq in Hy. apply bool_decide_eq_true in Hy. left. exact Hy.
      * apply sql_delete_In. split; [exact Hin|]. apply sql_eq_false, Hne.
  - rewrite getReplies_eq, Hfits. f_equal.
    apply empty_when_no_In. intros x Hx.
    apply order_by_desc_In, sql_where_In in Hx. destruct Hx as [Hin Hx].
    unfold sql_eq_nullable in Hx. apply bool_decide_eq_true in Hx.
    apply (Hthread x); [|exact Hin].
    apply below_reply; [|exact Hx].
    apply delete_comments_In in Hin. tauto.
  - intros x parent Hin Hp Hparent.
    apply in_map_iff in Hparent. destruct Hparent as (y & Hy & Hyin).
    destruct (Hall y Hyin) as [Hleft|Hgone].
    + rewrite <- Hy. apply in_map, Hleft.
    + specialize (Hclosed x Hin). unfold reply_to in Hclosed. rewrite Hp in Hclosed.
      apply bool_decide_eq_false in Hclosed. exfalso. apply Hclosed.
      apply list_elem_of_In. rewrite <- Hy. exact Hgone.
  - repeat split.
Qed.

(** The first comment of the sample database has a reply; both go. *)
Lemma X14_witness :
  In 1 (map Comments.id (comments Sample.db))
  /\ getReplies Sample.db 1 = Ok [Sample.comment 2 2 (Some 1) 160]
  /\ below (comments Sample.db) 1 (Sample.comment 2 2 (Some 1) 160)
  /\ comments (fst (deleteComment Sample.db 1)) = []
  /\ getReplies (fst (deleteComment Sample.db 1)) 1 = Ok [].
Proof.
  assert (H : In 1 (map Comments.id (comments Sample.db))) by (left; reflexivity).
  split; [exact H|]. split; [reflexivity|].
  split; [apply below_reply; [right; left; reflexivity | reflexivity]|].
  split; [reflexivity|].
  destruct (X14_deleteComment_removes_thread Sample.db 1 H eq_refl)
    as (_ & _ & H1 & _).
  exact H1.
Defined.
(** ** The unique keys of the schema *)

Lemma NoDup_map_snoc {Row K} (key : Row -> K) (t : list Row) (r : Row) :
  key r ∉ map key t -> NoDup (map key t) -> NoDup (map key (t ++ [r])).
Proof.
  intros Hnew Hnd. rewrite map_app. simpl. apply NoDup_app.
  split; [exact Hnd|]. split; [|apply NoDup_singleton].
  intros k Hk Hk'. apply list_elem_of_singleton in Hk'. subst k. contradiction.
Qed.

(** Two rows in different places that a condition holds of make two rows
    of the selection. *)
Lemma sql_where_two {Row} (c : Row -> bool) (t : list Row) (i j : nat) (x y : Row) :
  nth_error t i = Some x -> nth_error t j = Some y -> i <> j ->
  c x = true -> c y = true -> (2 <= length (sql_where c t))%nat.
Proof.
  assert (Hone : forall (l : list Row) (n : nat) (z : Row),
             nth_error l n = Some z -> c z = true ->
             (1 <= length (sql_where c l))%nat).
  { intros l n z Hz Hc. apply nth_error_In in Hz.
    assert (Hin : In z (sql_where c l)) by (apply sql_where_In; tauto).
    destruct (sql_where c l); [destruct Hin | simpl; lia]. }
  revert i j. induction t as [|a t IH]; intros i j Hx Hy Hne Hcx Hcy.
  - destruct i; discriminate.
  - destruct i as [|i], j as [|j]; simpl in Hx, Hy.
    + congruence.
    + injection Hx as ->. simpl. rewrite Hcx. simpl.
      pose proof (Hone t j y Hy Hcy). lia.
    + injection Hy as ->. simpl. rewrite Hcy. simpl.
      pose proof (Hone t i x Hx Hcx). lia.
    + assert (Hij : i <> j) by congruence.
      specialize (IH i j Hx Hy Hij Hcx Hcy).
      simpl. destruct (c a); simpl; lia.
Qed.

(** The check that an [UPDATE] makes for a unique key keeps the key
    unique. *)
Lemma NoDup_map_sql_update {Row K} `{EqDecision K} (key : Row -> K)
    (c : Row -> bool) (set : Row -> Row) (t : list Row) :
  unique_after key c set t = true ->
  NoDup (map key t) -> NoDup (map key (sql_update c set t)).
Proof.
  intros Hcheck Hnd.
  set (g := fun r => if c r then set r else r).
  assert (Hupd : sql_update c set t = map g t) by reflexivity.
  assert (Hchanged : forall n a b m,
             nth_error t n = Some a -> nth_error t m = Some b -> n <> m ->
             key (g a) = key (g b) -> key (g a) <> key a -> False).
  { intros n a b m Ha Hb Hne Hkey Hmoved.
    assert (Hc : c a = true).
    { unfold g in Hmoved. destruct (c a); [reflexivity | congruence]. }
    assert (Hga : g a = set a) by (unfold g; rewrite Hc; reflexivity).
    unfold unique_after in Hcheck. rewrite forallb_forall in Hcheck.
    specialize (Hcheck a). rewrite sql_where_In in Hcheck.
    specialize (Hcheck (conj (nth_error_In _ _ Ha) Hc)).
    apply orb_true_iff in Hcheck. destruct Hcheck as [Hsame|Hone].
    - apply bool_decide_eq_true in Hsame. rewrite Hga in Hmoved. contradiction.
    - apply Nat.leb_le in Hone.
      assert (Htwo : (2 <= length (sql_where (sql_eq key (key (set a)))
                                     (sql_update c set t)))%nat).
      { apply (sql_where_two _ _ n m (g a) (g b)); try assumption.
        - rewrite Hupd, nth_error_map, Ha. reflexivity.
        - rewrite Hupd, nth_error_map, Hb. reflexivity.
        - unfold sql_eq. apply bool_decide_eq_true. rewrite Hga. reflexivity.
        - unfold sql_eq. apply bool_decide_eq_true. rewrite <- Hkey, Hga. reflexivity. }
      lia. }
  rewrite Hupd, map_map. apply NoDup_ListNoDup, NoDup_nth_error.
  intros i j Hi Heq. rewrite length_map in Hi.
  rewrite !nth_error_map in Heq.
  destruct (nth_error t i) as [a|] eqn:Ea;
    [|apply nth_error_None in Ea; lia].
  destruct (nth_error t j) as [b|] eqn:Eb; [|discriminate].
  simpl in Heq. injection Heq as Heq.
  destruct (Nat.eq_dec i j) as [|Hne]; [assumption|]. exfalso.
  destruct (decide (key (g a) = key a)) as [Ha|Ha];
    [|exact (Hchanged i a b j Ea Eb Hne Heq Ha)].
  destruct (decide (key (g b) = key b)) as [Hb|Hb];
    [|exact (Hchanged j b a i Eb Ea (not_eq_sym Hne) (eq_sym Heq) Hb)].
  apply NoDup_ListNoDup in Hnd.
  apply Hne. apply (proj1 (NoDup_nth_error (map key t)) Hnd).
  - rewrite length_map. apply nth_error_Some. congruence.
  - rewrite !nth_error_map, Ea, Eb. simpl. congruence.
Qed.

Lemma NoDup_map_cascade_replies (fuel : nat) (dead : list Z) (cs : list Comments.row) :
  NoDup (map Comments.id cs) ->
  NoDup (map Comments.id (cascade_replies fuel dead cs)).
Proof.
  revert dead cs. induction fuel as [|n IH]; intros dead cs Hnd; simpl; [exact Hnd|].
  destruct (sql_where (reply_to dead) cs); [exact Hnd|].
  apply IH, NoDup_map_sql_delete, Hnd.
Qed.

Lemma keys_unique_same (db db' : DB) :
  same_rows db' db -> keys_unique db -> keys_unique db'.
Proof.
  unfold same_rows, keys_unique. intros (-> & -> & -> & -> & -> & ->). tauto.
Qed.

(** For [keys_unique (fst (insert_t v now db))]. *)
Ltac insert_keeps_keys supplied :=
  let Hk := fresh "Hk" in
  intros Hk; (insert_fits; [| exact Hk | exact Hk]);
  unfold serial; destruct supplied; simpl;
  repeat case_bool_decide; simpl; try exact Hk;
  unfold keys_unique in Hk |- *; simpl; decompose [and] Hk;
  repeat split; try assumption; apply NoDup_map_snoc; assumption.

Lemma insert_users_keys v now db :
  keys_unique db -> keys_unique (fst (insert_users v now db)).
Proof. unfold insert_users. insert_keeps_keys (Users.Insert.id v). Qed.

Lemma insert_pets_keys v now db :
  keys_unique db -> keys_unique (fst (insert_pets v now db)).
Proof. unfold insert_pets. insert_keeps_keys (Pets.Insert.id v). Qed.

Lemma insert_recipes_keys v now db :
  keys_unique db -> keys_unique (fst (insert_recipes v now db)).
Proof. unfold insert_recipes. insert_keeps_keys (Recipes.Insert.id v). Qed.

Lemma insert_comments_keys v now db :
  keys_unique db -> keys_unique (fst (insert_comments v now db)).
Proof.
  unfold insert_comments. destruct (Comments.Insert.parentId v);
    insert_keeps_keys (Comments.Insert.id v).
Qed.

Lemma insert_favorites_keys v now db :
  keys_unique db -> keys_unique (fst (insert_favorites v now db)).
Proof. unfold insert_favorites. insert_keeps_keys (Favorites.Insert.id v). Qed.

Lemma insert_followers_keys v now db :
  keys_unique db -> keys_unique (fst (insert_followers v now db)).
Proof. unfold insert_followers. insert_keeps_keys (Followers.Insert.id v). Qed.

(** For [keys_unique (fst (update_t c p db))]. *)
Ltac update_keeps_keys :=
  let Hk := fresh "Hk" in
  let E := fresh "E" in
  intros Hk;
  match goal with
  | |- context [check_all ?checks] => destruct (check_all checks) eqn:E
  end;
  simpl; [exact Hk|];
  repeat (apply check_all_cons in E;
          let H := fresh "Hcheck" in destruct E as [H E]);
  unfold keys_unique in Hk |- *; simpl; decompose [and] Hk;
  repeat split; try assumption; apply NoDup_map_sql_update; assumption.

Lemma update_users_keys c p db :
  keys_unique db -> keys_unique (fst (update_users c p db)).
Proof. unfold update_users. cbv zeta. update_keeps_keys. Qed.

Lemma update_pets_keys c p db :
  keys_unique db -> keys_unique (fst (update_pets c p db)).
Proof. unfold update_pets. cbv zeta. update_keeps_keys. Qed.

Lemma update_recipes_keys c p db :
  keys_unique db -> keys_unique (fst (update_recipes c p db)).
Proof. unfold update_recipes. cbv zeta. update_keeps_keys. Qed.

Lemma delete_comments_keys c db :
  keys_unique db -> keys_unique (delete_comments c db).
Proof.
  unfold keys_unique, delete_comments. simpl. intros Hk. decompose [and] Hk.
  repeat split; try assumption.
  apply NoDup_map_cascade_replies, NoDup_map_sql_delete. assumption.
Qed.

Lemma delete_recipes_keys c db :
  keys_unique db -> keys_unique (delete_recipes c db).
Proof.
  intros Hk. unfold delete_recipes. cbv zeta.
  set (db1 := set_recipes _ db).
  assert (H1 : keys_unique db1).
  { unfold keys_unique in Hk |- *. simpl. decompose [and] Hk.
    repeat split; try assumption. apply NoDup_map_sql_delete. assumption. }
  match goal with
  | |- keys_unique (set_favorites _ (delete_comments ?c' db1)) =>
      pose proof (delete_comments_keys c' db1 H1) as H2;
      set (db2 := delete_comments c' db1) in *
  end.
  unfold keys_unique in H2 |- *. simpl. decompose [and] H2.
  repeat split; try assumption. apply NoDup_map_sql_delete. assumption.
Qed.

Section Keys.
Variable bcrypt_hash : string -> Z -> string -> string.
Variable bcrypt_compare : string -> string -> bool.

(** Every statement the storage layer issues keeps the unique keys
    unique. *)
Lemma perform_keys_unique (env : Env) {A} (c : Call A) (db : DB) :
  keys_unique db ->
  keys_unique (fst (perform bcrypt_hash bcrypt_compare env c db)).
Proof.
  destruct c; simpl; intros Hdb; try exact Hdb.
  - unfold createUser.
    match goal with |- context [insert_users ?v ?n ?d] =>
      pose proof (insert_users_keys v n d Hdb) as Hnew;
      destruct (insert_users v n d) as [? [?|?]]; exact Hnew end.
  - rewrite updateUser_eq. destruct (in_int4 id); [|exact Hdb].
    match goal with |- context [update_users ?c ?p ?d] =>
      pose proof (update_users_keys c p d Hdb) as Hnew;
      destruct (update_users c p d) as [? [l|?]]; [destruct (head l)|];
      exact Hnew end.
  - apply insert_pets_keys, Hdb.
  - rewrite updatePet_eq. destruct (in_int4 id); [|exact Hdb].
    match goal with |- context [update_pets ?c ?p ?d] =>
      pose proof (update_pets_keys c p d Hdb) as Hnew;
      destruct (update_pets c p d) as [? [?|?]]; exact Hnew end.
  - (* deletePet *)
    rewrite deletePet_eq. destruct (in_int4 id); [|exact Hdb].
    unfold keys_unique in Hdb |- *. simpl. decompose [and] Hdb.
    repeat split; try assumption. apply NoDup_map_sql_delete. assumption.
  - apply insert_recipes_keys, Hdb.
  - rewrite updateRecipe_eq. destruct (in_int4 id); [|exact Hdb].
    match goal with |- context [update_recipes ?c ?p ?d] =>
      pose proof (update_recipes_keys c p d Hdb) as Hnew;
      destruct (update_recipes c p d) as [? [?|?]]; exact Hnew end.
  - rewrite deleteRecipe_eq. destruct (in_int4 id); [|exact Hdb].
    apply delete_recipes_keys, Hdb.
  - apply insert_comments_keys, Hdb.
  - rewrite deleteComment_eq. destruct (in_int4 id); [|exact Hdb].
    apply delete_comments_keys, Hdb.
  - apply insert_favorites_keys, Hdb.
  - (* removeFavorite *)
    rewrite removeFavorite_eq.
    destruct (in_int4 userId && in_int4 recipeId); [|exact Hdb].
    unfold keys_unique in Hdb |- *. simpl. decompose [and] Hdb.
    repeat split; try assumption. apply NoDup_map_sql_delete. assumption.
  - apply insert_followers_keys, Hdb.
  - (* unfollow *)
    rewrite unfollow_eq.
    destruct (in_int4 followerId && in_int4 followingId); [|exact Hdb].
    unfold keys_unique in Hdb |- *. simpl. decompose [and] Hdb.
    repeat split; try assumption. apply NoDup_map_sql_delete. assumption.
Qed.

Lemma resume_keys_unique (env : Env) (t : Task) (db : DB) :
  keys_unique db -> keys_unique (fst (resume bcrypt_hash bcrypt_compare env t db)).
Proof.
  intros Hdb. unfold resume. destruct (task_prog t) as [r| |A c k]; try exact Hdb.
  pose proof (perform_keys_unique env c db Hdb) as Hnew.
  destruct (perform bcrypt_hash bcrypt_compare env c db) as [db' [a|e]]; exact Hnew.
Qed.

Lemma event_step_keys_unique (st : DB * list Task) (e : Event) :
  keys_unique (fst st) ->
  keys_unique (fst (event_step bcrypt_hash bcrypt_compare st e)).
Proof.
  intros Hst. destruct e as [req|i env]; simpl; [exact Hst|].
  destruct (snd st !! i) as [t|]; [|exact Hst].
  pose proof (resume_keys_unique env t (fst st) Hst) as Hnew.
  destruct (resume bcrypt_hash bcrypt_compare env t (fst st)) as [db' t'].
  exact Hnew.
Qed.

Lemma keys_unique_empty : keys_unique empty_db.
Proof. unfold keys_unique. simpl. repeat split; constructor. Qed.

(** X15. The keys the schema declares unique stay unique in every state
    the handlers can reach, also when the event loop interleaves the
    requests at their [await]s: no two users share an id, a username or an
    email, and no two rows of any other table share an id. *)
Theorem X15_keys_unique_when_interleaved (db : DB) :
  interleaved bcrypt_hash bcrypt_compare db -> keys_unique db.
Proof.
  intros (events & <-). unfold schedule.
  assert (Hgen : forall st,
             keys_unique (fst st) ->
             keys_unique
               (fst (fold_left (event_step bcrypt_hash bcrypt_compare) events st))).
  { induction events as [|e events IH]; intros st Hst; simpl; [exact Hst|].
    apply IH, event_step_keys_unique, Hst. }
  apply Hgen. exact keys_unique_empty.
Qed.
End Keys.

(** The state after the two interleaved requests of the double click. *)
Lemma X15_witness :
  interleaved Sample.toy_hash Sample.toy_compare Sample.after_double_click
  /\ keys_unique Sample.after_double_click.
Proof.
  assert (H : interleaved Sample.toy_hash Sample.toy_compare Sample.after_double_click).
  { exists Sample.double_click. unfold Sample.after_double_click. reflexivity. }
  split; [exact H|].
  exact (X15_keys_unique_when_interleaved Sample.toy_hash Sample.toy_compare _ H).
Defined.
(** ** The handlers: who may do what *)

Section Handlers.
Variable bcrypt_hash : string -> Z -> string -> string.
Variable bcrypt_compare : string -> string -> bool.

(** X16. A route registered with [authenticate] answers 401 and touches
    nothing when the request has no session, or the session of a user who
    is not there; a route registered without it answers the same whatever
    the session. *)
Theorem X16_authenticate_rejects (env : Env) (db : DB) :
  (forall req,
      behind_authenticate (route req) = true ->
      (truthy_number (session req) = None ->
       serve bcrypt_hash bcrypt_compare env req db
       = (db, message 401 "Unauthorized"))
      /\ (forall userId,
            truthy_number (session req) = Some userId ->
            getUser db userId = Ok None ->
            serve bcrypt_hash bcrypt_compare env req db
            = (db, message 401 "User not found")))
  /\ (forall route session session',
        behind_authenticate route = false ->
        serve bcrypt_hash bcrypt_compare env
          {| session := session; route := route |} db
        = serve bcrypt_hash bcrypt_compare env
            {| session := session'; route := route |} db).
Proof.
  split.
  - intros [s r] Hr. simpl in Hr. unfold serve, handler. cbn.
    destruct r; try discriminate Hr; unfold_handlers; cbn; split.
    all: try (intros ->; reflexivity).
    all: intros uid -> Hu; cbn; rewrite Hu; reflexivity.
  - intros r s s' Hr. unfold serve, handler, catch. simpl.
    destruct r; try discriminate Hr; reflexivity.
Qed.

End Handlers.

(** A request for the pets of the session, sent without a session. *)
Lemma X16_witness :
  serve Sample.toy_hash Sample.toy_compare (Sample.env 200)
    {| session := None; route := GetPets |} Sample.db
  = (Sample.db, message 401 "Unauthorized").
Proof.
  destruct (X16_authenticate_rejects Sample.toy_hash Sample.toy_compare
              (Sample.env 200) Sample.db) as [H _].
  destruct (H {| session := None; route := GetPets |} eq_refl) as [H1 _].
  exact (H1 eq_refl).
Defined.
(** ** Requests that change nothing *)

Section ReadOnly.
Variable bcrypt_hash : string -> Z -> string -> string.
Variable bcrypt_compare : string -> string -> bool.

Lemma perform_select (env : Env) {A} (c : Call A) (db : DB) :
  is_select A c = true -> fst (perform bcrypt_hash bcrypt_compare env c db) = db.
Proof. destruct c; simpl; intros Hc; try discriminate; reflexivity. Qed.

Lemma run_select (env : Env) (p : Prog Response) (catch : Response) (db : DB) :
  awaits is_select p -> fst (run bcrypt_hash bcrypt_compare env p catch db) = db.
Proof.
  revert db. induction p as [r| |A c k IH]; intros db Hp; simpl; try reflexivity.
  destruct Hp as [Hc Hk].
  pose proof (perform_select env c db Hc) as Hsame.
  destruct (perform bcrypt_hash bcrypt_compare env c db) as [db' [a|e]];
    simpl in Hsame; subst db'; [apply IH, Hk | reflexivity].
Qed.

(** X17. A [GET] request never changes the database, whatever it asks for
    and whatever it is answered; neither does a login or a logout. *)
Theorem X17_get_requests_change_nothing (env : Env) (req : Request) (db : DB) :
  method (route req) = GET
  \/ (exists username password, route req = PostAuthLogin username password)
  \/ route req = PostAuthLogout ->
  fst (serve bcrypt_hash bcrypt_compare env req db) = db.
Proof.
  intros Hr. unfold serve. apply run_select.
  destruct req as [s r]. simpl in Hr. unfold handler. simpl.
  destruct r;
    try (exfalso; destruct Hr as [Hr|[(u & p & Hr)|Hr]]; discriminate Hr);
    unfold_handlers; awaits_tac.
Qed.
End ReadOnly.

(** The listing of the followers of ana. *)
Lemma X17_witness :
  fst (serve Sample.toy_hash Sample.toy_compare (Sample.env 200)
         {| session := None; route := GetUserFollowers (Some 1) |} Sample.db)
  = Sample.db.
Proof.
  apply (X17_get_requests_change_nothing Sample.toy_hash Sample.toy_compare).
  left. reflexivity.
Defined.
(** ** Changing and deleting what belongs to someone *)

Section Owner.
Variable bcrypt_hash : string -> Z -> string -> string.
Variable bcrypt_compare : string -> string -> bool.

(** X18. Only its owner changes or deletes a pet, a recipe or a comment:
    the request of another user who is logged in is answered 403 and
    changes nothing. *)
Theorem X18_not_the_owner (env : Env) (session : option Z) (userId : Z) (db : DB) :
  truthy_number session = Some userId ->
  (exists user, getUser db userId = Ok (Some user)) ->
  (forall id pet body file,
      getPet db id = Ok (Some pet) -> Pets.userId pet <> userId ->
      serve bcrypt_hash bcrypt_compare env
        {| session := session; route := PutPet (Some id) body file |} db
      = (db, message 403 "Not authorized")
      /\ serve bcrypt_hash bcrypt_compare env
           {| session := session; route := DeletePetById (Some id) |} db
         = (db, message 403 "Not authorized"))
  /\ (forall id recipe body file,
        getRecipe db id = Ok (Some recipe) -> Recipes.userId recipe <> userId ->
        serve bcrypt_hash bcrypt_compare env
          {| session := session; route := PutRecipe (Some id) body file |} db
        = (db, message 403 "Not authorized")
        /\ serve bcrypt_hash bcrypt_compare env
             {| session := session; route := DeleteRecipeById (Some id) |} db
           = (db, message 403 "Not authorized"))
  /\ (forall id comment,
        In comment (comments db) -> Comments.id comment = id ->
        in_int4 id = true ->
        (forall other, In other (comments db) -> Comments.id other = id ->
           Comments.userId other <> userId) ->
        serve bcrypt_hash bcrypt_compare env
          {| session := session; route := DeleteCommentById (Some id) |} db
        = (db, message 403 "Not authorized")).
Proof.
  intros Hs [user Hu]. unfold serve, handler. cbn. unfold_handlers.
  rewrite Hs. cbn. rewrite Hu. cbn.
  split; [|split].
  - intros id pet body file Hpet Hother. rewrite Hpet. cbn.
    destruct (decide (Pets.userId pet = userId)); [contradiction|].
    split; reflexivity.
  - intros id recipe body file Hrecipe Hother. rewrite Hrecipe. cbn.
    destruct (decide (Recipes.userId recipe = userId)); [contradiction|].
    split; reflexivity.
  - intros id comment Hin Hid Hfits Hother.
    unfold eq_integer. rewrite Hfits. cbn.
    change (List.filter (sql_eq Comments.id id) (comments db))
      with (sql_where (sql_eq Comments.id id) (comments db)).
    destruct (head (sql_where (sql_eq Comments.id id) (comments db)))
      as [found|] eqn:E; cbn.
    + apply head_In, sql_where_In in E. destruct E as [Hfound Hfid].
      unfold sql_eq in Hfid. apply bool_decide_eq_true in Hfid.
      destruct (decide (Comments.userId found = userId)) as [Hmine|];
        [|reflexivity].
      destruct (Hother found Hfound Hfid Hmine).
    + exfalso.
      assert (Hc : In comment (sql_where (sql_eq Comments.id id) (comments db))).
      { apply sql_where_In. split; [exact Hin|].
        unfold sql_eq. apply bool_decide_eq_true. exact Hid. }
      destruct (sql_where (sql_eq Comments.id id) (comments db));
        [destruct Hc | discriminate].
Qed.
End Owner.

(** Bob, logged in, goes for the dog and the poultry dish of ana. *)
Lemma X18_witness :
  serve Sample.toy_hash Sample.toy_compare (Sample.env 200)
    {| session := Some 2; route := PutPet (Some 1) (Some Sample.rex_renamed) None |}
    Sample.db
  = (Sample.db, message 403 "Not authorized")
  /\ serve Sample.toy_hash Sample.toy_compare (Sample.env 200)
       {| session := Some 2; route := DeleteRecipeById (Some 2) |} Sample.db
     = (Sample.db, message 403 "Not authorized").
Proof.
  assert (Hu : exists user, getUser Sample.db 2 = Ok (Some user))
    by (apply id_present_getUser; [simpl; tauto | reflexivity]).
  destruct (X18_not_the_owner Sample.toy_hash Sample.toy_compare (Sample.env 200)
              (Some 2) 2 Sample.db eq_refl Hu) as (Hpets & Hrecipes & _).
  split.
  - refine (proj1 (Hpets 1 Sample.rex (Some Sample.rex_renamed) None eq_refl _)).
    simpl. lia.
  - refine (proj2 (Hrecipes 2 Sample.frango None None eq_refl _)).
    simpl. lia.
Defined.

Section OwnerDeletes.
Variable bcrypt_hash : string -> Z -> string -> string.
Variable bcrypt_compare : string -> string -> bool.

(** X19. The owner's request to delete a pet or a recipe is answered 200,
    and the request for that pet or recipe that follows is answered 404,
    whoever sends it. *)
Theorem X19_owner_deletes (env env' : Env) (session session' : option Z)
    (userId : Z) (db : DB) :
  truthy_number session = Some userId ->
  (exists user, getUser db userId = Ok (Some user)) ->
  (forall id pet,
      getPet db id = Ok (Some pet) -> Pets.userId pet = userId ->
      exists db',
        serve bcrypt_hash bcrypt_compare env
          {| session := session; route := DeletePetById (Some id) |} db
        = (db', message 200 "Pet deleted successfully")
        /\ serve bcrypt_hash bcrypt_compare env'
             {| session := session'; route := GetPetById (Some id) |} db'
           = (db', message 404 "Pet not found"))
  /\ (forall id recipe,
        getRecipe db id = Ok (Some recipe) -> Recipes.userId recipe = userId ->
        exists db',
          serve bcrypt_hash bcrypt_compare env
            {| session := session; route := DeleteRecipeById (Some id) |} db
          = (db', message 200 "Recipe deleted successfully")
          /\ serve bcrypt_hash bcrypt_compare env'
               {| session := session'; route := GetRecipeById (Some id) |} db'
             = (db', message 404 "Recipe not found")).
Proof.
  intros Hs [user Hu]. unfold serve, handler. cbn. unfold_handlers.
  rewrite Hs. cbn. rewrite Hu. cbn.
  split.
  - intros id pet Hpet Hmine. rewrite Hpet. cbn.
    destruct (decide (Pets.userId pet = userId)); [|contradiction]. cbn.
    assert (Hfits : in_int4 id = true).
    { rewrite getPet_eq in Hpet. destruct (in_int4 id); [reflexivity|discriminate]. }
    rewrite deletePet_eq, Hfits. cbn.
    eexists. split; [reflexivity|].
    rewrite getPet_eq, Hfits. simpl. rewrite sql_where_after_delete. reflexivity.
  - intros id recipe Hrecipe Hmine. rewrite Hrecipe. cbn.
    destruct (decide (Recipes.userId recipe = userId)); [|contradiction]. cbn.
    assert (Hfits : in_int4 id = true).
    { rewrite getRecipe_eq in Hrecipe.
      destruct (in_int4 id); [reflexivity|discriminate]. }
    rewrite deleteRecipe_eq, Hfits. cbn.
    eexists. split; [reflexivity|].
    rewrite getRecipe_eq, Hfits. simpl. rewrite sql_where_after_delete. reflexivity.
Qed.
End OwnerDeletes.

(** Ana deletes her dog from the sample database. *)
Lemma X19_witness :
  exists db',
    serve Sample.toy_hash Sample.toy_compare (Sample.env 200)
      {| session := Some 1; route := DeletePetById (Some 1) |} Sample.db
    = (db', message 200 "Pet deleted successfully")
    /\ serve Sample.toy_hash Sample.toy_compare (Sample.env 201)
         {| session := None; route := GetPetById (Some 1) |} db'
       = (db', message 404 "Pet not found").
Proof.
  assert (Hu : exists user, getUser Sample.db 1 = Ok (Some user))
    by (apply id_present_getUser; [simpl; tauto | reflexivity]).
  destruct (X19_owner_deletes Sample.toy_hash Sample.toy_compare (Sample.env 200)
              (Sample.env 201) (Some 1) None 1 Sample.db eq_refl Hu) as (Hpets & _).
  exact (Hpets 1 Sample.rex eq_refl eq_refl).
Defined.
(** ** Following and unfollowing *)

Lemma getUser_row (db : DB) (id : Z) (user : JsObject) :
  getUser db id = Ok (Some user) ->
  exists row, In row (users db) /\ Users.id row = id
              /\ user = omit_password (Users.obj row).
Proof.
  rewrite getUser_eq. destruct (in_int4 id); [|discriminate].
  destruct (head (sql_where (sql_eq Users.id id) (users db))) as [row|] eqn:E;
    [|discriminate].
  intros [= <-]. apply head_In, sql_where_In in E. destruct E as [Hin Hid].
  unfold sql_eq in Hid. apply bool_decide_eq_true in Hid. exists row. tauto.
Qed.

(** A lookup by id that has an answer is asked with a number that fits,
    and gets the same answer from every database with the same users. *)
Lemma getUser_fits (db : DB) (id : Z) (found : option JsObject) :
  getUser db id = Ok found -> in_int4 id = true.
Proof. rewrite getUser_eq. destruct (in_int4 id); [reflexivity | discriminate]. Qed.

Lemma getUser_same_users (db db' : DB) (id : Z) :
  users db' = users db -> getUser db' id = getUser db id.
Proof. intros H. rewrite !getUser_eq, H. reflexivity. Qed.

Lemma getFollowers_In (db : DB) (userId : Z) (list_ : list JsObject)
    (user : JsObject) :
  getFollowers db userId = Ok list_ ->
  In user list_
  <-> exists f row,
        In f (followers db) /\ In row (users db)
        /\ Followers.followingId f = userId
        /\ Followers.followerId f = Users.id row
        /\ user = omit_password (Users.obj row).
Proof.
  rewrite getFollowers_eq. destruct (in_int4 userId); [|discriminate].
  intros [= <-]. rewrite in_map_iff. split.
  - intros ([f row] & Hu & Hin). simpl in Hu.
    apply sql_where_In in Hin. destruct Hin as [Hin Hc].
    apply inner_join_In in Hin. destruct Hin as (Hf & Hrow & Hon).
    simpl in Hc. unfold sql_eq in Hc. apply bool_decide_eq_true in Hc.
    apply bool_decide_eq_true in Hon. exists f, row. repeat split; congruence.
  - intros (f & row & Hf & Hrow & Hto & Hfrom & ->).
    exists (f, row). split; [reflexivity|]. apply sql_where_In. split.
    + apply inner_join_In. split; [exact Hf|]. split; [exact Hrow|].
      apply bool_decide_eq_true. exact Hfrom.
    + simpl. unfold sql_eq. apply bool_decide_eq_true. exact Hto.
Qed.

Lemma getFollowing_In (db : DB) (userId : Z) (list_ : list JsObject)
    (user : JsObject) :
  getFollowing db userId = Ok list_ ->
  In user list_
  <-> exists f row,
        In f (followers db) /\ In row (users db)
        /\ Followers.followerId f = userId
        /\ Followers.followingId f = Users.id row
        /\ user = omit_password (Users.obj row).
Proof.
  rewrite getFollowing_eq. destruct (in_int4 userId); [|discriminate].
  intros [= <-]. rewrite in_map_iff. split.
  - intros ([f row] & Hu & Hin). simpl in Hu.
    apply sql_where_In in Hin. destruct Hin as [Hin Hc].
    apply inner_join_In in Hin. destruct Hin as (Hf & Hrow & Hon).
    simpl in Hc. unfold sql_eq in Hc. apply bool_decide_eq_true in Hc.
    apply bool_decide_eq_true in Hon. exists f, row. repeat split; congruence.
  - intros (f & row & Hf & Hrow & Hto & Hfrom & ->).
    exists (f, row). split; [reflexivity|]. apply sql_where_In. split.
    + apply inner_join_In. split; [exact Hf|]. split; [exact Hrow|].
      apply bool_decide_eq_true. exact Hfrom.
    + simpl. unfold sql_eq. apply bool_decide_eq_true. exact Hto.
Qed.

Section Follow.
Variable bcrypt_hash : string -> Z -> string -> string.
Variable bcrypt_compare : string -> string -> bool.

(** X20. Nobody follows themselves: the request of a user to follow their
    own id is answered 400 and changes nothing, whatever the follower rows
    are. *)
Theorem X20_follow_oneself_refused (env : Env) (session : option Z) (userId : Z)
    (db : DB) :
  truthy_number session = Some userId ->
  (exists user, getUser db userId = Ok (Some user)) ->
  serve bcrypt_hash bcrypt_compare env
    {| session := session; route := PostUserFollow (Some userId) |} db
  = (db, message 400 "Cannot follow yourself").
Proof.
  intros Hs [user Hu]. unfold serve, handler. cbn. unfold_handlers.
  rewrite Hs. cbn. rewrite Hu. cbn. rewrite Hu. cbn.
  destruct (decide (userId = userId)); [reflexivity | congruence].
Qed.

(** X21. A request to follow that is answered 201 was sent by a user who
    is there, for another user who is there.  It has added the one
    follower row of the pair; from then on [isFollowing] is true for the
    pair, the sender is among the followers of the other and the other
    among those the sender follows, and the same request sent again is
    answered 400 and changes nothing. *)
Theorem X21_follow_created (env env' : Env) (session userId : option Z)
    (db db' : DB) (response : Response) :
  serve bcrypt_hash bcrypt_compare env
    {| session := session; route := PostUserFollow userId |} db
  = (db', response) ->
  status response = 201 ->
  exists me other f sender target,
    truthy_number session = Some me
    /\ userId = Some other
    /\ me <> other
    /\ isFollowing db me other = Ok false
    /\ followers db' = (followers db ++ [f])%list
    /\ Followers.followerId f = me
    /\ Followers.followingId f = other
    /\ payload response = JFollower f
    /\ isFollowing db' me other = Ok true
    /\ getUser db' me = Ok (Some sender)
    /\ getUser db' other = Ok (Some target)
    /\ (exists list_, getFollowers db' other = Ok list_ /\ In sender list_)
    /\ (exists list_, getFollowing db' me = Ok list_ /\ In target list_)
    /\ serve bcrypt_hash bcrypt_compare env'
         {| session := session; route := PostUserFollow userId |} db'
       = (db', message 400 "Already following this user").
Proof.
  unfold serve, handler. cbn. unfold_handlers.
  destruct (truthy_number session) as [me|] eqn:Hs; cbn;
    [|intros [= <- <-]; discriminate].
  destruct (getUser db me) as [[sender|]|] eqn:Eme; cbn;
    try (intros [= <- <-]; discriminate).
  destruct userId as [other|]; cbn; [|intros [= <- <-]; discriminate].
  destruct (getUser db other) as [[target|]|] eqn:Eother; cbn;
    try (intros [= <- <-]; discriminate).
  destruct (decide (other = me)) as [|Hne]; cbn;
    [intros [= <- <-]; discriminate|].
  destruct (isFollowing db me other) as [[|]|] eqn:Eis; cbn;
    try (intros [= <- <-]; discriminate).
  unfold follow.
  pose proof (insert_followers_rows (insertFollowerSchema me other) (now env) db)
    as Hins.
  destruct (insert_followers (insertFollowerSchema me other) (now env) db)
    as [db1 [f|e]] eqn:Einsert; cbn; [|intros [= <- <-]; discriminate].
  intros [= <- <-] _. destruct Hins as (Hf & Hfrom & Hto & Husers).
  simpl in Hfrom, Hto.
  assert (Hme : getUser db1 me = Ok (Some sender)).
  { rewrite (getUser_same_users db db1) by exact Husers. exact Eme. }
  assert (Hother : getUser db1 other = Ok (Some target)).
  { rewrite (getUser_same_users db db1) by exact Husers. exact Eother. }
  assert (Hfme := getUser_fits _ _ _ Eme).
  assert (Hfother := getUser_fits _ _ _ Eother).
  assert (Hfin : In f (followers db1)).
  { rewrite Hf. apply in_or_app. right. left. reflexivity. }
  assert (Hnow : isFollowing db1 me other = Ok true).
  { rewrite isFollowing_pairs, Hfme, Hfother. simpl. f_equal.
    apply bool_decide_eq_true. unfold follow_pairs. rewrite list_elem_of_In.
    apply in_map_iff. exists f. split; [congruence | exact Hfin]. }
  exists me, other, f, sender, target.
  repeat match goal with |- _ /\ _ => split end;
    try reflexivity; try assumption; try congruence.
  - apply getUser_row in Hme. destruct Hme as (row & Hrow & Hid & ->).
    eexists. rewrite getFollowers_eq, Hfother. split; [reflexivity|].
    apply (getFollowers_In db1 other).
    { rewrite getFollowers_eq, Hfother. reflexivity. }
    exists f, row. repeat split; congruence.
  - apply getUser_row in Hother. destruct Hother as (row & Hrow & Hid & ->).
    eexists. rewrite getFollowing_eq, Hfme. split; [reflexivity|].
    apply (getFollowing_In db1 me).
    { rewrite getFollowing_eq, Hfme. reflexivity. }
    exists f, row. repeat split; congruence.
  - rewrite Hme. cbn. rewrite Hother. cbn.
    destruct (decide (other = me)); [contradiction|]. cbn.
    rewrite Hnow. reflexivity.
Qed.

(** X22. A request to unfollow is answered 404 and changes nothing when
    the sender does not follow the other user.  When the sender does, it
    is answered 200, [isFollowing] is false for the pair afterwards and as
    before for every other pair, and the same request sent again is
    answered 404.  A request with an id that [integer] cannot hold is
    answered 500 and changes nothing. *)
Theorem X22_unfollow (env env' : Env) (session : option Z) (me other : Z) (db : DB) :
  truthy_number session = Some me ->
  (exists user, getUser db me = Ok (Some user)) ->
  (isFollowing db me other = Ok false ->
   serve bcrypt_hash bcrypt_compare env
     {| session := session; route := DeleteUserFollow (Some other) |} db
   = (db, message 404 "Not following this user"))
  /\ (isFollowing db me other = Ok true ->
      exists db',
        serve bcrypt_hash bcrypt_compare env
          {| session := session; route := DeleteUserFollow (Some other) |} db
        = (db', message 200 "Unfollowed successfully")
        /\ isFollowing db' me other = Ok false
        /\ (forall a b, (a, b) <> (me, other) ->
              isFollowing db' a b = isFollowing db a b)
        /\ serve bcrypt_hash bcrypt_compare env'
             {| session := session; route := DeleteUserFollow (Some other) |} db'
           = (db', message 404 "Not following this user"))
  /\ (in_int4 other = false ->
      serve bcrypt_hash bcrypt_compare env
        {| session := session; route := DeleteUserFollow (Some other) |} db
      = (db, server_error)).
Proof.
  intros Hs [user Hu]. unfold serve, handler. cbn. unfold_handlers.
  rewrite Hs. cbn. rewrite Hu. cbn.
  split; [|split]; intros His.
  - rewrite His. reflexivity.
  - rewrite His. cbn.
    assert (Hfits : in_int4 me && in_int4 other = true).
    { rewrite isFollowing_eq in His.
      destruct (in_int4 me && in_int4 other); [reflexivity | discriminate]. }
    rewrite unfollow_eq, Hfits. cbn.
    eexists. split; [reflexivity|].
    assert (Hgone : isFollowing
                      (delete_followers
                         (sql_and (sql_eq Followers.followerId me)
                                  (sql_eq Followers.followingId other)) db)
                      me other = Ok false).
    { rewrite isFollowing_pairs, Hfits. f_equal. apply bool_decide_eq_false.
      unfold delete_followers, follow_pairs. simpl.
      rewrite pairs_after_delete. tauto. }
    split; [exact Hgone|]. split.
    + intros a b Hne. rewrite !isFollowing_pairs.
      destruct (in_int4 a && in_int4 b); [|reflexivity]. f_equal.
      apply bool_decide_same.
      unfold delete_followers, follow_pairs. simpl.
      rewrite pairs_after_delete. tauto.
    + rewrite (getUser_same_users db) by reflexivity. rewrite Hu. cbn.
      rewrite Hgone. reflexivity.
  - rewrite isFollowing_eq, His, andb_false_r. reflexivity.
Qed.

(** X23. A request to remove a favorite is answered 404 and changes
    nothing when the sender has no favorite for the recipe.  When the
    sender has one, it is answered 200, [isFavorite] is false for the pair
    afterwards and as before for every other pair, and the same request
    sent again is answered 404.  A request with an id that [integer]
    cannot hold is answered 500 and changes nothing. *)
Theorem X23_remove_favorite (env env' : Env) (session : option Z)
    (userId recipeId : Z) (db : DB) :
  truthy_number session = Some userId ->
  (exists user, getUser db userId = Ok (Some user)) ->
  (isFavorite db userId recipeId = Ok false ->
   serve bcrypt_hash bcrypt_compare env
     {| session := session; route := DeleteRecipeFavorite (Some recipeId) |} db
   = (db, message 404 "Favorite not found"))
  /\ (isFavorite db userId recipeId = Ok true ->
      exists db',
        serve bcrypt_hash bcrypt_compare env
          {| session := session; route := DeleteRecipeFavorite (Some recipeId) |} db
        = (db', message 200 "Favorite removed successfully")
        /\ isFavorite db' userId recipeId = Ok false
        /\ (forall u r, (u, r) <> (userId, recipeId) ->
              isFavorite db' u r = isFavorite db u r)
        /\ serve bcrypt_hash bcrypt_compare env'
             {| session := session; route := DeleteRecipeFavorite (Some recipeId) |}
             db'
           = (db', message 404 "Favorite not found"))
  /\ (in_int4 recipeId = false ->
      serve bcrypt_hash bcrypt_compare env
        {| session := session; route := DeleteRecipeFavorite (Some recipeId) |} db
      = (db, server_error)).
Proof.
  intros Hs [user Hu]. unfold serve, handler. cbn. unfold_handlers.
  rewrite Hs. cbn. rewrite Hu. cbn.
  split; [|split]; intros His.
  - rewrite His. reflexivity.
  - rewrite His. cbn.
    assert (Hfits : in_int4 userId && in_int4 recipeId = true).
    { rewrite isFavorite_eq in His.
      destruct (in_int4 userId && in_int4 recipeId); [reflexivity | discriminate]. }
    rewrite removeFavorite_eq, Hfits. cbn.
    eexists. split; [reflexivity|].
    assert (Hgone : isFavorite
                      (delete_favorites
                         (sql_and (sql_eq Favorites.userId userId)
                                  (sql_eq Favorites.recipeId recipeId)) db)
                      userId recipeId = Ok false).
    { rewrite isFavorite_pairs, Hfits. f_equal. apply bool_decide_eq_false.
      unfold delete_favorites, favorite_pairs. simpl.
      rewrite pairs_after_delete. tauto. }
    split; [exact Hgone|]. split.
    + intros u r Hne. rewrite !isFavorite_pairs.
      destruct (in_int4 u && in_int4 r); [|reflexivity]. f_equal.
      apply bool_decide_same.
      unfold delete_favorites, favorite_pairs. simpl.
      rewrite pairs_after_delete. tauto.
    + rewrite (getUser_same_users db) by reflexivity. rewrite Hu. cbn.
      rewrite Hgone. reflexivity.
  - rewrite isFavorite_eq, His, andb_false_r. reflexivity.
Qed.
End Follow.

(** Bob, in the sample database, asks to follow himself. *)
Lemma X20_witness :
  serve Sample.toy_hash Sample.toy_compare (Sample.env 200)
    {| session := Some 2; route := PostUserFollow (Some 2) |} Sample.db
  = (Sample.db, message 400 "Cannot follow yourself").
Proof.
  apply (X20_follow_oneself_refused Sample.toy_hash Sample.toy_compare
           (Sample.env 200) (Some 2) 2 Sample.db eq_refl).
  apply id_present_getUser; [simpl; tauto | reflexivity].
Defined.

(** Ana follows Bob back, and asks again. *)
Lemma X21_witness :
  exists db' f,
    serve Sample.toy_hash Sample.toy_compare (Sample.env 200)
      {| session := Some 1; route := PostUserFollow (Some 2) |} Sample.db
    = (db', json 201 (JFollower f))
    /\ isFollowing db' 1 2 = Ok true
    /\ serve Sample.toy_hash Sample.toy_compare (Sample.env 201)
         {| session := Some 1; route := PostUserFollow (Some 2) |} db'
       = (db', message 400 "Already following this user").
Proof.
  destruct (serve Sample.toy_hash Sample.toy_compare (Sample.env 200)
              {| session := Some 1; route := PostUserFollow (Some 2) |} Sample.db)
    as [db' response] eqn:E.
  assert (Hstatus : status response = 201).
  { vm_compute in E. injection E as _ <-. reflexivity. }
  destruct (X21_follow_created Sample.toy_hash Sample.toy_compare (Sample.env 200)
              (Sample.env 201) (Some 1) (Some 2) Sample.db db' response E Hstatus)
    as (me & other & f & sender & target & Hme & Hother & _ & _ & _ & _ & _
        & Hpayload & Hnow & _ & _ & _ & _ & Hagain).
  injection Hme as <-. injection Hother as <-.
  exists db', f. split; [|split; [exact Hnow | exact Hagain]].
  destruct response as [code body]. simpl in Hstatus, Hpayload. subst. reflexivity.
Defined.

(** Bob unfollows ana in the sample database. *)
Lemma X22_witness :
  exists db',
    serve Sample.toy_hash Sample.toy_compare (Sample.env 200)
      {| session := Some 2; route := DeleteUserFollow (Some 1) |} Sample.db
    = (db', message 200 "Unfollowed successfully")
    /\ isFollowing db' 2 1 = Ok false.
Proof.
  assert (Hu : exists user, getUser Sample.db 2 = Ok (Some user))
    by (apply id_present_getUser; [simpl; tauto | reflexivity]).
  destruct (X22_unfollow Sample.toy_hash Sample.toy_compare (Sample.env 200)
              (Sample.env 201) (Some 2) 2 1 Sample.db eq_refl Hu) as (_ & H & _).
  destruct (H eq_refl) as (db' & H1 & H2 & _).
  exists db'. split; [exact H1 | exact H2].
Defined.

(** Bob removes his favorite in the sample database. *)
Lemma X23_witness :
  exists db',
    serve Sample.toy_hash Sample.toy_compare (Sample.env 200)
      {| session := Some 2; route := DeleteRecipeFavorite (Some 2) |} Sample.db
    = (db', message 200 "Favorite removed successfully")
    /\ isFavorite db' 2 2 = Ok false.
Proof.
  assert (Hu : exists user, getUser Sample.db 2 = Ok (Some user))
    by (apply id_present_getUser; [simpl; tauto | reflexivity]).
  destruct (X23_remove_favorite Sample.toy_hash Sample.toy_compare (Sample.env 200)
              (Sample.env 201) (Some 2) 2 2 Sample.db eq_refl Hu) as (_ & H & _).
  destruct (H eq_refl) as (db' & H1 & H2 & _).
  exists db'. split; [exact H1 | exact H2].
Defined.
(** ** What the creating requests store *)


Section Created.
Variable bcrypt_hash : string -> Z -> string -> string.
Variable bcrypt_compare : string -> string -> bool.

End Created.

(** ** Registering and logging in *)

Section Login.
Variable bcrypt_hash : string -> Z -> string -> string.
Variable bcrypt_compare : string -> string -> bool.


End Login.


(** ** No response shows a password *)

Lemma Forall_stripped {A} (f : A -> Users.row) (l : list A) :
  Forall (fun user : JsObject => user !! "password" = None)
    (map (fun item => omit_password (Users.obj (f item))) l).
Proof.
  apply List.Forall_forall. intros user Hin. apply in_map_iff in Hin.
  destruct Hin as (item & <- & _). apply omit_password_lookup.
Qed.

(** For [responds_without_password p], [p] the handler of a route. *)
Ltac responds_tac :=
  repeat (simpl;
    match goal with
    | |- True => exact I
    | |- forall _, _ => intro
    | |- responds_without_password (match ?x with _ => _ end) => destruct x
    | |- match ?x with Some _ => _ | None => True end => destruct x
    | |- omit_password _ !! "password" = None => apply omit_password_lookup
    | H : forall user, Some ?o = Some user -> _ |- ?o !! "password" = None =>
        exact (H o eq_refl)
    | H : forall user, None = Some user -> _ |- _ => clear H
    | |- _ !! "password" = None => assumption
    | |- Forall _ _ => assumption
    end).

Section Password.
Variable bcrypt_hash : string -> Z -> string -> string.
Variable bcrypt_compare : string -> string -> bool.

(** The storage layer hands out no user with a password, except to the
    two lookups the login and the registration use. *)
Lemma perform_stripped (env : Env) {A} (c : Call A) (db db' : DB) (a : A) :
  perform bcrypt_hash bcrypt_compare env c db = (db', Ok a) -> stripped c a.
Proof.
  destruct c; cbn; try (intros _; exact I).
  - (* getUser *)
    intros [= _ Hu] user ->. exact (getUser_without_password _ _ _ Hu).
  - (* createUser *)
    unfold createUser.
    destruct (insert_users _ _ _) as [db1 [row|e]]; [|discriminate].
    intros [= _ <-]. apply omit_password_lookup.
  - (* updateUser *)
    rewrite updateUser_eq. destruct (in_int4 id); [|discriminate].
    destruct (update_users _ _ _) as [db1 [returning|e]]; [|discriminate].
    destruct (head returning) as [row|]; intros [= _ <-] user; [|discriminate].
    intros [= <-]. apply omit_password_lookup.
  - (* getFollowers *)
    rewrite getFollowers_eq. destruct (in_int4 userId); [|discriminate].
    intros [= _ <-]. apply Forall_stripped.
  - (* getFollowing *)
    rewrite getFollowing_eq. destruct (in_int4 userId); [|discriminate].
    intros [= _ <-]. apply Forall_stripped.
Qed.

Lemma run_without_password (env : Env) (p : Prog Response) (catch : Response)
    (db : DB) :
  responds_without_password p ->
  without_password (payload catch) ->
  without_password (payload (snd (run bcrypt_hash bcrypt_compare env p catch db))).
Proof.
  revert db. induction p as [r| |A c k IH]; intros db Hp Hcatch; simpl;
    [exact Hp | exact Hcatch |].
  destruct (perform bcrypt_hash bcrypt_compare env c db) as [db' [a|e]] eqn:E;
    [|exact Hcatch].
  apply IH; [|exact Hcatch]. apply Hp. exact (perform_stripped env c db db' a E).
Qed.

Lemma handler_without_password (req : Request) :
  responds_without_password (handler req).
Proof.
  unfold handler. destruct (route req); unfold_handlers; responds_tac.
Qed.

(** X27. No response of any handler shows a password: whatever the
    request, the session and the database, a body that is a user or a
    list of users has no [password] property. *)
Theorem X27_no_response_shows_a_password (env : Env) (req : Request) (db : DB) :
  without_password (payload (snd (serve bcrypt_hash bcrypt_compare env req db))).
Proof.
  unfold serve. apply run_without_password.
  - apply handler_without_password.
  - unfold catch. destruct (route req); exact I.
Qed.
End Password.
(** ** One follower row for each pair, and none to oneself *)

Lemma insert_users_followers v now db :
  followers (fst (insert_users v now db)) = followers db.
Proof. unfold insert_users. insert_keeps_followers (Users.Insert.id v). Qed.

Lemma insert_pets_followers v now db :
  followers (fst (insert_pets v now db)) = followers db.
Proof. unfold insert_pets. insert_keeps_followers (Pets.Insert.id v). Qed.

Lemma insert_recipes_followers v now db :
  followers (fst (insert_recipes v now db)) = followers db.
Proof. unfold insert_recipes. insert_keeps_followers (Recipes.Insert.id v). Qed.

Lemma insert_comments_followers v now db :
  followers (fst (insert_comments v now db)) = followers db.
Proof. unfold insert_comments. insert_keeps_followers (Comments.Insert.id v). Qed.

Lemma insert_favorites_followers v now db :
  followers (fst (insert_favorites v now db)) = followers db.
Proof. unfold insert_favorites. insert_keeps_followers (Favorites.Insert.id v). Qed.

Lemma update_users_followers c p db :
  followers (fst (update_users c p db)) = followers db.
Proof. unfold update_users. destruct (check_all _); reflexivity. Qed.

Lemma update_pets_followers c p db :
  followers (fst (update_pets c p db)) = followers db.
Proof. unfold update_pets. destruct (check_all _); reflexivity. Qed.

Lemma update_recipes_followers c p db :
  followers (fst (update_recipes c p db)) = followers db.
Proof. unfold update_recipes. destruct (check_all _); reflexivity. Qed.

(** Deleting follower rows breaks neither property. *)
Lemma followers_deleted (db db' : DB) (c : Followers.row -> bool) :
  followers db' = sql_delete c (followers db) ->
  follows_unique db /\ no_self_follow db ->
  follows_unique db' /\ no_self_follow db'.
Proof.
  unfold follows_unique, follow_pairs, no_self_follow. intros -> [Hu Hs]. split.
  - apply NoDup_map_sql_delete, Hu.
  - intros f Hf. apply sql_delete_In in Hf. apply Hs. tauto.
Qed.

Lemma followers_same (db db' : DB) :
  followers db' = followers db ->
  follows_unique db /\ no_self_follow db ->
  follows_unique db' /\ no_self_follow db'.
Proof.
  intros Hsame. apply (followers_deleted db db' (fun _ => false)).
  rewrite Hsame. symmetry. apply sql_delete_none. reflexivity.
Qed.

Section Followers.
Variable bcrypt_hash : string -> Z -> string -> string.
Variable bcrypt_compare : string -> string -> bool.

Lemma perform_not_Follow (env : Env) {A} (c : Call A) (db : DB) :
  not_Follow A c = true ->
  follows_unique db /\ no_self_follow db ->
  follows_unique (fst (perform bcrypt_hash bcrypt_compare env c db))
  /\ no_self_follow (fst (perform bcrypt_hash bcrypt_compare env c db)).
Proof.
  destruct c; simpl; intros Hc Hdb; try discriminate; try exact Hdb.
  - apply (followers_same db); [|exact Hdb]. unfold createUser.
    match goal with |- context [insert_users ?v ?n ?d] =>
      rewrite <- (insert_users_followers v n d);
      destruct (insert_users v n d) as [? [?|?]]; reflexivity end.
  - (* updateUser *)
    apply (followers_same db); [|exact Hdb]. rewrite updateUser_eq.
    destruct (in_int4 id); [|reflexivity].
    match goal with |- context [update_users ?c ?p ?d] =>
      rewrite <- (update_users_followers c p d);
      destruct (update_users c p d) as [? [l|?]]; [destruct (head l)|];
      reflexivity end.
  - apply (followers_same db); [|exact Hdb]. apply insert_pets_followers.
  - (* updatePet *)
    apply (followers_same db); [|exact Hdb]. rewrite updatePet_eq.
    destruct (in_int4 id); [|reflexivity].
    match goal with |- context [update_pets ?c ?p ?d] =>
      rewrite <- (update_pets_followers c p d);
      destruct (update_pets c p d) as [? [?|?]]; reflexivity end.
  - (* deletePet *)
    apply (followers_same db); [|exact Hdb]. rewrite deletePet_eq.
    destruct (in_int4 id); reflexivity.
  - apply (followers_same db); [|exact Hdb]. apply insert_recipes_followers.
  - (* updateRecipe *)
    apply (followers_same db); [|exact Hdb]. rewrite updateRecipe_eq.
    destruct (in_int4 id); [|reflexivity].
    match goal with |- context [update_recipes ?c ?p ?d] =>
      rewrite <- (update_recipes_followers c p d);
      destruct (update_recipes c p d) as [? [?|?]]; reflexivity end.
  - (* deleteRecipe *)
    apply (followers_same db); [|exact Hdb]. rewrite deleteRecipe_eq.
    destruct (in_int4 id); reflexivity.
  - apply (followers_same db); [|exact Hdb]. apply insert_comments_followers.
  - (* deleteComment *)
    apply (followers_same db); [|exact Hdb]. rewrite deleteComment_eq.
    destruct (in_int4 id); reflexivity.
  - apply (followers_same db); [|exact Hdb]. apply insert_favorites_followers.
  - (* removeFavorite *)
    apply (followers_same db); [|exact Hdb]. rewrite removeFavorite_eq.
    destruct (in_int4 userId && in_int4 recipeId); reflexivity.
  - (* unfollow *)
    rewrite unfollow_eq.
    destruct (in_int4 followerId && in_int4 followingId); [|exact Hdb].
    eapply followers_deleted; [|exact Hdb]. reflexivity.
Qed.

Lemma run_not_Follow (env : Env) (p : Prog Response) (catch : Response) (db : DB) :
  awaits not_Follow p ->
  follows_unique db /\ no_self_follow db ->
  follows_unique (fst (run bcrypt_hash bcrypt_compare env p catch db))
  /\ no_self_follow (fst (run bcrypt_hash bcrypt_compare env p catch db)).
Proof.
  revert db. induction p as [r| |A c k IH]; intros db Hp Hdb; simpl; try exact Hdb.
  destruct Hp as [Hc Hk].
  pose proof (perform_not_Follow env c db Hc Hdb) as Hnew.
  destruct (perform bcrypt_hash bcrypt_compare env c db) as [db' [a|e]];
    simpl in Hnew; [apply IH; [apply Hk | exact Hnew] | exact Hnew].
Qed.

(** Only the handler of [POST /api/users/:userId/follow] inserts into
    [followers]. *)
Lemma handler_not_Follow (req : Request) :
  (forall userId, route req <> PostUserFollow userId) ->
  awaits not_Follow (handler req).
Proof.
  intros Hroute. unfold handler. destruct (route req) eqn:Er;
    try (exfalso; eapply Hroute; reflexivity);
    unfold_handlers; awaits_tac.
Qed.

Lemma post_user_follow_keeps (env : Env) (session userId : option Z)
    (catch : Response) (db : DB) :
  follows_unique db /\ no_self_follow db ->
  follows_unique
    (fst (run bcrypt_hash bcrypt_compare env (post_user_follow session userId)
            catch db))
  /\ no_self_follow
       (fst (run bcrypt_hash bcrypt_compare env (post_user_follow session userId)
               catch db)).
Proof.
  intros Hdb. unfold_handlers.
  destruct (truthy_number session) as [me|]; cbn; [|exact Hdb].
  destruct (getUser db me) as [[sender|]|]; cbn; try exact Hdb.
  destruct userId as [other|]; cbn; [|exact Hdb].
  destruct (getUser db other) as [[target|]|]; cbn; try exact Hdb.
  destruct (decide (other = me)) as [|Hne]; cbn; [exact Hdb|].
  destruct (isFollowing db me other) as [[|]|] eqn:Eis; cbn; try exact Hdb.
  unfold follow.
  pose proof (insert_followers_rows (insertFollowerSchema me other) (now env) db)
    as Hins.
  destruct (insert_followers (insertFollowerSchema me other) (now env) db)
    as [db' [f|e]]; cbn.
  - destruct Hins as (Hf & Hfrom & Hto & _). simpl in Hfrom, Hto.
    destruct Hdb as [Hu Hs]. split.
    + unfold follows_unique, follow_pairs. rewrite Hf.
      apply NoDup_map_snoc; [|exact Hu]. rewrite Hfrom, Hto.
      intros Hin. rewrite isFollowing_pairs in Eis.
      destruct (in_int4 me && in_int4 other); [|discriminate].
      injection Eis as Eis. apply bool_decide_eq_false in Eis.
      exact (Eis Hin).
    + intros row Hrow. rewrite Hf in Hrow. apply in_app_or in Hrow.
      destruct Hrow as [Hrow|[<-|[]]]; [apply Hs, Hrow | congruence].
  - destruct Hins as (_ & _ & _ & _ & _ & Hf). apply (followers_same db); assumption.
Qed.

Lemma serve_followers (env : Env) (req : Request) (db : DB) :
  follows_unique db /\ no_self_follow db ->
  follows_unique (fst (serve bcrypt_hash bcrypt_compare env req db))
  /\ no_self_follow (fst (serve bcrypt_hash bcrypt_compare env req db)).
Proof.
  intros Hdb. unfold serve.
  assert (Hcases : (exists userId, route req = PostUserFollow userId)
                   \/ forall userId, route req <> PostUserFollow userId).
  { destruct (route req); try (right; discriminate). left. eexists. reflexivity. }
  destruct Hcases as [[userId Hr]|Hr].
  - unfold handler. rewrite Hr. apply post_user_follow_keeps, Hdb.
  - apply run_not_Follow; [|exact Hdb]. apply handler_not_Follow, Hr.
Qed.

(** X28. When requests are handled one at a time, every state the
    handlers reach has at most one follower row for each pair of users and
    none from a user to themselves. *)
Theorem X28_followers_when_served (db : DB) :
  served bcrypt_hash bcrypt_compare db ->
  follows_unique db /\ no_self_follow db.
Proof.
  induction 1 as [|db env req _ IH].
  - split; [constructor | intros f []].
  - apply serve_followers, IH.
Qed.
End Followers.

(** The state after Carla has registered, published and taken a
    favorite. *)
Lemma X28_witness :
  served Sample.toy_hash Sample.toy_compare Sample.after_favorite
  /\ follows_unique Sample.after_favorite
  /\ no_self_follow Sample.after_favorite.
Proof.
  assert (H : served Sample.toy_hash Sample.toy_compare Sample.after_favorite).
  { unfold Sample.after_favorite, Sample.after_publish, Sample.after_register.
    repeat apply served_next. apply served_init. }
  split; [exact H|].
  exact (X28_followers_when_served Sample.toy_hash Sample.toy_compare _ H).
Defined.
(** ** Requests about what is not there, and the reach of an update *)

Section Missing.
Variable bcrypt_hash : string -> Z -> string -> string.
Variable bcrypt_compare : string -> string -> bool.

(** X29. A request about a pet, a recipe, a comment or a user that is not
    there, with an id that an [integer] holds, is answered 404 and changes
    nothing, for the sender who is logged in and, where no login is asked
    for, for everyone.  With an id that no [integer] holds the lookup is
    rejected: the request is answered by the [catch] of its handler, 500
    or 400, and changes nothing. *)
Theorem X29_not_found (env : Env) (session : option Z) (userId : Z) (db : DB) :
  truthy_number session = Some userId ->
  (exists user, getUser db userId = Ok (Some user)) ->
  (forall id anyone,
      getPet db id = Ok None ->
      serve bcrypt_hash bcrypt_compare env
        {| session := anyone; route := GetPetById (Some id) |} db
      = (db, message 404 "Pet not found")
      /\ (forall body file,
            serve bcrypt_hash bcrypt_compare env
              {| session := session; route := PutPet (Some id) body file |} db
            = (db, message 404 "Pet not found"))
      /\ serve bcrypt_hash bcrypt_compare env
           {| session := session; route := DeletePetById (Some id) |} db
         = (db, message 404 "Pet not found"))
  /\ (forall id anyone,
        getRecipe db id = Ok None ->
        serve bcrypt_hash bcrypt_compare env
          {| session := anyone; route := GetRecipeById (Some id) |} db
        = (db, message 404 "Recipe not found")
        /\ (forall route,
              (exists body file, route = PutRecipe (Some id) body file)
              \/ route = DeleteRecipeById (Some id)
              \/ route = PostRecipeCook (Some id)
              \/ (exists body, route = PostRecipeComments (Some id) body)
              \/ route = PostRecipeFavorite (Some id) ->
              serve bcrypt_hash bcrypt_compare env
                {| session := session; route := route |} db
              = (db, message 404 "Recipe not found")))
  /\ (forall id,
        in_int4 id = true ->
        (forall comment, In comment (comments db) -> Comments.id comment <> id) ->
        serve bcrypt_hash bcrypt_compare env
          {| session := session; route := DeleteCommentById (Some id) |} db
        = (db, message 404 "Comment not found"))
  /\ (forall id,
        getUser db id = Ok None ->
        serve bcrypt_hash bcrypt_compare env
          {| session := session; route := PostUserFollow (Some id) |} db
        = (db, message 404 "User not found"))
  /\ (forall id anyone,
        in_int4 id = false ->
        (forall route,
           route = GetPetById (Some id) \/ route = GetRecipeById (Some id) ->
           serve bcrypt_hash bcrypt_compare env
             {| session := anyone; route := route |} db
           = (db, server_error))
        /\ (forall route,
              route = DeletePetById (Some id)
              \/ route = DeleteRecipeById (Some id)
              \/ route = PostRecipeCook (Some id)
              \/ route = DeleteCommentById (Some id) ->
              serve bcrypt_hash bcrypt_compare env
                {| session := session; route := route |} db
              = (db, server_error))
        /\ (forall route,
              (exists body file, route = PutPet (Some id) body file)
              \/ (exists body file, route = PutRecipe (Some id) body file)
              \/ (exists body, route = PostRecipeComments (Some id) body)
              \/ route = PostRecipeFavorite (Some id)
              \/ route = PostUserFollow (Some id) ->
              serve bcrypt_hash bcrypt_compare env
                {| session := session; route := route |} db
              = (db, invalid_data))).
Proof.
  intros Hs [user Eu].
  assert (Hauth : forall route next,
             handler {| session := session; route := route |}
             = authenticate session next ->
             serve bcrypt_hash bcrypt_compare env
               {| session := session; route := route |} db
             = run bcrypt_hash bcrypt_compare env (next userId user)
                 (catch {| session := session; route := route |}) db).
  { intros route next Hh. unfold serve. rewrite Hh. unfold authenticate.
    rewrite Hs. cbn. rewrite Eu. reflexivity. }
  split; [|split; [|split; [|split]]].
  - intros id anyone Hpet. split; [|split].
    + unfold serve, handler. cbn. unfold_handlers. cbn. rewrite Hpet. reflexivity.
    + intros body file. erewrite Hauth by reflexivity. cbn. rewrite Hpet. reflexivity.
    + erewrite Hauth by reflexivity. cbn. rewrite Hpet. reflexivity.
  - intros id anyone Hrecipe. split.
    + unfold serve, handler. cbn. unfold_handlers. cbn. rewrite Hrecipe.
      reflexivity.
    + intros route [(body & file & ->)|[->|[->|[(body & ->)| ->]]]];
        erewrite Hauth by reflexivity; cbn; rewrite Hrecipe; reflexivity.
  - intros id Hfit Hnone. erewrite Hauth by reflexivity. cbn.
    unfold eq_integer, integer. rewrite Hfit. cbn.
    change (List.filter (sql_eq Comments.id id) (comments db))
      with (sql_where (sql_eq Comments.id id) (comments db)).
    rewrite sql_where_none; [reflexivity|].
    intros comment Hin. unfold sql_eq. apply bool_decide_eq_false. apply Hnone, Hin.
  - intros id Hnone. erewrite Hauth by reflexivity. cbn. rewrite Hnone. reflexivity.
  - intros id anyone Hfit. split; [|split].
    + intros route [-> | ->]; unfold serve, handler; cbn; unfold_handlers; cbn.
      * rewrite getPet_eq, Hfit. reflexivity.
      * rewrite getRecipe_eq, Hfit. reflexivity.
    + intros route [->|[->|[->| ->]]]; erewrite Hauth by reflexivity; cbn.
      * rewrite getPet_eq, Hfit. reflexivity.
      * rewrite getRecipe_eq, Hfit. reflexivity.
      * rewrite getRecipe_eq, Hfit. reflexivity.
      * unfold eq_integer, integer. rewrite Hfit. reflexivity.
    + intros route [(body & file & ->)|[(body & file & ->)|[(body & ->)|[->| ->]]]];
        erewrite Hauth by reflexivity; cbn.
      * rewrite getPet_eq, Hfit. reflexivity.
      * rewrite getRecipe_eq, Hfit. reflexivity.
      * rewrite getRecipe_eq, Hfit. reflexivity.
      * rewrite getRecipe_eq, Hfit. reflexivity.
      * rewrite getUser_eq, Hfit. reflexivity.
Qed.

(** X30. A profile update reaches no other user: every row of [users]
    whose id is not that of the session is as before, and so are all rows
    of the other tables, whatever the body says.  (The table has the rows
    it had, the row of the session in its new state; nothing is said
    about the order the table is read in.) *)
Theorem X30_profile_update_reach (env : Env) (session : option Z) (userId : Z)
    (body : option Users.Partial.t) (file : option string) (db : DB) :
  truthy_number session = Some userId ->
  let db' :=
    fst (serve bcrypt_hash bcrypt_compare env
           {| session := session; route := PutUsersProfile body file |} db) in
  (exists rows,
     users db' ≡ₚ rows
     /\ Forall2 (fun old new => Users.id old <> userId -> new = old) (users db) rows)
  /\ pets db' = pets db
  /\ recipes db' = recipes db
  /\ comments db' = comments db
  /\ favorites db' = favorites db
  /\ followers db' = followers db.
Proof.
  intros Hs.
  assert (Hsame : Forall2 (fun old new : Users.row => Users.id old <> userId -> new = old)
                    (users db) (users db)).
  { apply Forall2_same_length_lookup_2; [reflexivity|].
    intros i x y Hx Hy _. congruence. }
  assert (Hkept : (exists rows,
             users db ≡ₚ rows
             /\ Forall2 (fun old new : Users.row => Users.id old <> userId -> new = old)
                  (users db) rows)
           /\ pets db = pets db /\ recipes db = recipes db
           /\ comments db = comments db /\ favorites db = favorites db
           /\ followers db = followers db).
  { split; [exists (users db); split; [reflexivity | exact Hsame]|].
    repeat split. }
  unfold serve, handler. cbn. unfold_handlers. rewrite Hs. cbn.
  destruct (getUser db userId) as [[user|]|]; cbn; try exact Hkept.
  destruct body as [raw|]; cbn; [|exact Hkept].
  rewrite updateUser_eq. destruct (in_int4 userId); [|exact Hkept].
  unfold update_users. cbv zeta.
  destruct (check_all _); cbn; [exact Hkept|].
  pose proof (sql_update_table Users.id userId
                (users_set (updateUser_set bcrypt_hash
                              (user_updateData raw file) (salt env) (now env)))
                (fun _ _ => True) (users db) (fun _ => I)) as Ht.
  match goal with
  | |- context [head ?l] => destruct (head l)
  end; cbn; (split; [|repeat split]).
  all: destruct Ht as (rows & Hperm & Ht); exists rows;
    (split; [exact Hperm|]);
    eapply Forall2_impl; [exact Ht|]; cbn; intros old new Hon Hid;
    destruct (decide (Users.id old = userId)); [contradiction | exact Hon].
Qed.
End Missing.

(** Bob asks for a recipe that the sample database does not have. *)
Lemma X29_witness :
  serve Sample.toy_hash Sample.toy_compare (Sample.env 200)
    {| session := Some 2; route := PostRecipeFavorite (Some 9) |} Sample.db
  = (Sample.db, message 404 "Recipe not found").
Proof.
  assert (Hu : exists user, getUser Sample.db 2 = Ok (Some user))
    by (apply id_present_getUser; [simpl; tauto | reflexivity]).
  destruct (X29_not_found Sample.toy_hash Sample.toy_compare (Sample.env 200)
              (Some 2) 2 Sample.db eq_refl Hu) as (_ & Hrecipes & _).
  destruct (Hrecipes 9 None eq_refl) as [_ H]. apply H.
  right. right. right. right. reflexivity.
Defined.

(** Ana moves to Recife; the row of Bob stays as it is. *)
Lemma X30_witness :
  exists rows,
    users (fst (serve Sample.toy_hash Sample.toy_compare (Sample.env 200)
                  {| session := Some 1;
                     route := PutUsersProfile (Some Sample.ana_moves) None |}
                  Sample.db)) ≡ₚ rows
    /\ Forall2 (fun old new => Users.id old <> 1 -> new = old) (users Sample.db) rows.
Proof.
  exact (proj1 (X30_profile_update_reach Sample.toy_hash Sample.toy_compare
                  (Sample.env 200) (Some 1) 1 (Some Sample.ana_moves) None
                  Sample.db eq_refl)).
Defined.
